(** * A shallow embedding of the sequential B-tree (sbtree.c) and its page
    buffer (dbbuffer.c).

    Pages are modelled field by field rather than byte by byte.  The byte
    layout of sbtree.h / sbtree.c is:
      - offset 0, 4 bytes: logical page id (set by [writePage]);
      - offset 4, 2 bytes: the count field, with the role flags
        (+10000 interior, +20000 root);
      - offset 6 (headerSize): interior keys, [keySize] bytes each, at
        [6 + keySize*i], and child pointers at
        [6 + keySize*maxInteriorRecordsPerPage + 4*i];
      - offset 6: leaf records at [6 + recordSize*i], key first, data after.
    Keys are 4-byte values (the comparator and [sbtreeFlush] read them as
    [int32_t]); they are kept as their unsigned 32-bit bit pattern.  The data
    part of a record is kept as one integer (its [dataSize] bytes). *)

From Stdlib Require Import ZArith Lia List Bool RelationClasses.
Import ListNotations.
Open Scope Z_scope.

(** ** Machine integers *)

Definition u8 (x : Z) : Z := x mod 2 ^ 8.
Definition u16 (x : Z) : Z := x mod 2 ^ 16.
Definition u32 (x : Z) : Z := x mod 2 ^ 32.

(** Two's complement reinterpretation of the low [w] bits. *)
Definition signed (w x : Z) : Z :=
  let y := x mod 2 ^ w in if y >=? 2 ^ (w - 1) then y - 2 ^ w else y.
Definition s8 := signed 8.
Definition s16 := signed 16.
Definition s32 := signed 32.

(** [(id_t) -1], the "no page" result of [getChildPageId] and of
    [sbtreeSearchNode]. *)
Definition ID_NONE : Z := u32 (-1).

(** dbbuffer.h *)
Definition BUFFER_EMPTY_ID : Z := 2147483647.
Definition NOT_MODIFIED_VAL : Z := 100.

(** ** Pages *)

Record page := mkPage {
  pg_id : Z;                (* offset 0: logical page id *)
  pg_count : Z;             (* offset 4: raw uint16 count field with role flags *)
  pg_keys : Z -> Z;         (* interior separator keys *)
  pg_ptrs : Z -> Z;         (* interior child pointers (id_t) *)
  pg_recs : Z -> Z * Z      (* leaf records: (key, data) *)
}.

(** A page whose bytes are all zero ([initBufferPage]). *)
Definition zero_page : page :=
  mkPage 0 0 (fun _ => 0) (fun _ => 0) (fun _ => (0, 0)).

Definition upd {A} (f : Z -> A) (i : Z) (v : A) : Z -> A :=
  fun j => if Z.eqb j i then v else f j.

Definition set_pg_id (p : page) (v : Z) : page :=
  mkPage v (pg_count p) (pg_keys p) (pg_ptrs p) (pg_recs p).
Definition set_pg_count (p : page) (v : Z) : page :=
  mkPage (pg_id p) v (pg_keys p) (pg_ptrs p) (pg_recs p).
Definition set_key (p : page) (i v : Z) : page :=
  mkPage (pg_id p) (pg_count p) (upd (pg_keys p) i v) (pg_ptrs p) (pg_recs p).
Definition set_ptr (p : page) (i v : Z) : page :=
  mkPage (pg_id p) (pg_count p) (pg_keys p) (upd (pg_ptrs p) i v) (pg_recs p).
Definition set_rec (p : page) (i : Z) (r : Z * Z) : page :=
  mkPage (pg_id p) (pg_count p) (pg_keys p) (pg_ptrs p) (upd (pg_recs p) i r).

(** The count macros of sbtree.h. *)
Definition SBTREE_GET_COUNT (p : page) : Z := pg_count p mod 10000.
Definition SBTREE_INC_COUNT (p : page) : page := set_pg_count p (u16 (pg_count p + 1)).
Definition SBTREE_IS_INTERIOR (p : page) : bool := 10000 <=? s16 (pg_count p).
Definition SBTREE_IS_ROOT (p : page) : bool := 20000 <=? s16 (pg_count p).
Definition SBTREE_SET_INTERIOR (p : page) : page :=
  set_pg_count p (u16 (s16 (pg_count p) + 10000)).
Definition SBTREE_SET_ROOT (p : page) : page :=
  set_pg_count p (u16 (s16 (pg_count p) + 20000)).

(** ** Storage back-end

    The medium is kept as its history of page writes, newest first; a read
    returns the last page written at that physical number and fails on a
    page never written. *)

Definition storage := list (Z * page).

Fixpoint storage_read (m : storage) (n : Z) : option page :=
  match m with
  | [] => None
  | (k, p) :: m' => if Z.eqb k n then Some p else storage_read m' n
  end.

(** ** Buffer state ([dbbuffer] of dbbuffer.h) *)

Record dbbuffer := mkBuf {
  status : Z -> Z;          (* physical page held by each slot *)
  slots : Z -> page;        (* the bytes of each slot *)
  modified : Z -> Z;        (* NOT_MODIFIED_VAL or the active path level *)
  store : storage;          (* state->storage *)
  nextPageId : Z;
  nextPageWriteId : Z;
  numWrites : Z;
  numReads : Z;
  bufferHits : Z;
  lastHit : Z;
  nextBufferPage : Z
}.

Definition set_status b v := mkBuf v (slots b) (modified b) (store b) (nextPageId b)
  (nextPageWriteId b) (numWrites b) (numReads b) (bufferHits b) (lastHit b) (nextBufferPage b).
Definition set_slots b v := mkBuf (status b) v (modified b) (store b) (nextPageId b)
  (nextPageWriteId b) (numWrites b) (numReads b) (bufferHits b) (lastHit b) (nextBufferPage b).
Definition set_modified b v := mkBuf (status b) (slots b) v (store b) (nextPageId b)
  (nextPageWriteId b) (numWrites b) (numReads b) (bufferHits b) (lastHit b) (nextBufferPage b).
Definition set_store b v := mkBuf (status b) (slots b) (modified b) v (nextPageId b)
  (nextPageWriteId b) (numWrites b) (numReads b) (bufferHits b) (lastHit b) (nextBufferPage b).
Definition set_nextPageId b v := mkBuf (status b) (slots b) (modified b) (store b) v
  (nextPageWriteId b) (numWrites b) (numReads b) (bufferHits b) (lastHit b) (nextBufferPage b).
Definition set_nextPageWriteId b v := mkBuf (status b) (slots b) (modified b) (store b)
  (nextPageId b) v (numWrites b) (numReads b) (bufferHits b) (lastHit b) (nextBufferPage b).
Definition set_numWrites b v := mkBuf (status b) (slots b) (modified b) (store b)
  (nextPageId b) (nextPageWriteId b) v (numReads b) (bufferHits b) (lastHit b) (nextBufferPage b).
Definition set_numReads b v := mkBuf (status b) (slots b) (modified b) (store b)
  (nextPageId b) (nextPageWriteId b) (numWrites b) v (bufferHits b) (lastHit b) (nextBufferPage b).
Definition set_bufferHits b v := mkBuf (status b) (slots b) (modified b) (store b)
  (nextPageId b) (nextPageWriteId b) (numWrites b) (numReads b) v (lastHit b) (nextBufferPage b).
Definition set_lastHit b v := mkBuf (status b) (slots b) (modified b) (store b)
  (nextPageId b) (nextPageWriteId b) (numWrites b) (numReads b) (bufferHits b) v (nextBufferPage b).
Definition set_nextBufferPage b v := mkBuf (status b) (slots b) (modified b) (store b)
  (nextPageId b) (nextPageWriteId b) (numWrites b) (numReads b) (bufferHits b) (lastHit b) v.

(** ** Tree state ([sbtreeState]).  The tree's [activePath] array is shared
    with the buffer through [dbbuffer.activePath]; it is kept once, here. *)

Record sbtreeState := mkTree {
  buffer : dbbuffer;
  activePath : Z -> Z;
  levels : Z;
  tempKey : Z
}.

Definition set_buffer s v := mkTree v (activePath s) (levels s) (tempKey s).
Definition set_activePath s v := mkTree (buffer s) v (levels s) (tempKey s).
Definition set_levels s v := mkTree (buffer s) (activePath s) v (tempKey s).
Definition set_tempKey s v := mkTree (buffer s) (activePath s) (levels s) v.

(** The sizes fixed at initialisation. *)
Record config := mkConfig {
  pageSize : Z;
  numPages : Z;
  keySize : Z;
  dataSize : Z;
  recordSize : Z;
  headerSize : Z;
  maxRecordsPerPage : Z;
  maxInteriorRecordsPerPage : Z
}.

(** The size computations of [sbtreeInit] (sizeof(id_t) = 4). *)
Definition sbtree_config (pageSize numPages keySize dataSize : Z) : config :=
  let recordSize := u8 (keySize + dataSize) in
  let headerSize := 6 in
  mkConfig pageSize numPages keySize dataSize recordSize headerSize
    (u16 ((pageSize - headerSize) / recordSize))
    (u16 ((pageSize - headerSize - 4) / (keySize + 4))).

(** ** A state monad with non-termination (None: the call does not return). *)

Definition M (A : Type) := sbtreeState -> option (A * sbtreeState).

Definition ret {A} (x : A) : M A := fun s => Some (x, s).
Definition bind {A B} (m : M A) (k : A -> M B) : M B :=
  fun s => match m s with Some (x, s') => k x s' | None => None end.
Definition gets {A} (f : sbtreeState -> A) : M A := fun s => Some (f s, s).
Definition modify (f : sbtreeState -> sbtreeState) : M unit := fun s => Some (tt, f s).
Definition modify_buf (f : dbbuffer -> dbbuffer) : M unit :=
  modify (fun s => set_buffer s (f (buffer s))).

Notation "x <- m ;; k" := (bind m (fun x => k)) (at level 61, m at next level, right associativity).
Notation "m ;;; k" := (bind m (fun _ => k)) (at level 61, right associativity).

(** ** dbbuffer.c *)

Section Buffer.
Variable c : config.

(** [dbbufferInit]: counters to zero, every slot empty and not modified,
    round-robin cursor at 1. *)
Definition dbbufferInit (b : dbbuffer) : dbbuffer :=
  mkBuf (fun _ => BUFFER_EMPTY_ID) (slots b) (fun _ => NOT_MODIFIED_VAL) (store b)
    0 0 0 0 0 0 1.

Definition slot (i : Z) : M page := gets (fun s => slots (buffer s) i).
Definition put_slot (i : Z) (p : page) : M unit :=
  modify_buf (fun b => set_slots b (upd (slots b) i p)).
Definition update_slot (i : Z) (f : page -> page) : M unit :=
  p <- slot i ;; put_slot i (f p).

(** [writePage]: the page in slot [i] is appended at the next physical page
    number; its header receives the next logical id. *)
Definition writePage (i : Z) : M Z :=
  pageNum <- gets (fun s => nextPageWriteId (buffer s)) ;;
  modify_buf (fun b => set_nextPageWriteId b (u32 (nextPageWriteId b + 1))) ;;;
  pid <- gets (fun s => nextPageId (buffer s)) ;;
  update_slot i (fun p => set_pg_id p pid) ;;;
  modify_buf (fun b => set_nextPageId b (u32 (nextPageId b + 1))) ;;;
  p <- slot i ;;
  modify_buf (fun b => set_store b ((u32 pageNum, p) :: store b)) ;;;
  modify_buf (fun b => set_status b (upd (status b) i pageNum)) ;;;
  modify_buf (fun b => set_modified b (upd (modified b) i NOT_MODIFIED_VAL)) ;;;
  modify_buf (fun b => set_numWrites b (u32 (numWrites b + 1))) ;;;
  ret (s32 pageNum).

(** [readPageBuffer]: load physical page [pageNum] into slot [i]; a failed
    storage read leaves the slot as it was (the return code is ignored). *)
Definition readPageBuffer (pageNum i : Z) : M Z :=
  m <- gets (fun s => store (buffer s)) ;;
  match storage_read m pageNum with
  | Some p => put_slot i p
  | None => ret tt
  end ;;;
  modify_buf (fun b => set_numReads b (u32 (numReads b + 1))) ;;;
  ret i.

(** The first [j] in [i, i+n) with [f j]. *)
Fixpoint find_slot (n : nat) (i : Z) (f : Z -> bool) : option Z :=
  match n with
  | O => None
  | S n' => if f i then Some i else find_slot n' (i + 1) f
  end.

(** The round-robin loop of [readPage], from cursor value [i] with
    [nextBufferPage] already advanced to [nbp].  It only leaves through the
    [break]; the fuel covers one pass from [i] to the end and one full pass
    over slots [2 .. numPages-1], after which the loop would only repeat. *)
Fixpoint rr_loop (fuel : nat) (st : Z -> Z) (lh i nbp : Z) : option (Z * Z) :=
  match fuel with
  | O => None
  | S f =>
      let '(i, nbp) := if i >? numPages c - 1 then (2, 2) else (i, nbp) in
      if negb (st i =? lh) then Some (i, nbp)
      else rr_loop f st lh (u16 (i + 1)) nbp
  end.

(** Slot choice of [readPage] on a miss (before the dirty write-back). *)
Definition choose_slot (s : sbtreeState) (pageNum : Z) : option (Z * Z) :=
  let b := buffer s in
  if numPages c =? 2 then Some (1, nextBufferPage b)
  else if activePath s 0 =? pageNum then Some (1, nextBufferPage b)
  else if numPages c =? 3 then Some (2, nextBufferPage b)
  else match find_slot (Z.to_nat (numPages c - 2)) 2
               (fun i => status b i =? BUFFER_EMPTY_ID) with
       | Some i => Some (i, nextBufferPage b)
       | None => rr_loop (Z.to_nat (2 * numPages c)) (status b) (lastHit b)
                   (nextBufferPage b) (u16 (nextBufferPage b + 1))
       end.

(** [readPage]: a hit in slots [1 .. numPages-1], otherwise a slot chosen by
    [choose_slot], written back first if it is marked modified. *)
Definition readPage (pageNum : Z) : M Z :=
  s <- gets (fun s => s) ;;
  let b := buffer s in
  match find_slot (Z.to_nat (numPages c - 1)) 1 (fun i => status b i =? pageNum) with
  | Some i =>
      modify_buf (fun b => set_bufferHits b (u32 (bufferHits b + 1))) ;;;
      modify_buf (fun b => set_lastHit b (u16 (status b i))) ;;;
      ret i
  | None =>
      match choose_slot s pageNum with
      | None => fun _ => None
      | Some (i, nbp) =>
          modify_buf (fun b => set_nextBufferPage b nbp) ;;;
          m <- gets (fun s => modified (buffer s) i) ;;
          (if negb (m =? NOT_MODIFIED_VAL) then
             r <- writePage i ;;
             modify (fun s => set_activePath s (upd (activePath s) (u8 m) (u32 r)))
           else ret tt) ;;;
          modify_buf (fun b => set_status b (upd (status b) i pageNum)) ;;;
          modify_buf (fun b => set_modified b (upd (modified b) i NOT_MODIFIED_VAL)) ;;;
          readPageBuffer pageNum i
      end
  end.

(** [initBufferPage]: zero slot [i]. *)
Definition initBufferPage (i : Z) : M Z := put_slot i zero_page ;;; ret i.

(** [dbbufferSetModified] (not called by sbtree.c). *)
Definition dbbufferSetModified (i level : Z) : M unit :=
  modify_buf (fun b => set_modified b (upd (modified b) i (u8 level))).

End Buffer.

(** ** sbtree.c *)

Definition diverge {A} : M A := fun _ => None.

(** [uint32Compare]: the keys are read as [int32_t] and subtracted; the
    difference is taken modulo 2^32 (two's complement wrap-around). *)
Definition uint32Compare (a b : Z) : Z :=
  let result := s32 (s32 a - s32 b) in
  if result <? 0 then -1 else if result >? 0 then 1 else 0.

Section Tree.
Variable c : config.

Definition get_ap (l : Z) : M Z := gets (fun s => activePath s l).
Definition set_ap (l v : Z) : M unit :=
  modify (fun s => set_activePath s (upd (activePath s) l v)).

(** The binary search over the separators of an interior node.  [first],
    [last] and [middle] are the [int16_t] locals; each round shrinks
    [last - first], so the fuel [last - first + 1] is never exhausted. *)
Fixpoint interior_search (fuel : nat) (p : page) (key first last middle : Z) : Z :=
  match fuel with
  | O => last
  | S f =>
      if first <? last then
        let compare := uint32Compare key (pg_keys p middle) in
        if compare >? 0 then
          interior_search f p key (middle + 1) last (Z.quot (middle + 1 + last) 2)
        else if compare =? 0 then middle + 1
        else interior_search f p key first middle (Z.quot (first + middle) 2)
      else last
  end.

(** The binary search over the records of a leaf. *)
Fixpoint leaf_search (fuel : nat) (p : page) (key first last middle : Z) (range : bool) : Z :=
  match fuel with
  | O => ID_NONE
  | S f =>
      if first <=? last then
        let compare := uint32Compare (fst (pg_recs p middle)) key in
        if compare <? 0 then
          leaf_search f p key (middle + 1) last (Z.quot (middle + 1 + last) 2) range
        else if compare =? 0 then u32 middle
        else leaf_search f p key first (middle - 1) (Z.quot (first + middle - 1) 2) range
      else if range then u32 middle else ID_NONE
  end.

(** [sbtreeSearchNode]: child index for an interior node, record index for
    a leaf (or, for a range search that misses, the last [middle]). *)
Definition sbtreeSearchNode (p : page) (key : Z) (range : bool) : Z :=
  let count := SBTREE_GET_COUNT p in
  if SBTREE_IS_INTERIOR p then
    if count =? 0 then 0
    else if count =? 1 then
      (if uint32Compare key (pg_keys p 0) <? 0 then 0 else 1)
    else
      let last := Z.min count (maxInteriorRecordsPerPage c) in
      interior_search (Z.to_nat (last + 1)) p key 0 last (Z.quot last 2)
  else
    leaf_search (Z.to_nat (count + 1)) p key 0 (count - 1) (Z.quot (count - 1) 2) range.

(** [getChildPageId]: the active path remap of the trailing child. *)
Definition getChildPageId (s : sbtreeState) (buf : page) (pageId level childNum : Z) : Z :=
  if (childNum =? SBTREE_GET_COUNT buf) && (level <? levels s - 1)
     && (pageId =? activePath s level)
  then activePath s (level + 1)
  else
    let nextId := pg_ptrs buf childNum in
    if (nextId =? 0) && (childNum =? SBTREE_GET_COUNT buf) then ID_NONE
    else nextId.

(** [sbtreeInit] (after [sbtree_config] has fixed the sizes). *)
Definition sbtreeInit : M unit :=
  modify_buf dbbufferInit ;;;
  modify (fun s => set_levels s 1) ;;;
  initBufferPage 0 ;;;
  update_slot 0 SBTREE_SET_ROOT ;;;
  r <- writePage 0 ;;
  set_ap 0 (u32 r) ;;;
  initBufferPage 0 ;;;
  ret tt.

(** The loop of [sbtreeUpdateIndex], from level [l] up to the root.
    [prevPageNum] is the [int32_t] local, kept as its 32-bit pattern
    ([ID_NONE] for -1).  It returns the level the loop stopped at
    (-1 when every level was full) and [prevPageNum]. *)
Fixpoint updateIndex_loop (fuel : nat) (minkey key l prevPageNum pageNum : Z) : M (Z * Z) :=
  match fuel with
  | O => ret (l, prevPageNum)
  | S f =>
    if l <? 0 then ret (l, prevPageNum) else
    lv <- gets levels ;;
    apl <- get_ap l ;;
    readPageBuffer apl 0 ;;;
    buf <- slot 0 ;;
    let count := SBTREE_GET_COUNT buf in
    let maxI := maxInteriorRecordsPerPage c in
    if (count >? maxI) || ((l <? lv - 1) && (count >=? maxI)) then
      (* full: start a new node at this level *)
      (if l <? lv - 1 then
         update_slot 0 (fun p => set_ptr p count prevPageNum) ;;;
         r <- writePage 0 ;;
         set_ap l (u32 r)
       else ret tt) ;;;
      initBufferPage 0 ;;;
      update_slot 0 SBTREE_SET_INTERIOR ;;;
      (if l =? lv - 1 then
         update_slot 0 (fun p => set_key p 0 key) ;;;
         update_slot 0 SBTREE_INC_COUNT
       else ret tt) ;;;
      update_slot 0 (fun p => set_ptr p 0 pageNum) ;;;
      prev' <- get_ap l ;;
      r <- writePage 0 ;;
      set_ap l (u32 r) ;;;
      pageNum' <- get_ap l ;;
      updateIndex_loop f minkey key (l - 1) prev' pageNum'
    else
      (* room: add the pointer and stop *)
      (if count <? maxI then
         update_slot 0 (fun p => set_key p count (if l =? lv - 1 then key else minkey))
       else ret tt) ;;;
      (if (l =? 0) && (lv >? 1) then
         update_slot 0 (fun p => set_ptr p (count + 1) pageNum) ;;;
         (if (count >? 0) && negb (prevPageNum =? ID_NONE) then
            update_slot 0 (fun p => set_ptr p count prevPageNum)
          else ret tt)
       else
         count' <- (if negb (prevPageNum =? ID_NONE) then
                      update_slot 0 (fun p => set_ptr p count prevPageNum) ;;;
                      ret (count + 1)
                    else ret count) ;;
         update_slot 0 (fun p => set_ptr p count' pageNum)) ;;;
      update_slot 0 SBTREE_INC_COUNT ;;;
      r <- writePage 0 ;;
      set_ap l (u32 r) ;;;
      ret (l, prevPageNum)
  end.

(** [for (l = levels; l > 0; l--) activePath[l] = activePath[l-1];] *)
Fixpoint shift_activePath (n : nat) (l : Z) : M unit :=
  match n with
  | O => ret tt
  | S n' => v <- get_ap (l - 1) ;; set_ap l v ;;; shift_activePath n' (l - 1)
  end.

(** [sbtreeUpdateIndex]; the root overflow grows the tree by one level. *)
Definition sbtreeUpdateIndex (minkey key pageNum : Z) : M Z :=
  lv <- gets levels ;;
  r <- updateIndex_loop (Z.to_nat lv) minkey key (lv - 1) ID_NONE pageNum ;;
  let '(l, prevPageNum) := r in
  (if l =? -1 then
     initBufferPage 0 ;;;
     update_slot 0 (fun p => set_key p 0 minkey) ;;;
     update_slot 0 (fun p => set_ptr p 0 prevPageNum) ;;;
     ap0 <- get_ap 0 ;;
     update_slot 0 (fun p => set_ptr p 1 ap0) ;;;
     update_slot 0 SBTREE_INC_COUNT ;;;
     update_slot 0 SBTREE_SET_ROOT ;;;
     lv <- gets levels ;;
     shift_activePath (Z.to_nat lv) lv ;;;
     w <- writePage 0 ;;
     set_ap 0 (u32 w) ;;;
     modify (fun s => set_levels s (u8 (levels s + 1)))
   else ret tt) ;;;
  ret 0.

(** [sbtreePut] *)
Definition sbtreePut (key data : Z) : M Z :=
  wb <- slot 0 ;;
  let count := SBTREE_GET_COUNT wb in
  step <- (if count >=? maxRecordsPerPage c then
             pageNum <- writePage 0 ;;
             wb <- slot 0 ;;
             modify (fun s => set_tempKey s (fst (pg_recs wb 0))) ;;;
             tk <- gets tempKey ;;
             e <- sbtreeUpdateIndex tk key (u32 pageNum) ;;
             if negb (e =? 0) then ret (inl (-1))
             else initBufferPage 0 ;;; ret (inr 0)
           else ret (inr count)) ;;
  match step with
  | inl e => ret e
  | inr count =>
      update_slot 0 (fun p => set_rec p count (key, data)) ;;;
      update_slot 0 SBTREE_INC_COUNT ;;;
      ret 0
  end.

(** [sbtreeGet]: the descent through the [levels] interior levels. *)
Fixpoint get_loop (n : nat) (l nextId key : Z) : M (option Z) :=
  match n with
  | O => ret (Some nextId)
  | S n' =>
      i <- readPage c nextId ;;
      buf <- slot i ;;
      let childNum := sbtreeSearchNode buf key false in
      s <- gets (fun s => s) ;;
      let nextId' := getChildPageId s buf nextId l childNum in
      if nextId' =? ID_NONE then ret None
      else get_loop n' (l + 1) nextId' key
  end.

(** [sbtreeGet]: the result code and the data copied to the caller. *)
Definition sbtreeGet (key : Z) : M (Z * option Z) :=
  root <- get_ap 0 ;;
  lv <- gets levels ;;
  r <- get_loop (Z.to_nat lv) 0 root key ;;
  match r with
  | None => ret (-1, None)
  | Some nextId =>
      i <- readPage c nextId ;;
      buf <- slot i ;;
      let k := sbtreeSearchNode buf key false in
      if negb (k =? ID_NONE) then ret (0, Some (snd (pg_recs buf k)))
      else ret (-1, None)
  end.

(** [sbtreeFlush].  When the write buffer is empty the "max key" is read
    [recordSize] bytes before the first record, outside the page; [oob] is
    the value found there. *)
Definition sbtreeFlush (oob : Z) : M Z :=
  pageNum <- writePage 0 ;;
  wb <- slot 0 ;;
  let cnt := SBTREE_GET_COUNT wb in
  let maxkey := if cnt =? 0 then oob else fst (pg_recs wb (cnt - 1)) in
  let mkey := s32 (s32 maxkey + 1) in
  let minKey := fst (pg_recs wb 0) in
  e <- sbtreeUpdateIndex minKey (u32 mkey) (u32 pageNum) ;;
  if negb (e =? 0) then ret (-1)
  else initBufferPage 0 ;;; ret 0.

End Tree.

(** ** The iterator ([sbtreeIterator]) *)

Record sbtreeIterator := mkIter {
  minKey : Z;
  maxKey : Z;
  currentBuffer : option Z;         (* slot holding the current leaf, or NULL *)
  activeIteratorPath : Z -> Z;
  lastIterRec : Z -> Z
}.

Definition set_currentBuffer it v :=
  mkIter (minKey it) (maxKey it) v (activeIteratorPath it) (lastIterRec it).
Definition set_aip it l v :=
  mkIter (minKey it) (maxKey it) (currentBuffer it) (upd (activeIteratorPath it) l v) (lastIterRec it).
Definition set_lir it l v :=
  mkIter (minKey it) (maxKey it) (currentBuffer it) (activeIteratorPath it) (upd (lastIterRec it) l v).

Section Iterator.
Variable c : config.

(** The descent of [sbtreeInitIterator]; [inl] is the early return. *)
Fixpoint init_loop (n : nat) (l nextId : Z) (it : sbtreeIterator)
  : M (sbtreeIterator + (Z * Z * sbtreeIterator)) :=
  match n with
  | O => ret (inr (l, nextId, it))
  | S n' =>
      let it := set_aip it l nextId in
      i <- readPage c nextId ;;
      buf <- slot i ;;
      let childNum := sbtreeSearchNode c buf (minKey it) true in
      s <- gets (fun s => s) ;;
      let nextId' := getChildPageId s buf nextId l childNum in
      if nextId' =? ID_NONE then ret (inl it)
      else init_loop n' (l + 1) nextId' (set_lir it l childNum)
  end.

Definition sbtreeInitIterator (it : sbtreeIterator) : M sbtreeIterator :=
  let it := set_currentBuffer it None in
  root <- get_ap 0 ;;
  lv <- gets levels ;;
  r <- init_loop (Z.to_nat lv) 0 root it ;;
  match r with
  | inl it => ret it
  | inr (l, nextId, it) =>
      let it := set_aip it l nextId in
      i <- readPage c nextId ;;
      buf <- slot i ;;
      let it := set_currentBuffer it (Some i) in
      ret (set_lir it l (sbtreeSearchNode c buf (minKey it) true))
  end.

(** The upward loop of [sbtreeNext]: [for (l = levels-1; l >= 0; l--)].
    It returns the level it stopped at (-1 if none had room) and the slot
    of the node read there. *)
Fixpoint next_up (n : nat) (l : Z) (it : sbtreeIterator) : M (Z * Z * sbtreeIterator) :=
  match n with
  | O => ret (l, 0, it)
  | S n' =>
      i <- readPage c (activeIteratorPath it l) ;;
      buf <- slot i ;;
      lv <- gets levels ;;
      let count := s8 (SBTREE_GET_COUNT buf) in
      let count := if l =? lv - 1 then s8 (count - 1) else count in
      if lastIterRec it l <? count then ret (l, i, set_lir it l (lastIterRec it l + 1))
      else next_up n' (l - 1) (set_lir it l 0)
  end.

(** The downward loop of [sbtreeNext]: [for ( ; l < levels; l++)]; [None]
    is the early [return 0]. *)
Fixpoint next_down (n : nat) (l i : Z) (it : sbtreeIterator) : M (option (Z * sbtreeIterator)) :=
  match n with
  | O => ret (Some (i, it))
  | S n' =>
      buf <- slot i ;;
      s <- gets (fun s => s) ;;
      let nextPage := getChildPageId s buf (activeIteratorPath it l) l (lastIterRec it l) in
      if nextPage =? ID_NONE then ret None
      else
        let it := set_aip it (l + 1) nextPage in
        i' <- readPage c nextPage ;;
        next_down n' (l + 1) i' it
  end.

(** The [while (1)] loop of [sbtreeNext], from the leaf in slot [i].  The
    result is the return code, the record [*key]/[*data] point to, and the
    iterator.  Running out of fuel stands for the loop not returning. *)
Fixpoint next_loop (fuel : nat) (i : Z) (it : sbtreeIterator)
  : M (Z * (Z * Z) * sbtreeIterator) :=
  match fuel with
  | O => diverge
  | S f =>
      lv <- gets levels ;;
      buf <- slot i ;;
      r <- (if lastIterRec it lv >=? SBTREE_GET_COUNT buf then
              let it := set_lir it lv 0 in
              u <- next_up (Z.to_nat lv) (lv - 1) it ;;
              let '(l, j, it) := u in
              if l =? -1 then ret (inl it)
              else
                d <- next_down (Z.to_nat (lv - l)) l j it ;;
                match d with
                | None => ret (inl it)
                | Some (j, it) => ret (inr (j, set_currentBuffer it (Some j)))
                end
            else ret (inr (i, it))) ;;
      match r with
      | inl it => ret (0, (0, 0), it)
      | inr (i, it) =>
          buf <- slot i ;;
          let kd := pg_recs buf (lastIterRec it lv) in
          let it := set_lir it lv (lastIterRec it lv + 1) in
          if uint32Compare (fst kd) (minKey it) <? 0 then next_loop f i it
          else if uint32Compare (fst kd) (maxKey it) >? 0 then ret (0, kd, it)
          else ret (1, kd, it)
      end
  end.

Definition sbtreeNext (fuel : nat) (it : sbtreeIterator) : M (Z * (Z * Z) * sbtreeIterator) :=
  match currentBuffer it with
  | None => ret (0, (0, 0), it)
  | Some i => next_loop fuel i it
  end.

(** Calling [sbtreeNext] until it returns 0, collecting the records. *)
Fixpoint iterate (n : nat) (fuel : nat) (it : sbtreeIterator) : M (list (Z * Z)) :=
  match n with
  | O => diverge
  | S n' =>
      r <- sbtreeNext fuel it ;;
      let '(code, kd, it) := r in
      if code =? 0 then ret []
      else rest <- iterate n' fuel it ;; ret (kd :: rest)
  end.

End Iterator.

(** ** Concrete runs *)

(** A buffer and tree state before [sbtreeInit]: nothing written yet. *)
Definition blank_state : sbtreeState :=
  mkTree (mkBuf (fun _ => 0) (fun _ => zero_page) (fun _ => 0) [] 0 0 0 0 0 0 0)
    (fun _ => 0) 0 0.

Definition run {A} (m : M A) (s : sbtreeState) : option (A * sbtreeState) := m s.

(** Insert keys [from, from+1, ..., from+n-1] with data [key * 10]. *)
Fixpoint put_seq (c : config) (n : nat) (from : Z) : M unit :=
  match n with
  | O => ret tt
  | S n' => _ <- sbtreePut c from (from * 10) ;; put_seq c n' (from + 1)
  end.

Definition small_cfg : config := sbtree_config 46 4 4 4.

(** The byte offset [sbtreeFlush] reads the "max key" from:
    [state->recordSize * (SBTREE_GET_COUNT(state->writeBuffer)-1) + state->headerSize]. *)
Definition flush_maxkey_offset (c : config) (count : Z) : Z :=
  recordSize c * (count - 1) + headerSize c.

(** A [keySize]-byte read at [off] lies inside the record area of a leaf,
    bytes [headerSize, headerSize + recordSize*maxRecordsPerPage). *)
Definition in_record_area (c : config) (off : Z) : Prop :=
  headerSize c <= off /\
  off + keySize c <= headerSize c + recordSize c * maxRecordsPerPage c.

(** The configuration of the test program: 512-byte pages, 4 buffer pages,
    4-byte keys and 12-byte data. *)
Definition test_cfg : config := sbtree_config 512 4 4 12.

(** A 2048-byte page: 127 records per leaf, 254 keys per interior node. *)
Definition page2k_cfg : config := sbtree_config 2048 4 4 12.

(** The state after [sbtreeInit], [n] puts of keys [1..n] and a flush. *)
Definition loaded (c : config) (n : nat) : sbtreeState :=
  match run (sbtreeInit ;;; put_seq c n 1 ;;; sbtreeFlush c 0) blank_state with
  | Some (_, s) => s
  | None => blank_state
  end.

(** Range iteration over [a, b]: [sbtreeInitIterator] then [sbtreeNext]
    until it returns 0. *)
Definition range_query (c : config) (a b : Z) (n : nat) : M (list (Z * Z)) :=
  it <- sbtreeInitIterator c (mkIter a b None (fun _ => 0) (fun _ => 0)) ;;
  iterate c n n it.

(** [sbtreeInit], one [sbtreePut] of [(k, d)], then [sbtreeGet k]: the
    result code and the data copied out. *)
Definition put_then_get (c : config) (k d : Z) : option (Z * option Z) :=
  match run (sbtreeInit ;;; _ <- sbtreePut c k d ;; sbtreeGet c k) blank_state with
  | Some (r, _) => Some r
  | None => None
  end.

(** The records a range iteration over [a, b] returns on [loaded c n]. *)
Definition range_result (c : config) (n : nat) (a b : Z) (fuel : nat) : option (list (Z * Z)) :=
  match run (range_query c a b fuel) (loaded c n) with
  | Some (l, _) => Some l
  | None => None
  end.

(** The page stored at [activePath[0]]. *)
Definition root_page (s : sbtreeState) : page :=
  match storage_read (store (buffer s)) (activePath s 0) with
  | Some p => p
  | None => zero_page
  end.

(** [sbtreeGet] on [loaded c n]. *)
Definition get_result (c : config) (n : nat) (k : Z) : option (Z * option Z) :=
  match run (sbtreeGet c k) (loaded c n) with
  | Some (r, _) => Some r
  | None => None
  end.

(** [n] successive [writePage i] calls; the list of their results. *)
Fixpoint write_seq (n : nat) (i : Z) : M (list Z) :=
  match n with
  | O => ret []
  | S n' => r <- writePage i ;; rs <- write_seq n' i ;; ret (r :: rs)
  end.

(** [w, w+1, ..., w+n-1]. *)
Fixpoint from_to (w : Z) (n : nat) : list Z :=
  match n with
  | O => []
  | S n' => w :: from_to (w + 1) n'
  end.

(** The physical page numbers written so far, newest first. *)
Definition written (s : sbtreeState) : list Z := map fst (store (buffer s)).

(** The state right after [dbbufferInit]. *)
Definition buffer_initialized (s : sbtreeState) : sbtreeState :=
  set_buffer s (dbbufferInit (buffer s)).

(** [k] pages were written between [s] and [s']: [nextPageWriteId] and the
    write counter advanced by [k] (with their 32-bit wrap), or stayed as
    they were when [k = 0]. *)
Definition advance (s s' : sbtreeState) (k : nat) : Prop :=
  (k = 0%nat /\ nextPageWriteId (buffer s') = nextPageWriteId (buffer s) /\
                numWrites (buffer s') = numWrites (buffer s)) \/
  ((0 < k)%nat /\
   nextPageWriteId (buffer s') = u32 (nextPageWriteId (buffer s) + Z.of_nat k) /\
   numWrites (buffer s') = u32 (numWrites (buffer s) + Z.of_nat k)).

(** [m] returns in every state, with a result satisfying [Q], after writing
    at least [lo] pages, [new] (newest first). *)
Definition writes_pages {A} (lo : nat) (Q : A -> Prop) (m : M A) : Prop :=
  forall s, exists x s' new, m s = Some (x, s') /\ Q x /\ (lo <= length new)%nat /\
    written s' = new ++ written s /\ advance s s' (length new).

(** [sbtreeInit], [n] puts of keys [1..n], then two flushes in a row: the
    write counter and [nextPageWriteId] after the first and after the
    second flush. *)
Definition two_flushes (c : config) (n : nat) : option (Z * Z * Z * Z) :=
  match run (sbtreeInit ;;; put_seq c n 1 ;;; _ <- sbtreeFlush c 0 ;; gets (fun s => s))
          blank_state with
  | Some (s1, _) =>
      match run (sbtreeFlush c 0) s1 with
      | Some (_, s2) =>
          Some (numWrites (buffer s1), nextPageWriteId (buffer s1),
                numWrites (buffer s2), nextPageWriteId (buffer s2))
      | None => None
      end
  | None => None
  end.

(** 18-byte pages with 8-byte data: one record per leaf and one key per
    interior node, so every other level fills quickly. *)
Definition tiny_cfg : config := sbtree_config 18 4 4 8.

(** [sbtreeInit] and the puts of keys [1..n], then one more put of key
    [n+1]: the levels before it, its result and the levels after it. *)
Definition put_growth (c : config) (n : nat) : option (Z * Z * Z) :=
  match run (sbtreeInit ;;; put_seq c n 1 ;;;
             l0 <- gets levels ;;
             r <- sbtreePut c (Z.of_nat n + 1) ((Z.of_nat n + 1) * 10) ;;
             l1 <- gets levels ;;
             ret (l0, r, l1)) blank_state with
  | Some (x, _) => Some x
  | None => None
  end.

(** Puts and gets with 4 buffer pages: keys 1..200, flush, gets of keys 1
    and 100, keys 201..240, flush, get of key 230. *)
Definition evict_run : M unit :=
  sbtreeInit ;;; put_seq test_cfg 200 1 ;;; _ <- sbtreeFlush test_cfg 0 ;;
  _ <- sbtreeGet test_cfg 1 ;; _ <- sbtreeGet test_cfg 100 ;;
  put_seq test_cfg 40 201 ;;; _ <- sbtreeFlush test_cfg 0 ;;
  _ <- sbtreeGet test_cfg 230 ;; ret tt.

Definition run_state {A} (m : M A) (s : sbtreeState) : sbtreeState :=
  match run m s with
  | Some (_, s') => s'
  | None => blank_state
  end.

(** Whether the stored page [n] is an interior node. *)
Definition stored_interior (s : sbtreeState) (n : Z) : option bool :=
  option_map SBTREE_IS_INTERIOR (storage_read (store (buffer s)) n).

(** The test configuration with a pool of 2 buffer pages. *)
Definition cfg2 : config := sbtree_config 512 2 4 12.

(** No buffer slot is marked modified. *)
Definition clean (s : sbtreeState) : Prop :=
  forall j, modified (buffer s) j = NOT_MODIFIED_VAL.

(** The buffer invariant: every slot clean, round-robin cursor in range. *)
Definition buf_inv (c : config) (s : sbtreeState) : Prop :=
  clean s /\ 1 <= nextBufferPage (buffer s) <= numPages c.

(** What [sbtreeGet] leaves as it was: the write counters, the write
    buffer (slot 0), the active path, the storage and the height. *)
Definition get_frame (s s' : sbtreeState) : Prop :=
  nextPageWriteId (buffer s') = nextPageWriteId (buffer s) /\
  nextPageId (buffer s') = nextPageId (buffer s) /\
  numWrites (buffer s') = numWrites (buffer s) /\
  slots (buffer s') 0 = slots (buffer s) 0 /\
  activePath s' = activePath s /\
  store (buffer s') = store (buffer s) /\
  levels s' = levels s.

(** The states reachable through the interface, from any state through
    [sbtreeInit] and then any sequence of calls. *)
Inductive reachable (c : config) : sbtreeState -> Prop :=
| reach_init s s' : sbtreeInit s = Some (tt, s') -> reachable c s'
| reach_put s key data r s' :
    reachable c s -> sbtreePut c key data s = Some (r, s') -> reachable c s'
| reach_get s key r s' :
    reachable c s -> sbtreeGet c key s = Some (r, s') -> reachable c s'
| reach_flush s oob r s' :
    reachable c s -> sbtreeFlush c oob s = Some (r, s') -> reachable c s'
| reach_initIterator s it it' s' :
    reachable c s -> sbtreeInitIterator c it s = Some (it', s') -> reachable c s'
| reach_next s fuel it r s' :
    reachable c s -> sbtreeNext c fuel it s = Some (r, s') -> reachable c s'.

(** [sbtreeInit], the put of key 1, a flush. *)
Definition init_state : sbtreeState := run_state sbtreeInit blank_state.
Definition put1_state : sbtreeState := run_state (sbtreePut test_cfg 1 10) init_state.
Definition flush1_state : sbtreeState := run_state (sbtreeFlush test_cfg 0) put1_state.


(** ** The index built by [sbtreeUpdateIndex]

    The records that left the write buffer form a sorted list [G]; every
    node covers a slice [G[lo..hi)].  A node that will not change any more
    (a complete subtree) holds [maxInteriorRecordsPerPage + 1] children; the
    nodes of [activePath] hold the children completed so far, the last one
    of an interior level being the active node one level down. *)

Definition zlen {A} (l : list A) : Z := Z.of_nat (length l).
Definition rec_at (G : list (Z * Z)) (q : Z) : Z * Z := nth (Z.to_nat q) G (0, 0).

(** [s] is a separator at position [P] of [G]: the keys before [P] are
    below it, the keys from [P] on are not, and it is at most [sl], the
    bound of the keys to come. *)
Definition key_cut (G : list (Z * Z)) (sl P s : Z) : Prop :=
  0 <= s <= sl /\
  (forall q, 0 <= q < P -> fst (rec_at G q) < s) /\
  (forall q, P <= q < zlen G -> s <= fst (rec_at G q)).

Section Index.
Variable c : config.

(** A leaf holding [G[lo..hi)]. *)
Definition leaf_ok (G : list (Z * Z)) (pg : page) (lo hi : Z) : Prop :=
  pg_count pg = hi - lo /\ hi - lo <= maxRecordsPerPage c /\
  forall j, 0 <= j < hi - lo -> pg_recs pg j = rec_at G (lo + j).

(** [p] is the root of a complete subtree of height [h] at level [l]
    holding [G[lo..hi)]. *)
Fixpoint sub_ok (st : storage) (ap : Z -> Z) (G : list (Z * Z)) (sl l : Z) (h : nat)
    (p lo hi : Z) : Prop :=
  1 <= p /\ lo < hi /\ exists pg, storage_read st p = Some pg /\
  match h with
  | O => leaf_ok G pg lo hi
  | S h' =>
      p <> ap l /\ SBTREE_IS_INTERIOR pg = true /\
      SBTREE_GET_COUNT pg = (match h' with
                             | O => maxInteriorRecordsPerPage c + 1
                             | S _ => maxInteriorRecordsPerPage c
                             end) /\
      exists cut : Z -> Z, cut 0 = lo /\ cut (maxInteriorRecordsPerPage c + 1) = hi /\
        (forall j, 0 <= j <= maxInteriorRecordsPerPage c ->
           sub_ok st ap G sl (l + 1) h' (pg_ptrs pg j) (cut j) (cut (j + 1))) /\
        (forall j, 0 <= j < maxInteriorRecordsPerPage c ->
           key_cut G sl (cut (j + 1)) (pg_keys pg j))
  end.

(** The active node of an interior level [l < L-1]: its completed children
    hold [G[lo..P)], the active child the records from [P] on. *)
Definition upper_node (st : storage) (ap : Z -> Z) (G : list (Z * Z)) (sl L l : Z)
    (pg : page) (lo P : Z) : Prop :=
  SBTREE_IS_INTERIOR pg = true /\
  0 <= SBTREE_GET_COUNT pg <= maxInteriorRecordsPerPage c /\
  exists cut : Z -> Z, cut 0 = lo /\ cut (SBTREE_GET_COUNT pg) = P /\
    (forall j, 0 <= j < SBTREE_GET_COUNT pg ->
       sub_ok st ap G sl (l + 1) (Z.to_nat (L - 1 - l)) (pg_ptrs pg j) (cut j) (cut (j + 1))) /\
    (forall j, 0 <= j < SBTREE_GET_COUNT pg -> key_cut G sl (cut (j + 1)) (pg_keys pg j)).

(** The active node of the lowest interior level, holding [G[lo..hi)] in
    its leaves. *)
Definition bottom_node (st : storage) (ap : Z -> Z) (G : list (Z * Z)) (sl L : Z)
    (pg : page) (lo hi : Z) : Prop :=
  SBTREE_IS_INTERIOR pg = true /\
  0 <= SBTREE_GET_COUNT pg <= maxInteriorRecordsPerPage c + 1 /\
  (forall j, SBTREE_GET_COUNT pg <= j -> pg_ptrs pg j = 0) /\
  exists cut : Z -> Z, cut 0 = lo /\ cut (SBTREE_GET_COUNT pg) = hi /\
    (forall j, 0 <= j < SBTREE_GET_COUNT pg ->
       sub_ok st ap G sl L 0 (pg_ptrs pg j) (cut j) (cut (j + 1))) /\
    (forall j, 0 <= j < Z.min (SBTREE_GET_COUNT pg) (maxInteriorRecordsPerPage c) ->
       key_cut G sl (cut (j + 1)) (pg_keys pg j)).

(** The nodes of the active path, level [l] starting at [los l], the
    lowest one ending at [hi]; their raw counts carry the interior or root
    flag and no other. *)
Definition spine_at (st : storage) (ap : Z -> Z) (G : list (Z * Z)) (sl L hi : Z) : Prop :=
  exists los : Z -> Z, los 0 = 0 /\
  (forall l, 0 <= l < L - 1 -> exists pg, storage_read st (ap l) = Some pg /\
     upper_node st ap G sl L l pg (los l) (los (l + 1))) /\
  (exists pg, storage_read st (ap (L - 1)) = Some pg /\
     bottom_node st ap G sl L pg (los (L - 1)) hi /\
     (1 <= ap (L - 1) \/ SBTREE_GET_COUNT pg = 0)) /\
  (1 < L -> exists pg, storage_read st (ap 0) = Some pg /\ 1 <= SBTREE_GET_COUNT pg) /\
  (forall l, 0 <= l <= L - 1 -> exists pg, storage_read st (ap l) = Some pg /\
     10000 <= pg_count pg <= 29999).

Definition spine_ok (st : storage) (ap : Z -> Z) (G : list (Z * Z)) (sl L : Z) : Prop :=
  spine_at st ap G sl L (zlen G).

(** The buffer slots [1 .. numPages-1] hold the stored page they name, and
    no page is held twice. *)
Definition coherent (s : sbtreeState) : Prop :=
  (forall i, 1 <= i <= numPages c - 1 -> status (buffer s) i <> BUFFER_EMPTY_ID ->
     storage_read (store (buffer s)) (status (buffer s) i) = Some (slots (buffer s) i)) /\
  (forall i j, 1 <= i <= numPages c - 1 -> 1 <= j <= numPages c - 1 -> i <> j ->
     status (buffer s) i = status (buffer s) j -> status (buffer s) i = BUFFER_EMPTY_ID).

(** A state whose storage, active path and height are [st], [ap] and [L],
    with the buffer invariants. *)
Definition at_tree (st : storage) (ap : Z -> Z) (L : Z) (s : sbtreeState) : Prop :=
  store (buffer s) = st /\ activePath s = ap /\ levels s = L /\ buf_inv c s /\ coherent s.

(** Keys strictly increasing, and below [2^31 - 1]. *)
Definition sorted_keys (G : list (Z * Z)) : Prop :=
  (forall i j, 0 <= i < j -> j < zlen G -> fst (rec_at G i) < fst (rec_at G j)) /\
  (forall q, 0 <= q < zlen G -> 0 <= fst (rec_at G q) < 2 ^ 31 - 1).

(** The whole invariant: [G] in the index, [W] in the write buffer, [sl]
    the last separator. *)
Definition tree_inv (s : sbtreeState) (G W : list (Z * Z)) (sl : Z) : Prop :=
  buf_inv c s /\ coherent s /\
  1 <= nextPageWriteId (buffer s) <= BUFFER_EMPTY_ID /\
  (forall q, nextPageWriteId (buffer s) <= q -> storage_read (store (buffer s)) q = None) /\
  1 <= levels s /\ 2 ^ (levels s - 1) <= Z.max 1 (zlen G) /\
  spine_ok (store (buffer s)) (activePath s) G sl (levels s) /\
  leaf_ok W (slots (buffer s) 0) 0 (zlen W) /\
  sorted_keys (G ++ W) /\ 0 <= sl <= 2 ^ 31 - 1 /\
  (forall q, 0 <= q < zlen G -> fst (rec_at G q) < sl) /\
  (forall q, 0 <= q < zlen W -> sl <= fst (rec_at W q)).

End Index.

(** No page is stored at or past the next write position. *)
Definition fresh (s : sbtreeState) : Prop :=
  forall q, nextPageWriteId (buffer s) <= q -> storage_read (store (buffer s)) q = None.

(** What an index update may change: slot 0, the write counters, and the
    storage, which only receives pages at new positions. *)
Definition upd_frame (s s' : sbtreeState) : Prop :=
  (forall i, i <> 0 -> status (buffer s') i = status (buffer s) i /\
                      slots (buffer s') i = slots (buffer s) i) /\
  (clean s -> clean s') /\
  nextBufferPage (buffer s') = nextBufferPage (buffer s) /\
  nextPageWriteId (buffer s) <= nextPageWriteId (buffer s') /\
  exists ws, store (buffer s') = ws ++ store (buffer s) /\
    Forall (fun e => nextPageWriteId (buffer s) <= fst e < nextPageWriteId (buffer s')) ws.

(** A step that only replaces the page in slot 0 by [pg]. *)
Definition slot0_step (s s' : sbtreeState) (pg : page) : Prop :=
  slots (buffer s') 0 = pg /\ upd_frame s s' /\ store (buffer s') = store (buffer s) /\
  nextPageWriteId (buffer s') = nextPageWriteId (buffer s) /\
  activePath s' = activePath s /\ levels s' = levels s.

(** A step that writes slot 0 out at the next write position. *)
Definition write_step (s s' : sbtreeState) : Prop :=
  slots (buffer s') 0 = set_pg_id (slots (buffer s) 0) (nextPageId (buffer s)) /\
  upd_frame s s' /\
  store (buffer s') = (nextPageWriteId (buffer s), slots (buffer s') 0) :: store (buffer s) /\
  nextPageWriteId (buffer s') = nextPageWriteId (buffer s) + 1 /\
  activePath s' = activePath s /\ levels s' = levels s.

(** The raw count of an active node: the interior or root flag plus the
    number of children. *)
Definition raw_ok (pg : page) : Prop := 10000 <= pg_count pg <= 29999.

(** ** The loop of [sbtreeUpdateIndex]

    [G] is the index once the new leaf [x], holding [G[n..n')], is in;
    [sl] the new separator; [ap1] and [los] the active path and its starts
    before the update. *)
Section UpdateInv.
Variable c : config.
Variables (G : list (Z * Z)) (sl L n n' x : Z) (ap1 los : Z -> Z).

(** Levels [k .. L-1], renewed by the update: empty interior nodes and a
    lowest node holding the new leaf. *)
Definition low_spine (st : storage) (ap : Z -> Z) (k : Z) : Prop :=
  (forall j, k <= j < L - 1 -> exists pg, storage_read st (ap j) = Some pg /\
     upper_node c st ap G sl L j pg n n /\ raw_ok pg) /\
  (exists pg, storage_read st (ap (L - 1)) = Some pg /\
     bottom_node c st ap G sl L pg n n' /\ 1 <= ap (L - 1) /\ raw_ok pg).

(** Levels [0 .. l], not reached yet. *)
Definition high_spine (st : storage) (ap : Z -> Z) (l : Z) : Prop :=
  (forall j, 0 <= j <= l -> ap j = ap1 j) /\
  (forall j, 0 <= j < l -> exists pg, storage_read st (ap1 j) = Some pg /\
     upper_node c st ap G sl L j pg (los j) (los (j + 1)) /\ raw_ok pg) /\
  (0 <= l -> exists pg, storage_read st (ap1 l) = Some pg /\ raw_ok pg /\
     (l < L - 1 -> upper_node c st ap G sl L l pg (los l) (los (l + 1))) /\
     (l = L - 1 -> bottom_node c st ap G sl L pg (los l) n /\
                   (1 <= ap1 l \/ SBTREE_GET_COUNT pg = 0))) /\
  (1 < L -> 0 <= l -> exists pg, storage_read st (ap1 0) = Some pg /\ 1 <= SBTREE_GET_COUNT pg).

(** The state at level [l] of the loop, with its locals [prevPageNum] and
    [pageNum]. *)
Definition loop_inv (l prev pn : Z) (s : sbtreeState) : Prop :=
  levels s = L /\ buf_inv c s /\ coherent c s /\ fresh s /\ 1 <= nextPageWriteId (buffer s) /\
  nextPageWriteId (buffer s) + 2 * l + 3 <= BUFFER_EMPTY_ID /\
  high_spine (store (buffer s)) (activePath s) l /\
  (l = L - 1 -> prev = ID_NONE /\ pn = x /\
     exists lp, storage_read (store (buffer s)) x = Some lp /\ leaf_ok c G lp n n') /\
  (l < L - 1 ->
     sub_ok c (store (buffer s)) (activePath s) G sl (l + 1) (Z.to_nat (L - 1 - l)) prev
       (los (l + 1)) n /\
     pn = activePath s (l + 1) /\ low_spine (store (buffer s)) (activePath s) (l + 1)).

(** The end of the loop: either it stopped at a level with room and the
    path is complete, or every level was full and [prev] is the old tree. *)
Definition loop_out (l : Z) (s : sbtreeState) (r : Z * Z) (s' : sbtreeState) : Prop :=
  upd_frame s s' /\ levels s' = L /\
  nextPageWriteId (buffer s') <= nextPageWriteId (buffer s) + 2 * (l + 1) /\
  ((0 <= fst r /\ spine_at c (store (buffer s')) (activePath s') G sl L n') \/
   (fst r = -1 /\
    sub_ok c (store (buffer s')) (activePath s') G sl 0 (Z.to_nat L) (snd r) 0 n /\
    low_spine (store (buffer s')) (activePath s') 0)).

End UpdateInv.

(** A sequence of calls to [sbtreePut] and [sbtreeFlush]. *)

Inductive op : Type :=
| op_put (key data : Z)
| op_flush.

Fixpoint run_ops (c : config) (ops : list op) : M unit :=
  match ops with
  | [] => ret tt
  | op_put k d :: r => _ <- sbtreePut c k d ;; run_ops c r
  | op_flush :: r => _ <- sbtreeFlush c 0 ;; run_ops c r
  end.

Fixpoint put_records (ops : list op) : list (Z * Z) :=
  match ops with
  | [] => []
  | op_put k d :: r => (k, d) :: put_records r
  | op_flush :: r => put_records r
  end.

Fixpoint ops_ok (lo : Z) (after_put : bool) (ops : list op) : bool :=
  match ops with
  | [] => true
  | op_put k _ :: r => (lo <=? k) && (k <? 2 ^ 31 - 1) && ops_ok (k + 1) true r
  | op_flush :: r => after_put && ops_ok lo false r
  end.

(** ** Further functions of dbbuffer.c and sbtree.c *)

Section ClearModified.
Variable c : config.

(** The loop of [dbbufferClearModified]: [for (uint8_t i=0; i < numPages; i++)].
    The counter is 8 bits wide and wraps from 255 to 0.  Each pass without
    a match only moves [i] to [u8 (i + 1)], so after 256 passes the loop is
    back where it started and never leaves; the fuel of [dbbufferClearModified]
    covers these 256 passes, and running out of it stands for the loop not
    returning. *)
Fixpoint clearModified_loop (fuel : nat) (i pageNum : Z) : M unit :=
  match fuel with
  | O => diverge
  | S f =>
      if i <? numPages c then
        st <- gets (fun s => status (buffer s) i) ;;
        if st =? pageNum then
          modify_buf (fun b => set_status b (upd (status b) i BUFFER_EMPTY_ID)) ;;;
          modify_buf (fun b => set_modified b (upd (modified b) i NOT_MODIFIED_VAL))
        else clearModified_loop f (u8 (i + 1)) pageNum
      else ret tt
  end.

(** [dbbufferClearModified]: empty the first slot holding [pageNum]. *)
Definition dbbufferClearModified (pageNum : Z) : M unit :=
  clearModified_loop 256 0 pageNum.

(** [dbbufferClearStats] *)
Definition dbbufferClearStats : M unit :=
  modify_buf (fun b => set_bufferHits (set_numWrites (set_numReads b 0) 0) 0).

End ClearModified.

(** [sbtreeGetMinKey] and [sbtreeGetMaxKey]: the byte offset, in the page,
    of the key they return a pointer to. *)
Definition sbtreeGetMinKey (c : config) (buf : page) : Z := headerSize c.

Definition sbtreeGetMaxKey (c : config) (buf : page) : Z :=
  let count := s16 (SBTREE_GET_COUNT buf) in
  let count := if count =? 0 then 1 else count in
  headerSize c + (count - 1) * recordSize c.

(** The state with the three statistics counters of the buffer at 0, as
    [dbbufferClearStats] leaves it. *)
Definition stats_cleared (s : sbtreeState) : sbtreeState :=
  set_buffer s (set_bufferHits (set_numWrites (set_numReads (buffer s) 0) 0) 0).

(** Two states that differ at most in [numReads], [numWrites] and [bufferHits]. *)
Definition same_but_stats (s t : sbtreeState) : Prop := stats_cleared s = stats_cleared t.

(** Two outcomes of a call: both return the same value, in states that
    differ at most in the statistics, or neither returns. *)
Definition run_rel {A} (r1 r2 : option (A * sbtreeState)) : Prop :=
  match r1, r2 with
  | Some (x, s), Some (y, t) => x = y /\ same_but_stats s t
  | None, None => True
  | _, _ => False
  end.

(** A call that does not depend on the statistics counters: from two states
    that differ at most there, it has related outcomes. *)
Definition blind {A} (m : M A) : Prop :=
  forall s t, same_but_stats s t -> run_rel (m s) (m t).

(** A buffer whose slot 2 holds physical page 7. *)
Definition hit_state : sbtreeState :=
  set_buffer blank_state (set_status (buffer blank_state) (fun j => if j =? 2 then 7 else 0)).

(** A buffer whose slot 2 is marked modified (at level 1). *)
Definition dirty_state : sbtreeState :=
  set_buffer blank_state (set_modified (buffer blank_state) (fun j => if j =? 2 then 1 else NOT_MODIFIED_VAL)).

(** A configuration with 3 buffer pages. *)
Definition cfg3 : config := sbtree_config 512 3 4 12.

(** A call that leaves [levels] as it was. *)
Definition stays {A} (m : M A) : Prop :=
  forall s x s', m s = Some (x, s') -> levels s' = levels s.

(** A call that leaves [levels] as it was or adds one to it (as [uint8_t]). *)
Definition grows {A} (m : M A) : Prop :=
  forall s x s', m s = Some (x, s') -> levels s' = levels s \/ levels s' = u8 (levels s + 1).

(** * Theorems *)

(** ** C3 *)

(** C3: [getChildPageId] returns [activePath[level+1]] when [childIdx] is the
    node's count, [level < levels-1] and the node is [activePath[level]];
    otherwise the stored child pointer, except -1 when that pointer is 0 and
    [childIdx] is the trailing (count-th) slot. *)
Theorem getChildPageId_remap (s : sbtreeState) (buf : page) (nodeId level childIdx : Z) :
  (childIdx = SBTREE_GET_COUNT buf -> level < levels s - 1 -> nodeId = activePath s level ->
   getChildPageId s buf nodeId level childIdx = activePath s (level + 1)) /\
  (~ (childIdx = SBTREE_GET_COUNT buf /\ level < levels s - 1 /\ nodeId = activePath s level) ->
   (pg_ptrs buf childIdx = 0 /\ childIdx = SBTREE_GET_COUNT buf ->
    getChildPageId s buf nodeId level childIdx = ID_NONE) /\
   (~ (pg_ptrs buf childIdx = 0 /\ childIdx = SBTREE_GET_COUNT buf) ->
    getChildPageId s buf nodeId level childIdx = pg_ptrs buf childIdx)).
Proof.
  unfold getChildPageId; split.
  - intros -> Hl ->. rewrite Z.eqb_refl, Z.eqb_refl. simpl.
    destruct (Z.ltb_spec level (levels s - 1)); [reflexivity | lia].
  - intros Hn.
    assert (Hb : (childIdx =? SBTREE_GET_COUNT buf) && (level <? levels s - 1)
                 && (nodeId =? activePath s level) = false).
    { destruct (Z.eqb_spec childIdx (SBTREE_GET_COUNT buf)),
        (Z.ltb_spec level (levels s - 1)), (Z.eqb_spec nodeId (activePath s level));
        simpl; auto; exfalso; apply Hn; auto. }
    rewrite Hb. split.
    + intros [H1 H2]. rewrite H1, H2, !Z.eqb_refl. reflexivity.
    + intros Hp. destruct (Z.eqb_spec (pg_ptrs buf childIdx) 0),
        (Z.eqb_spec childIdx (SBTREE_GET_COUNT buf)); simpl; try reflexivity.
      exfalso; tauto.
Qed.

(** ** C8 *)

Lemma signed32_small (x : Z) : - 2 ^ 31 <= x < 2 ^ 31 -> s32 x = x.
Proof.
  intros Hx. unfold s32, signed. replace (32 - 1) with 31 by reflexivity.
  destruct (Z_lt_le_dec x 0).
  - replace (x mod 2 ^ 32) with (x + 2 ^ 32).
    + destruct (Z.geb_spec (x + 2 ^ 32) (2 ^ 31)); lia.
    + symmetry. rewrite <- (Z.mod_small (x + 2 ^ 32) (2 ^ 32)) by lia.
      replace (x + 2 ^ 32) with (x + 1 * 2 ^ 32) by lia. rewrite Z.mod_add by lia. reflexivity.
  - rewrite Z.mod_small by lia. destruct (Z.geb_spec x (2 ^ 31)); lia.
Qed.

(** C8: the comparator installed by [sbtreeInit] orders keys by the wrapped
    signed difference: the unsigned keys 0 < 2^31 + 1 compare as 0 > 2^31+1,
    while keys below 2^31 compare by their value. *)
Theorem uint32Compare_not_unsigned :
  (exists a b, (0 <= a /\ a < b /\ b < 2 ^ 32) /\ (b >= 2 ^ 31 /\ b - a > 2 ^ 31) /\
               uint32Compare a b = 1) /\
  (forall a b, 0 <= a < 2 ^ 31 -> 0 <= b < 2 ^ 31 ->
               uint32Compare a b = Z.sgn (a - b)).
Proof.
  split.
  - exists 0, (2 ^ 31 + 1). split; [lia | split; [lia | reflexivity]].
  - intros a b Ha Hb. unfold uint32Compare.
    rewrite (signed32_small a), (signed32_small b), (signed32_small (a - b)) by lia.
    destruct (Z.ltb_spec (a - b) 0); [rewrite Z.sgn_neg by lia; reflexivity|].
    destruct (Z.gtb_spec (a - b) 0); [rewrite Z.sgn_pos by lia; reflexivity|].
    replace (a - b) with 0 by lia. reflexivity.
Qed.

(** ** C10 *)

(** C10: the record read by [sbtreeFlush] at index [count-1] lies in the
    record area exactly when the write buffer holds a record; with
    [count = 0] the offset is [headerSize - recordSize], before the record
    area. *)
Theorem flush_maxkey_offset_in_area (c : config) (count : Z) :
  1 <= keySize c <= recordSize c -> 0 <= count <= maxRecordsPerPage c ->
  (in_record_area c (flush_maxkey_offset c count) <-> 1 <= count) /\
  (count = 0 -> flush_maxkey_offset c count = headerSize c - recordSize c /\
                flush_maxkey_offset c count < headerSize c).
Proof.
  intros Hk Hc. unfold in_record_area, flush_maxkey_offset. split.
  - split.
    + intros [H1 _]. nia.
    + intros H1. split; nia.
  - intros ->. split; lia.
Qed.

Lemma flush_maxkey_offset_in_area_witness :
  (1 <= keySize test_cfg <= recordSize test_cfg /\ 0 <= 0 <= maxRecordsPerPage test_cfg) /\
  ((in_record_area test_cfg (flush_maxkey_offset test_cfg 0) <-> 1 <= 0) /\
   (0 = 0 -> flush_maxkey_offset test_cfg 0 = headerSize test_cfg - recordSize test_cfg /\
             flush_maxkey_offset test_cfg 0 < headerSize test_cfg)).
Proof.
  assert (H : 1 <= keySize test_cfg <= recordSize test_cfg /\ 0 <= 0 <= maxRecordsPerPage test_cfg)
    by (vm_compute; split; [split|split]; discriminate).
  split; [exact H | apply (flush_maxkey_offset_in_area test_cfg 0); apply H].
Defined.

(** ** C1 *)


(** ** C2 *)

(** C2 (code bug): with 2048-byte pages, after the puts of keys 1..16500 and
    a flush the root has 130 children; [sbtreeNext] reads the count into an
    [int8_t] (130 becomes -126), so an iteration over [1, 16500] stops after
    the first leaf: 127 records, keys 1..127.  Every key is still found by
    [sbtreeGet]. *)
Theorem range_iteration_truncated_2k :
  (levels (loaded page2k_cfg (Z.to_nat 16500)) = 1) /\
  (SBTREE_GET_COUNT (root_page (loaded page2k_cfg (Z.to_nat 16500))) = 130) /\
  (option_map (fun l => (length l, hd (0, 0) l, last l (0, 0)))
     (range_result page2k_cfg (Z.to_nat 16500) 1 16500 (Z.to_nat 20000))
   = Some (127%nat, (1, 10), (127, 1270))) /\
  (get_result page2k_cfg (Z.to_nat 16500) 128 = Some (0, Some 1280)) /\
  (get_result page2k_cfg (Z.to_nat 16500) 16500 = Some (0, Some 165000)).
Proof. vm_compute. repeat split; reflexivity. Qed.

(** ** C6 *)

Lemma writePage_step (i : Z) (s : sbtreeState) :
  exists s', writePage i s = Some (s32 (nextPageWriteId (buffer s)), s') /\
    nextPageWriteId (buffer s') = u32 (nextPageWriteId (buffer s) + 1) /\
    written s' = u32 (nextPageWriteId (buffer s)) :: written s.
Proof. eexists. split; [reflexivity | split; reflexivity]. Qed.

Lemma map_from_to_u32 (f : Z -> Z) (Hf : forall x, f (u32 x) = f x) (x : Z) (n : nat) :
  map f (from_to (u32 x) n) = map f (from_to x n).
Proof.
  revert x; induction n as [|n IH]; intros x; [reflexivity |].
  cbn [from_to map]. rewrite Hf. f_equal.
  assert (E : u32 (u32 x + 1) = u32 (x + 1))
    by (unfold u32; apply Z.add_mod_idemp_l; lia).
  rewrite <- (IH (u32 x + 1)), E, IH. reflexivity.
Qed.

Lemma u32_u32 (x : Z) : u32 (u32 x) = u32 x.
Proof. unfold u32. apply Z.mod_mod. lia. Qed.

Lemma s32_u32 (x : Z) : s32 (u32 x) = s32 x.
Proof. unfold s32, signed, u32. rewrite Z.mod_mod by lia. reflexivity. Qed.

Lemma write_seq_run (i : Z) (n : nat) : forall s, exists s',
  write_seq n i s = Some (map s32 (from_to (nextPageWriteId (buffer s)) n), s') /\
  written s' = rev (map u32 (from_to (nextPageWriteId (buffer s)) n)) ++ written s.
Proof.
  induction n as [|n IH]; intros s.
  - exists s. split; reflexivity.
  - destruct (writePage_step i s) as (s1 & Hw & Hn & Hwr).
    destruct (IH s1) as (s' & Hr & Hwr').
    exists s'. split.
    + cbn [write_seq]. unfold bind. rewrite Hw. rewrite Hr. cbn [from_to map].
      rewrite Hn, (map_from_to_u32 s32 s32_u32). reflexivity.
    + rewrite Hwr', Hn, (map_from_to_u32 u32 u32_u32), Hwr.
      cbn [from_to map rev]. rewrite <- app_assoc. reflexivity.
Qed.

Lemma length_from_to (w : Z) (n : nat) : length (from_to w n) = n.
Proof. revert w; induction n; intros w; simpl; [reflexivity | now rewrite IHn]. Qed.

Lemma nth_error_from_to (w : Z) (n k : nat) :
  (k < n)%nat -> nth_error (from_to w n) k = Some (w + Z.of_nat k).
Proof.
  revert w k; induction n as [|n IH]; intros w k Hk; [lia |].
  destruct k as [|k]; cbn [from_to nth_error].
  - f_equal. lia.
  - rewrite IH by lia. f_equal. lia.
Qed.

Lemma map_from_to_id (f : Z -> Z) (w : Z) (n : nat) :
  (forall k, (k < n)%nat -> f (w + Z.of_nat k) = w + Z.of_nat k) ->
  map f (from_to w n) = from_to w n.
Proof.
  revert w; induction n as [|n IH]; intros w Hf; [reflexivity |].
  cbn [from_to map]. f_equal.
  - specialize (Hf 0%nat ltac:(lia)). rewrite Z.add_0_r in Hf. exact Hf.
  - apply IH. intros k Hk. specialize (Hf (S k) ltac:(lia)).
    rewrite Nat2Z.inj_succ in Hf. replace (w + 1 + Z.of_nat k) with (w + Z.succ (Z.of_nat k)) by lia.
    exact Hf.
Qed.

Lemma from_to_NoDup (w : Z) (n : nat) : NoDup (from_to w n).
Proof.
  apply NoDup_nth_error. intros a b Ha Hab.
  rewrite length_from_to in Ha.
  destruct (Nat.lt_ge_cases b n) as [Hb | Hb].
  - rewrite !nth_error_from_to in Hab by assumption. injection Hab. lia.
  - rewrite (nth_error_from_to w n a Ha) in Hab.
    rewrite (proj2 (nth_error_None (from_to w n) b)) in Hab by (rewrite length_from_to; exact Hb).
    discriminate.
Qed.

(** C6 (amended): starting from an initialized buffer, [n] successive
    [writePage] calls return [0, 1, ..., n-1] as long as [n <= 2^31] (the
    result is an [int32_t]), and write the physical pages [0, 1, ..., n-1],
    each once, as long as [n <= 2^32] ([nextPageWriteId] is 32 bits wide). *)
Theorem writePage_sequence (s : sbtreeState) (i : Z) (n : nat) :
  exists s' rs, write_seq n i (buffer_initialized s) = Some (rs, s') /\
  (Z.of_nat n <= 2 ^ 31 -> rs = from_to 0 n) /\
  (Z.of_nat n <= 2 ^ 32 ->
     written s' = rev (from_to 0 n) ++ written s /\ NoDup (rev (from_to 0 n))).
Proof.
  destruct (write_seq_run i n (buffer_initialized s)) as (s' & Hr & Hw).
  exists s', (map s32 (from_to 0 n)). split; [exact Hr |]. split.
  - intros Hn. apply map_from_to_id. intros k Hk.
    apply signed32_small. lia.
  - intros Hn. split.
    + rewrite Hw. cbn [buffer_initialized set_buffer buffer dbbufferInit nextPageWriteId].
      rewrite map_from_to_id; [reflexivity |].
      intros k Hk. unfold u32. apply Z.mod_small. lia.
    + apply NoDup_rev, from_to_NoDup.
Qed.

(** C6 (counterexample): from an initialized buffer, the write number 2^31
    (counting from 0) returns -2^31, and after 2^32 + 1 writes the physical
    page 0 has been written twice. *)
Lemma writePage_sequence_counterexample :
  exists s' rs,
    write_seq (Z.to_nat (2 ^ 32 + 1)) 0 (buffer_initialized blank_state) = Some (rs, s') /\
    nth_error rs (Z.to_nat (2 ^ 31)) = Some (- 2 ^ 31) /\
    ~ NoDup (written s').
Proof.
  destruct (write_seq_run 0 (Z.to_nat (2 ^ 32 + 1)) (buffer_initialized blank_state))
    as (s' & Hr & Hw).
  exists s', (map s32 (from_to 0 (Z.to_nat (2 ^ 32 + 1)))).
  cbn [buffer_initialized set_buffer buffer dbbufferInit nextPageWriteId] in Hr, Hw.
  split; [exact Hr |]. split.
  - rewrite nth_error_map, nth_error_from_to by (apply Z2Nat.inj_lt; lia).
    rewrite Z2Nat.id by lia. reflexivity.
  - rewrite Hw. intros Hnd.
    apply NoDup_rev in Hnd. rewrite rev_app_distr, rev_involutive in Hnd.
    change (rev (written (buffer_initialized blank_state))) with (@nil Z) in Hnd.
    rewrite app_nil_l in Hnd.
    rewrite NoDup_nth_error in Hnd.
    assert (Hlt : (Z.to_nat (2 ^ 32) < Z.to_nat (2 ^ 32 + 1))%nat)
      by (apply Z2Nat.inj_lt; lia).
    assert (H0 : (0 < Z.to_nat (2 ^ 32 + 1))%nat) by lia.
    specialize (Hnd 0%nat (Z.to_nat (2 ^ 32))).
    rewrite length_map, length_from_to, !nth_error_map, !nth_error_from_to in Hnd
      by assumption.
    rewrite Z2Nat.id in Hnd by lia.
    assert (Z.to_nat (2 ^ 32) <> 0%nat) by lia.
    apply H, eq_sym, Hnd; [exact H0 | reflexivity].
Qed.

(** ** Pages written by the tree operations *)

Lemma advance_trans (s1 s2 s3 : sbtreeState) (k1 k2 : nat) :
  advance s1 s2 k1 -> advance s2 s3 k2 -> advance s1 s3 (k1 + k2).
Proof.
  unfold advance.
  intros [(-> & A1 & B1) | (K1 & A1 & B1)] [(-> & A2 & B2) | (K2 & A2 & B2)].
  - left. rewrite A2, B2. auto.
  - right. rewrite A2, B2, A1, B1. auto.
  - right. rewrite A2, B2, A1, B1, Nat.add_0_r. auto.
  - right. rewrite A2, B2, A1, B1. unfold u32. rewrite !Z.add_mod_idemp_l by lia.
    rewrite Nat2Z.inj_add, !Z.add_assoc. split; [lia | auto].
Qed.

Lemma wp_bind {A B} (lo1 lo2 : nat) (P : A -> Prop) (Q : B -> Prop) (m : M A) (k : A -> M B) :
  writes_pages lo1 P m -> (forall x, P x -> writes_pages lo2 Q (k x)) ->
  writes_pages (lo1 + lo2) Q (bind m k).
Proof.
  intros Hm Hk s.
  destruct (Hm s) as (x & s1 & n1 & E1 & P1 & L1 & W1 & A1).
  destruct (Hk x P1 s1) as (y & s2 & n2 & E2 & Q2 & L2 & W2 & A2).
  exists y, s2, (n2 ++ n1). unfold bind. rewrite E1. split; [exact E2 |].
  split; [exact Q2 |]. rewrite length_app. split; [lia |]. split.
  - rewrite W2, W1, app_assoc. reflexivity.
  - rewrite Nat.add_comm. exact (advance_trans _ _ _ _ _ A1 A2).
Qed.

Lemma wp_bind0 {A B} (Q : B -> Prop) (m : M A) (k : A -> M B) :
  writes_pages 0 (fun _ => True) m -> (forall x, writes_pages 0 Q (k x)) ->
  writes_pages 0 Q (bind m k).
Proof. intros Hm Hk. apply (wp_bind 0 0 (fun _ => True)); auto. Qed.

Lemma wp_ret {A} (Q : A -> Prop) (x : A) : Q x -> writes_pages 0 Q (ret x).
Proof. intros HQ s. exists x, s, []. unfold advance. repeat split; auto. Qed.

Lemma wp_gets {A} (f : sbtreeState -> A) : writes_pages 0 (fun _ => True) (gets f).
Proof. intros s. exists (f s), s, []. unfold advance. repeat split; auto. Qed.

Lemma wp_modify (f : sbtreeState -> sbtreeState) :
  (forall s, written (f s) = written s /\
     nextPageWriteId (buffer (f s)) = nextPageWriteId (buffer s) /\
     numWrites (buffer (f s)) = numWrites (buffer s)) ->
  writes_pages 0 (fun _ => True) (modify f).
Proof.
  intros Hf s. destruct (Hf s) as (W & A & B). exists tt, (f s), [].
  unfold advance. repeat split; auto.
Qed.

Lemma wp_writePage (i : Z) : writes_pages 1 (fun _ => True) (writePage i).
Proof.
  intros s. eexists _, _, [u32 (nextPageWriteId (buffer s))].
  split; [reflexivity |]. split; [exact I |]. split; [simpl; lia |].
  split; [reflexivity |]. right. split; [simpl; lia | split; reflexivity].
Qed.

Lemma wp_writePage0 (i : Z) : writes_pages 0 (fun _ => True) (writePage i).
Proof.
  intros s. destruct (wp_writePage i s) as (x & s' & new & H). exists x, s', new.
  intuition lia.
Qed.

Ltac unfold_buffer_ops :=
  unfold update_slot, put_slot, slot, set_ap, get_ap, initBufferPage, readPageBuffer,
    modify_buf.

Ltac wp_auto_with hook :=
  repeat (cbv zeta; try unfold_buffer_ops; first [hook | match goal with
  | |- writes_pages 0 _ (bind _ _) => apply wp_bind0; [| intros ?]
  | |- writes_pages 0 (fun _ => True) (ret _) => apply wp_ret; exact I
  | |- writes_pages 0 _ (gets _) => apply wp_gets
  | |- writes_pages 0 _ (modify _) =>
      apply wp_modify; intros ?; split; [reflexivity | split; reflexivity]
  | |- writes_pages 0 _ (writePage _) => apply wp_writePage0
  | |- writes_pages 0 _ (if ?b then _ else _) => destruct b
  | |- writes_pages 0 _ (match ?x with _ => _ end) => destruct x
  end]).

Ltac wp_auto := wp_auto_with fail.

Lemma wp_updateIndex_loop (c : config) (fuel : nat) :
  forall minkey key l prevPageNum pageNum,
  writes_pages 0 (fun _ => True) (updateIndex_loop c fuel minkey key l prevPageNum pageNum).
Proof.
  induction fuel as [|fuel IH]; intros minkey key l prevPageNum pageNum;
    cbn [updateIndex_loop]; unfold_buffer_ops; wp_auto; try apply IH.
Qed.

Lemma wp_shift_activePath (n : nat) :
  forall l, writes_pages 0 (fun _ => True) (shift_activePath n l).
Proof.
  induction n as [|n IH]; intros l; cbn [shift_activePath]; wp_auto; try apply IH.
Qed.

Lemma wp_sbtreeUpdateIndex (c : config) (minkey key pageNum : Z) :
  writes_pages 0 (fun r => r = 0) (sbtreeUpdateIndex c minkey key pageNum).
Proof.
  unfold sbtreeUpdateIndex. wp_auto;
    first [apply wp_updateIndex_loop | apply wp_shift_activePath | apply wp_ret; reflexivity].
Qed.

Ltac wp_ui := idtac;
  match goal with
  | |- writes_pages 0 _ (bind (sbtreeUpdateIndex _ _ _ _) _) =>
      apply (wp_bind 0 0 (fun e => e = 0)); [apply wp_sbtreeUpdateIndex | intros ? ->; change (negb (0 =? 0)) with false]
  end.

Lemma wp_sbtreeFlush (c : config) (oob : Z) :
  writes_pages 1 (fun _ => True) (sbtreeFlush c oob).
Proof.
  unfold sbtreeFlush. apply (wp_bind 1 0 (fun _ => True)); [apply wp_writePage |].
  intros pageNum _. wp_auto_with wp_ui.
Qed.

Lemma wp_sbtreePut (c : config) (key data : Z) :
  writes_pages 0 (fun r => r = 0) (sbtreePut c key data).
Proof.
  unfold sbtreePut. apply wp_bind0; [wp_auto |]. intros wb.
  apply (wp_bind 0 0 (fun st => match st with inl e => e = 0 | inr _ => True end)).
  - cbv zeta. destruct (_ >=? _).
    + wp_auto_with wp_ui. apply wp_ret. exact I.
    + apply wp_ret. exact I.
  - intros [e | count] He.
    + apply wp_ret. exact He.
    + wp_auto. apply wp_ret. reflexivity.
Qed.

(** ** C4 *)

(** C4 (amended): [sbtreeFlush] always writes the write buffer, even an
    empty one, so a second flush right after a first one writes at least
    one new page: the storage grows by [k >= 1] pages and the write counter
    and [nextPageWriteId] both advance by [k] (modulo 2^32). *)
Theorem flush_twice_writes_again (c : config) (s : sbtreeState) (oob1 oob2 : Z) :
  exists r1 s1 r2 s2 new,
    sbtreeFlush c oob1 s = Some (r1, s1) /\ sbtreeFlush c oob2 s1 = Some (r2, s2) /\
    (1 <= length new)%nat /\ written s2 = new ++ written s1 /\
    nextPageWriteId (buffer s2) = u32 (nextPageWriteId (buffer s1) + Z.of_nat (length new)) /\
    numWrites (buffer s2) = u32 (numWrites (buffer s1) + Z.of_nat (length new)).
Proof.
  destruct (wp_sbtreeFlush c oob1 s) as (r1 & s1 & n1 & E1 & _).
  destruct (wp_sbtreeFlush c oob2 s1) as (r2 & s2 & new & E2 & _ & L & W & A).
  exists r1, s1, r2, s2, new. do 4 (split; [assumption |]).
  destruct A as [(K & _) | (_ & A & B)]; [lia | split; assumption].
Qed.

(** C4 (counterexample): with the test configuration, after the puts of
    keys 1..10 and a flush, a second flush moves the write counter and
    [nextPageWriteId] from 3 to 5. *)
Lemma flush_twice_counterexample : two_flushes test_cfg 10 = Some (3, 3, 5, 5).
Proof. vm_compute. reflexivity. Qed.

(** ** C5 *)



(** ** Slot choice of [readPage] *)

Lemma find_slot_some (n : nat) (f : Z -> bool) :
  forall i j, find_slot n i f = Some j -> i <= j < i + Z.of_nat n /\ f j = true.
Proof.
  induction n as [|n IH]; intros i j H; cbn [find_slot] in H; [discriminate |].
  destruct (f i) eqn:Ef.
  - injection H as <-. split; [lia | exact Ef].
  - destruct (IH (i + 1) j H) as [Hr Hf]. split; [lia | exact Hf].
Qed.

Lemma find_slot_none (n : nat) (f : Z -> bool) :
  forall i, find_slot n i f = None -> forall j, i <= j < i + Z.of_nat n -> f j = false.
Proof.
  induction n as [|n IH]; intros i H j Hj; [lia |].
  cbn [find_slot] in H. destruct (f i) eqn:Ef; [discriminate |].
  destruct (Z.eq_dec j i) as [-> | Hne]; [exact Ef |].
  apply (IH (i + 1) H). lia.
Qed.

Lemma rr_loop_range (c : config) (fuel : nat) (st : Z -> Z) (lh : Z) :
  3 <= numPages c <= 65535 ->
  forall i nbp j nbp', 1 <= i -> rr_loop c fuel st lh i nbp = Some (j, nbp') ->
  1 <= j <= numPages c - 1 /\ (2 <= i -> 2 <= j).
Proof.
  intros Hn. induction fuel as [|fuel IH]; intros i nbp j nbp' Hi H; cbn [rr_loop] in H;
    [discriminate |].
  set (p := if i >? numPages c - 1 then (2, 2) else (i, nbp)) in H.
  assert (Hp : 1 <= fst p <= numPages c - 1 /\ (2 <= i -> 2 <= fst p)).
  { unfold p. destruct (Z.gtb_spec i (numPages c - 1)); cbn [fst]; lia. }
  destruct p as [i1 nbp1]. cbn [fst] in Hp.
  destruct (negb (st i1 =? lh)).
  - injection H as <- _. lia.
  - assert (Hu : u16 (i1 + 1) = i1 + 1) by (unfold u16; apply Z.mod_small; lia).
    rewrite Hu in H. apply IH in H; [lia | lia].
Qed.

Lemma choose_slot_range (c : config) (s : sbtreeState) (pageNum j nbp : Z) :
  2 <= numPages c <= 65535 -> 1 <= nextBufferPage (buffer s) ->
  choose_slot c s pageNum = Some (j, nbp) ->
  1 <= j <= numPages c - 1 /\
  (3 <= numPages c ->
     (pageNum = activePath s 0 -> j = 1) /\
     (pageNum <> activePath s 0 ->
        numPages c = 3 \/
        (exists k, 2 <= k <= numPages c - 1 /\ status (buffer s) k = BUFFER_EMPTY_ID) \/
        2 <= nextBufferPage (buffer s) ->
        2 <= j)).
Proof.
  intros Hn Hb H. unfold choose_slot in H.
  destruct (Z.eqb_spec (numPages c) 2) as [E2 | N2].
  { injection H as <- _. split; [lia | intros; lia]. }
  destruct (Z.eqb_spec (activePath s 0) pageNum) as [Er | Nr].
  { injection H as <- _. split; [lia |]. intros _. split; [reflexivity | intros; congruence]. }
  destruct (Z.eqb_spec (numPages c) 3) as [E3 | N3].
  { injection H as <- _. split; [lia |]. intros _. split; [intros; congruence | lia]. }
  destruct (find_slot _ 2 _) as [k |] eqn:Hf.
  - injection H as <- _. apply find_slot_some in Hf.
    rewrite Z2Nat.id in Hf by lia. split; [lia |]. intros _. split; [intros; congruence | lia].
  - apply rr_loop_range in H; [| lia | lia]. split; [lia |]. intros _.
    split; [intros; congruence |].
    intros _ [E | [(k & Hk & Hs) | H2]]; [lia | | lia].
    assert (Hk' := find_slot_none _ _ 2 Hf k ltac:(rewrite Z2Nat.id; lia)).
    cbv beta in Hk'. rewrite Hs, Z.eqb_refl in Hk'. discriminate.
Qed.

Lemma writePage_frame (i : Z) (s : sbtreeState) :
  exists s', writePage i s = Some (s32 (nextPageWriteId (buffer s)), s') /\
    forall k, k <> i -> slots (buffer s') k = slots (buffer s) k /\
                        status (buffer s') k = status (buffer s) k.
Proof.
  eexists. split; [reflexivity |]. intros k Hk. cbn. unfold upd.
  rewrite (proj2 (Z.eqb_neq k i) Hk). split; reflexivity.
Qed.

(** The state after [readPage]: a hit changes no slot; a miss loads slot
    [i], chosen by [choose_slot], and leaves every other slot as it was. *)
Lemma readPage_post (c : config) (s s' : sbtreeState) (pageNum i : Z) :
  readPage c pageNum s = Some (i, s') ->
  (find_slot (Z.to_nat (numPages c - 1)) 1 (fun j => status (buffer s) j =? pageNum) = Some i /\
   slots (buffer s') = slots (buffer s) /\ status (buffer s') = status (buffer s)) \/
  (find_slot (Z.to_nat (numPages c - 1)) 1 (fun j => status (buffer s) j =? pageNum) = None /\
   exists nbp, choose_slot c s pageNum = Some (i, nbp) /\
   status (buffer s') i = pageNum /\
   (forall k, k <> i -> slots (buffer s') k = slots (buffer s) k /\
                        status (buffer s') k = status (buffer s) k)).
Proof.
  intros H. unfold readPage, bind, gets in H.
  destruct (find_slot _ 1 _) as [k |] eqn:Hf.
  - left. cbn in H. injection H as <- <-. cbn. auto.
  - right. split; [reflexivity |].
    destruct (choose_slot c s pageNum) as [[j nbp] |] eqn:Hc; [| discriminate].
    exists nbp. cbn -[writePage] in H.
    destruct (negb _).
    + destruct (writePage_frame j (set_buffer s (set_nextBufferPage (buffer s) nbp)))
        as (s1 & Hw & Hfr).
      rewrite Hw in H. cbn -[writePage] in H.
      lazymatch type of H with context [match ?x with Some _ => _ | None => _ end] => destruct x end;
        cbn -[writePage] in H; injection H as <- <-; (split; [reflexivity |]); cbn; unfold upd;
        rewrite Z.eqb_refl; (split; [reflexivity |]); intros k Hk;
        rewrite (proj2 (Z.eqb_neq k j) Hk); apply Hfr, Hk.
    + cbn -[writePage] in H.
      lazymatch type of H with context [match ?x with Some _ => _ | None => _ end] => destruct x end;
        cbn -[writePage] in H; injection H as <- <-; (split; [reflexivity |]); cbn; unfold upd;
        rewrite Z.eqb_refl; (split; [reflexivity |]); intros k Hk;
        rewrite (proj2 (Z.eqb_neq k j) Hk); split; reflexivity.
Qed.

(** ** C7 *)




(** ** The buffer invariant *)

Lemma rr_loop_nbp (c : config) (fuel : nat) (st : Z -> Z) (lh : Z) :
  forall i nbp j nbp', rr_loop c fuel st lh i nbp = Some (j, nbp') ->
  nbp' = 2 \/ (nbp' = nbp /\ i <= numPages c - 1).
Proof.
  induction fuel as [|fuel IH]; intros i nbp j nbp' H; cbn [rr_loop] in H; [discriminate |].
  destruct (Z.gtb_spec i (numPages c - 1)) as [Hgt | Hle].
  - destruct (negb _); [injection H as _ <-; left; reflexivity |].
    apply IH in H. lia.
  - destruct (negb _); [injection H as _ <-; right; lia |].
    apply IH in H. lia.
Qed.

Lemma choose_slot_nbp (c : config) (s : sbtreeState) (pageNum j nbp : Z) :
  2 <= numPages c <= 65535 -> 1 <= nextBufferPage (buffer s) <= numPages c ->
  choose_slot c s pageNum = Some (j, nbp) -> 1 <= nbp <= numPages c.
Proof.
  intros Hn Hb H. unfold choose_slot in H.
  destruct (numPages c =? 2); [injection H as _ <-; lia |].
  destruct (activePath s 0 =? pageNum); [injection H as _ <-; lia |].
  destruct (numPages c =? 3); [injection H as _ <-; lia |].
  destruct (find_slot _ 2 _); [injection H as _ <-; lia |].
  apply rr_loop_nbp in H as [-> | [-> Hi]]; [lia |].
  unfold u16. rewrite Z.mod_small; lia.
Qed.

(** Under the invariant, [readPage] takes no write-back branch: it keeps
    the invariant and leaves the [get_frame] parts of the state alone. *)
Lemma readPage_clean (c : config) (s s' : sbtreeState) (pageNum i : Z) :
  2 <= numPages c <= 65535 -> buf_inv c s -> readPage c pageNum s = Some (i, s') ->
  buf_inv c s' /\ get_frame s s'.
Proof.
  intros Hn [Hcl Hb] H. unfold readPage, bind, gets in H.
  destruct (find_slot _ 1 _) as [k |] eqn:Hf.
  - cbn in H. injection H as <- <-. split; [split |]; cbn; auto.
    unfold get_frame. cbn. auto 10.
  - destruct (choose_slot c s pageNum) as [[j nbp] |] eqn:Hc; [| discriminate].
    assert (Hj := choose_slot_range c s pageNum j nbp Hn ltac:(lia) Hc).
    assert (Hnbp := choose_slot_nbp c s pageNum j nbp Hn Hb Hc).
    cbn -[writePage] in H. rewrite Hcl in H. cbn -[writePage] in H.
    assert (Hj0 : (0 =? j) = false) by (apply Z.eqb_neq; lia).
    destruct (storage_read _ pageNum); cbn in H; injection H as <- <-;
      (split; [split |]); cbn.
    + intros k. cbn. unfold upd. destruct (k =? j); [reflexivity | apply Hcl].
    + exact Hnbp.
    + unfold get_frame. cbn. unfold upd. rewrite Hj0. auto 10.
    + intros k. cbn. unfold upd. destruct (k =? j); [reflexivity | apply Hcl].
    + exact Hnbp.
    + unfold get_frame. cbn. auto 10.
Qed.

Section Keeps.
Variable c : config.
Hypothesis Hnp : 2 <= numPages c <= 65535.

(** [m] keeps the buffer invariant, and relates the states before and
    after by [P]. *)
Definition keeps (P : sbtreeState -> sbtreeState -> Prop) {A} (m : M A) : Prop :=
  forall s x s', buf_inv c s -> m s = Some (x, s') -> buf_inv c s' /\ P s s'.

Definition anything (s s' : sbtreeState) : Prop := True.

Lemma keeps_bind (P : sbtreeState -> sbtreeState -> Prop) (HP : Transitive P) {A B}
  (m : M A) (k : A -> M B) :
  keeps P m -> (forall x, keeps P (k x)) -> keeps P (bind m k).
Proof.
  intros Hm Hk s y s' Hi Hr. unfold bind in Hr.
  destruct (m s) as [[x s1] |] eqn:E; [| discriminate].
  destruct (Hm s x s1 Hi E) as [Hi1 P1]. destruct (Hk x s1 y s' Hi1 Hr) as [Hi2 P2].
  split; [exact Hi2 | transitivity s1; assumption].
Qed.

Lemma keeps_ret (P : sbtreeState -> sbtreeState -> Prop) (HP : Reflexive P) {A} (x : A) :
  keeps P (ret x).
Proof. intros s y s' Hi Hr. injection Hr as <- <-. split; [exact Hi | reflexivity]. Qed.

Lemma keeps_gets (P : sbtreeState -> sbtreeState -> Prop) (HP : Reflexive P) {A}
  (f : sbtreeState -> A) : keeps P (gets f).
Proof. intros s y s' Hi Hr. injection Hr as <- <-. split; [exact Hi | reflexivity]. Qed.

Lemma keeps_diverge (P : sbtreeState -> sbtreeState -> Prop) {A} : keeps P (@diverge A).
Proof. intros s y s' Hi H. discriminate. Qed.

Lemma keeps_modify (f : sbtreeState -> sbtreeState) :
  (forall s, modified (buffer (f s)) = modified (buffer s) /\
             nextBufferPage (buffer (f s)) = nextBufferPage (buffer s)) ->
  keeps anything (modify f).
Proof.
  intros Hf s y s' [Hcl Hb] H. injection H as <- <-. destruct (Hf s) as [E1 E2].
  split; [split | exact I].
  - intros j. rewrite E1. apply Hcl.
  - rewrite E2. exact Hb.
Qed.

Lemma keeps_writePage (i : Z) : keeps anything (writePage i).
Proof.
  intros s y s' [Hcl Hb] H.
  assert (E : writePage i s = Some (s32 (nextPageWriteId (buffer s)),
    set_buffer s (set_numWrites (set_modified (set_status (set_store
      (set_nextPageId (set_slots (set_nextPageWriteId (buffer s)
         (u32 (nextPageWriteId (buffer s) + 1)))
         (upd (slots (buffer s)) i (set_pg_id (slots (buffer s) i) (nextPageId (buffer s)))))
         (u32 (nextPageId (buffer s) + 1)))
      ((u32 (nextPageWriteId (buffer s)),
        upd (slots (buffer s)) i (set_pg_id (slots (buffer s) i) (nextPageId (buffer s))) i)
       :: store (buffer s)))
      (upd (status (buffer s)) i (nextPageWriteId (buffer s))))
      (upd (modified (buffer s)) i NOT_MODIFIED_VAL))
      (u32 (numWrites (buffer s) + 1))))) by reflexivity.
  rewrite E in H. injection H as <- <-. split; [split | exact I]; cbn.
  - intros j. cbn. unfold upd. destruct (j =? i); [reflexivity | apply Hcl].
  - exact Hb.
Qed.

Lemma keeps_readPage (pageNum : Z) : keeps get_frame (readPage c pageNum).
Proof. intros s y s' Hi H. exact (readPage_clean c s s' pageNum y Hnp Hi H). Qed.

Lemma keeps_anything (P : sbtreeState -> sbtreeState -> Prop) {A} (m : M A) :
  keeps P m -> keeps anything m.
Proof. intros Hm s y s' Hi H. split; [apply (Hm s y s' Hi H) | exact I]. Qed.

End Keeps.

#[export] Instance anything_refl : Reflexive anything.
Proof. intros s. exact I. Qed.
#[export] Instance anything_trans : Transitive anything.
Proof. intros a b d _ _. exact I. Qed.
#[export] Instance get_frame_refl : Reflexive get_frame.
Proof. intros s. unfold get_frame. auto 10. Qed.
#[export] Instance get_frame_trans : Transitive get_frame.
Proof.
  intros a b d (A1 & A2 & A3 & A4 & A5 & A6 & A7) (B1 & B2 & B3 & B4 & B5 & B6 & B7).
  unfold get_frame. rewrite B1, B2, B3, B4, B5, B6, B7. auto 10.
Qed.

Ltac keeps_auto_with hook :=
  repeat (cbv zeta; try unfold_buffer_ops; first [hook | match goal with
  | |- keeps _ _ (bind _ _) => apply keeps_bind; [exact _ | | intros ?]
  | |- keeps _ _ (ret _) => apply keeps_ret; exact _
  | |- keeps _ _ (gets _) => apply keeps_gets; exact _
  | |- keeps _ _ diverge => apply keeps_diverge
  | |- keeps _ _ (fun _ => None) => apply keeps_diverge
  | |- keeps _ anything (modify _) => apply keeps_modify; intros ?; split; reflexivity
  | |- keeps _ anything (writePage _) => apply keeps_writePage
  | |- keeps _ get_frame (readPage _ _) => apply keeps_readPage; assumption
  | |- keeps _ anything (readPage _ _) =>
      apply (keeps_anything _ get_frame); apply keeps_readPage; assumption
  | |- keeps _ _ (if ?b then _ else _) => destruct b
  | |- keeps _ _ (match ?x with _ => _ end) => destruct x
  end]).

Ltac keeps_auto := keeps_auto_with fail.

Section Reachable.
Variable c : config.
Hypothesis Hnp : 2 <= numPages c <= 65535.

Lemma keeps_updateIndex_loop (fuel : nat) :
  forall minkey key l prevPageNum pageNum,
  keeps c anything (updateIndex_loop c fuel minkey key l prevPageNum pageNum).
Proof.
  induction fuel as [|fuel IH]; intros minkey key l prevPageNum pageNum;
    cbn [updateIndex_loop]; keeps_auto; try apply IH.
Qed.

Lemma keeps_shift_activePath (n : nat) : forall l, keeps c anything (shift_activePath n l).
Proof. induction n as [|n IH]; intros l; cbn [shift_activePath]; keeps_auto; try apply IH. Qed.

Lemma keeps_sbtreeUpdateIndex (minkey key pageNum : Z) :
  keeps c anything (sbtreeUpdateIndex c minkey key pageNum).
Proof.
  unfold sbtreeUpdateIndex. keeps_auto;
    first [apply keeps_updateIndex_loop | apply keeps_shift_activePath].
Qed.

Ltac keeps_ui := idtac;
  match goal with
  | |- keeps _ _ (sbtreeUpdateIndex _ _ _ _) => apply keeps_sbtreeUpdateIndex
  end.

Lemma keeps_sbtreePut (key data : Z) : keeps c anything (sbtreePut c key data).
Proof. unfold sbtreePut. keeps_auto_with keeps_ui. Qed.

Lemma keeps_sbtreeFlush (oob : Z) : keeps c anything (sbtreeFlush c oob).
Proof. unfold sbtreeFlush. keeps_auto_with keeps_ui. Qed.

Lemma keeps_get_loop (n : nat) : forall l nextId key, keeps c get_frame (get_loop c n l nextId key).
Proof. induction n as [|n IH]; intros l nextId key; cbn [get_loop]; keeps_auto; try apply IH. Qed.

Lemma keeps_sbtreeGet (key : Z) : keeps c get_frame (sbtreeGet c key).
Proof. unfold sbtreeGet. keeps_auto; apply keeps_get_loop. Qed.

Lemma keeps_init_loop (n : nat) : forall l nextId it, keeps c anything (init_loop c n l nextId it).
Proof. induction n as [|n IH]; intros l nextId it; cbn [init_loop]; keeps_auto; try apply IH. Qed.

Lemma keeps_sbtreeInitIterator (it : sbtreeIterator) : keeps c anything (sbtreeInitIterator c it).
Proof. unfold sbtreeInitIterator. keeps_auto; apply keeps_init_loop. Qed.

Lemma keeps_next_up (n : nat) : forall l it, keeps c anything (next_up c n l it).
Proof. induction n as [|n IH]; intros l it; cbn [next_up]; keeps_auto; try apply IH. Qed.

Lemma keeps_next_down (n : nat) : forall l i it, keeps c anything (next_down c n l i it).
Proof. induction n as [|n IH]; intros l i it; cbn [next_down]; keeps_auto; try apply IH. Qed.

Lemma keeps_next_loop (fuel : nat) : forall i it, keeps c anything (next_loop c fuel i it).
Proof.
  induction fuel as [|fuel IH]; intros i it; cbn [next_loop]; keeps_auto;
    first [apply IH | apply keeps_next_up | apply keeps_next_down].
Qed.

Lemma keeps_sbtreeNext (fuel : nat) (it : sbtreeIterator) : keeps c anything (sbtreeNext c fuel it).
Proof. unfold sbtreeNext. keeps_auto. apply keeps_next_loop. Qed.

Lemma init_buf_inv (s s' : sbtreeState) (x : unit) : sbtreeInit s = Some (x, s') -> buf_inv c s'.
Proof.
  intros H. unfold sbtreeInit in H.
  assert (Hi : buf_inv c (set_buffer s (dbbufferInit (buffer s))))
    by (split; [intros j; reflexivity | cbn; lia]).
  unfold bind at 1 in H. cbn [modify_buf modify] in H.
  match type of H with ?m _ = Some _ => assert (K : keeps c anything m) end.
  { keeps_auto. }
  exact (proj1 (K _ _ _ Hi H)).
Qed.

Lemma reachable_buf_inv (s : sbtreeState) : reachable c s -> buf_inv c s.
Proof.
  induction 1 as [s s' H | s key data r s' _ IH H | s key r s' _ IH H | s oob r s' _ IH H
                 | s it it' s' _ IH H | s fuel it r s' _ IH H].
  - exact (init_buf_inv s s' tt H).
  - exact (proj1 (keeps_sbtreePut key data s r s' IH H)).
  - exact (proj1 (keeps_sbtreeGet key s r s' IH H)).
  - exact (proj1 (keeps_sbtreeFlush oob s r s' IH H)).
  - exact (proj1 (keeps_sbtreeInitIterator it s it' s' IH H)).
  - exact (proj1 (keeps_sbtreeNext fuel it s r s' IH H)).
Qed.

End Reachable.

(** ** C9 *)

(** C9: in every reachable state no buffer slot is marked modified (the
    tree never calls [dbbufferSetModified]), so the write-back branch of
    [readPage] is never taken, and [sbtreeGet] writes no page: it leaves
    [nextPageWriteId], [nextPageId], the write counter, the write buffer
    (slot 0), [activePath] and the storage as they were. *)
Theorem sbtreeGet_writes_nothing (c : config) (s s' : sbtreeState) (key : Z) (r : Z * option Z) :
  2 <= numPages c <= 65535 -> reachable c s -> sbtreeGet c key s = Some (r, s') ->
  (forall j, modified (buffer s) j = NOT_MODIFIED_VAL) /\
  nextPageWriteId (buffer s') = nextPageWriteId (buffer s) /\
  nextPageId (buffer s') = nextPageId (buffer s) /\
  numWrites (buffer s') = numWrites (buffer s) /\
  slots (buffer s') 0 = slots (buffer s) 0 /\
  activePath s' = activePath s /\
  store (buffer s') = store (buffer s).
Proof.
  intros Hn Hr H.
  assert (Hi := reachable_buf_inv c Hn s Hr).
  destruct (keeps_sbtreeGet c Hn key s r s' Hi H) as [_ (F1 & F2 & F3 & F4 & F5 & F6 & _)].
  split; [exact (proj1 Hi) |]. auto 7.
Qed.

Lemma sbtreeGet_writes_nothing_witness :
  (2 <= numPages test_cfg <= 65535 /\ reachable test_cfg flush1_state /\
   sbtreeGet test_cfg 1 flush1_state
   = Some ((0, Some 10), run_state (sbtreeGet test_cfg 1) flush1_state)) /\
  ((forall j, modified (buffer flush1_state) j = NOT_MODIFIED_VAL) /\
   nextPageWriteId (buffer (run_state (sbtreeGet test_cfg 1) flush1_state))
     = nextPageWriteId (buffer flush1_state) /\
   nextPageId (buffer (run_state (sbtreeGet test_cfg 1) flush1_state))
     = nextPageId (buffer flush1_state) /\
   numWrites (buffer (run_state (sbtreeGet test_cfg 1) flush1_state))
     = numWrites (buffer flush1_state) /\
   slots (buffer (run_state (sbtreeGet test_cfg 1) flush1_state)) 0
     = slots (buffer flush1_state) 0 /\
   activePath (run_state (sbtreeGet test_cfg 1) flush1_state) = activePath flush1_state /\
   store (buffer (run_state (sbtreeGet test_cfg 1) flush1_state)) = store (buffer flush1_state)).
Proof.
  assert (H1 : 2 <= numPages test_cfg <= 65535) by (vm_compute; split; discriminate).
  assert (H2 : reachable test_cfg flush1_state).
  { apply (reach_flush test_cfg put1_state 0 0); [| vm_compute; reflexivity].
    apply (reach_put test_cfg init_state 1 10 0); [| vm_compute; reflexivity].
    apply (reach_init test_cfg blank_state). vm_compute. reflexivity. }
  assert (H3 : sbtreeGet test_cfg 1 flush1_state
               = Some ((0, Some 10), run_state (sbtreeGet test_cfg 1) flush1_state))
    by (vm_compute; reflexivity).
  split; [split; [exact H1 | split; [exact H2 | exact H3]] |].
  exact (sbtreeGet_writes_nothing test_cfg flush1_state _ 1 (0, Some 10) H1 H2 H3).
Defined.


Lemma uint32Compare_small (a b : Z) :
  0 <= a < 2 ^ 31 -> 0 <= b < 2 ^ 31 ->
  uint32Compare a b = if a <? b then -1 else if b <? a then 1 else 0.
Proof.
  intros Ha Hb. unfold uint32Compare.
  rewrite (signed32_small a), (signed32_small b), (signed32_small (a - b)) by lia.
  destruct (Z.ltb_spec (a - b) 0), (Z.ltb_spec a b); try lia;
    destruct (Z.gtb_spec (a - b) 0), (Z.ltb_spec b a); lia.
Qed.

Lemma interior_search_correct (p : page) (k j0 : Z) (fuel : nat) :
  forall first last middle,
  0 <= k < 2 ^ 31 ->
  (forall i, first <= i < last -> 0 <= pg_keys p i < 2 ^ 31) ->
  (forall i, first <= i < j0 -> pg_keys p i <= k) ->
  (forall i, j0 <= i < last -> k < pg_keys p i) ->
  (forall i, first <= i -> i + 1 < j0 -> pg_keys p i < pg_keys p (i + 1)) ->
  0 <= first <= j0 -> j0 <= last -> middle = Z.quot (first + last) 2 ->
  last - first < Z.of_nat fuel ->
  interior_search fuel p k first last middle = j0.
Proof.
  induction fuel as [|fuel IH]; intros first last middle Hk Hr Hlo Hhi Hs Hf Hl Hm Hfu;
    [lia |].
  cbn [interior_search].
  rewrite Z.quot_div_nonneg in Hm by lia.
  destruct (Z.ltb_spec first last) as [Hlt | Hge]; [| lia].
  assert (Hmid : first <= middle < last).
  { subst middle. split; [apply Z.div_le_lower_bound | apply Z.div_lt_upper_bound]; lia. }
  rewrite uint32Compare_small by (try apply Hr; lia).
  destruct (Z.ltb_spec k (pg_keys p middle)) as [H1 | H1].
  - cbn. assert (j0 <= middle).
    { destruct (Z.lt_ge_cases middle j0) as [Hc | Hc]; [| exact Hc].
      specialize (Hlo middle ltac:(lia)). lia. }
    apply IH; try assumption; try lia; try reflexivity.
    all: intros i Hi; first [apply Hr | apply Hhi]; lia.
  - destruct (Z.ltb_spec (pg_keys p middle) k) as [H2 | H2]; cbn.
    + assert (middle < j0).
      { destruct (Z.lt_ge_cases middle j0) as [Hc | Hc]; [exact Hc |].
        specialize (Hhi middle ltac:(lia)). lia. }
      apply IH; try assumption; try lia; try reflexivity.
      all: intros i Hi; first [apply Hr | apply Hlo | apply Hs]; lia.
    + assert (middle < j0).
      { destruct (Z.lt_ge_cases middle j0) as [Hc | Hc]; [exact Hc |].
        specialize (Hhi middle ltac:(lia)). lia. }
      destruct (Z.lt_ge_cases (middle + 1) j0) as [Hc | Hc]; [| lia].
      specialize (Hs middle ltac:(lia) Hc). specialize (Hlo (middle + 1) ltac:(lia)). lia.
Qed.

Lemma interior_search_range (p : page) (k : Z) (fuel : nat) :
  forall first last middle, 0 <= first <= last -> middle = Z.quot (first + last) 2 ->
  first <= interior_search fuel p k first last middle <= last.
Proof.
  induction fuel as [|fuel IH]; intros first last middle Hf Hm; cbn [interior_search]; [lia |].
  rewrite Z.quot_div_nonneg in Hm by lia.
  destruct (Z.ltb_spec first last) as [Hlt | Hge]; [| lia].
  assert (Hmid : first <= middle < last).
  { subst middle. split; [apply Z.div_le_lower_bound | apply Z.div_lt_upper_bound]; lia. }
  destruct (uint32Compare k (pg_keys p middle) >? 0).
  - specialize (IH (middle + 1) last (Z.quot (middle + 1 + last) 2) ltac:(lia) eq_refl). lia.
  - destruct (_ =? 0); [lia |].
    specialize (IH first middle (Z.quot (first + middle) 2) ltac:(lia) eq_refl). lia.
Qed.

Lemma leaf_search_found (p : page) (k idx : Z) (range : bool) (fuel : nat) :
  forall first last middle,
  0 <= k < 2 ^ 31 ->
  (forall i, first <= i <= last -> 0 <= fst (pg_recs p i) < 2 ^ 31) ->
  (forall i j, first <= i -> i < j -> j <= last -> fst (pg_recs p i) < fst (pg_recs p j)) ->
  fst (pg_recs p idx) = k ->
  0 <= first <= idx -> idx <= last -> last < 2 ^ 32 -> middle = Z.quot (first + last) 2 ->
  last - first < Z.of_nat fuel ->
  leaf_search fuel p k first last middle range = idx.
Proof.
  induction fuel as [|fuel IH]; intros first last middle Hk Hr Hs Hidx Hf Hl Hl2 Hm Hfu; [lia |].
  cbn [leaf_search].
  rewrite Z.quot_div_nonneg in Hm by lia.
  destruct (Z.leb_spec first last) as [Hle | Hgt]; [| lia].
  assert (Hmid : first <= middle <= last).
  { subst middle. split; [apply Z.div_le_lower_bound | apply Z.div_le_upper_bound]; lia. }
  rewrite uint32Compare_small by (try apply Hr; lia).
  destruct (Z.ltb_spec (fst (pg_recs p middle)) k) as [H1 | H1]; cbn.
  - assert (middle < idx).
    { destruct (Z.lt_ge_cases middle idx) as [Hc | Hc]; [exact Hc |].
      destruct (Z.eq_dec middle idx) as [-> | Hne]; [lia |].
      specialize (Hs idx middle ltac:(lia) ltac:(lia) ltac:(lia)). lia. }
    apply IH; try assumption; try lia.
    all: try (rewrite Z.quot_div_nonneg by lia; reflexivity).
    all: try (intros i Hi; apply Hr; lia).
    all: intros i j Hi Hij Hj; apply Hs; lia.
  - destruct (Z.ltb_spec k (fst (pg_recs p middle))) as [H2 | H2]; cbn.
    + assert (idx < middle).
      { destruct (Z.lt_ge_cases idx middle) as [Hc | Hc]; [exact Hc |].
        destruct (Z.eq_dec middle idx) as [-> | Hne]; [lia |].
        specialize (Hs middle idx ltac:(lia) ltac:(lia) ltac:(lia)). lia. }
      apply IH; try assumption; try lia.
      all: try (f_equal; lia).
      all: try (intros i Hi; apply Hr; lia).
      all: intros i j Hi Hij Hj; apply Hs; lia.
    + assert (Hmi : middle = idx).
      { destruct (Z.lt_total middle idx) as [Hc | [Hc | Hc]]; [| exact Hc |].
        - specialize (Hs middle idx ltac:(lia) Hc ltac:(lia)). lia.
        - specialize (Hs idx middle ltac:(lia) Hc ltac:(lia)). lia. }
      rewrite Hmi. unfold u32. apply Z.mod_small. lia.
Qed.


Section ReadPage.
Variable c : config.
Hypothesis Hnp : 2 <= numPages c <= 65535.

Lemma rr_loop_reach (st : Z -> Z) (lh a : Z) :
  2 <= a <= numPages c - 1 -> st a <> lh ->
  forall fuel i nbp, 0 <= i ->
  (if i <=? a then a - i else if i <=? numPages c - 1 then numPages c - i + a - 1 else a - 2)
    < Z.of_nat fuel ->
  exists j nbp', rr_loop c fuel st lh i nbp = Some (j, nbp').
Proof.
  intros Ha Hst. induction fuel as [|fuel IH]; intros i nbp Hi Hm.
  - destruct (Z.leb_spec i a); [lia |]. destruct (Z.leb_spec i (numPages c - 1)); lia.
  - cbn [rr_loop].
    destruct (Z.gtb_spec i (numPages c - 1)) as [Hw | Hw].
    + destruct (negb (st 2 =? lh)) eqn:E; [eauto |].
      apply negb_false_iff, Z.eqb_eq in E.
      assert (a <> 2) by (intros ->; contradiction).
      apply IH; [unfold u16; rewrite Z.mod_small; lia |].
      unfold u16. rewrite Z.mod_small by lia.
      destruct (Z.leb_spec i a); [lia |]. destruct (Z.leb_spec i (numPages c - 1)); [lia |].
      destruct (Z.leb_spec (2 + 1) a); lia.
    + destruct (negb (st i =? lh)) eqn:E; [eauto |].
      apply negb_false_iff, Z.eqb_eq in E.
      apply IH; [unfold u16; rewrite Z.mod_small; lia |].
      unfold u16. rewrite Z.mod_small by lia.
      destruct (Z.leb_spec i a).
      * assert (i <> a) by (intros ->; contradiction).
        destruct (Z.leb_spec (i + 1) a); lia.
      * destruct (Z.leb_spec i (numPages c - 1)); [| lia].
        destruct (Z.leb_spec (i + 1) a); [lia |].
        destruct (Z.leb_spec (i + 1) (numPages c - 1)); lia.
Qed.

Lemma choose_slot_some (s : sbtreeState) (p : Z) :
  1 <= nextBufferPage (buffer s) <= numPages c ->
  coherent c s ->
  exists j nbp, choose_slot c s p = Some (j, nbp).
Proof.
  intros Hb [_ Hd]. unfold choose_slot.
  destruct (numPages c =? 2) eqn:E2; [eauto |].
  destruct (activePath s 0 =? p); [eauto |].
  destruct (numPages c =? 3) eqn:E3; [eauto |].
  apply Z.eqb_neq in E2, E3.
  destruct (find_slot _ 2 _) as [i |] eqn:Ef; [eauto |].
  assert (Hne : forall j, 2 <= j <= numPages c - 1 -> status (buffer s) j <> BUFFER_EMPTY_ID).
  { intros j Hj. apply Z.eqb_neq. apply (find_slot_none _ _ 2 Ef). rewrite Z2Nat.id; lia. }
  assert (H23 : status (buffer s) 2 <> status (buffer s) 3).
  { intros E. apply (Hne 2); [lia |]. apply (Hd 2 3); lia. }
  assert (Ha : exists a, 2 <= a <= 3 /\ status (buffer s) a <> lastHit (buffer s)).
  { destruct (Z.eq_dec (status (buffer s) 2) (lastHit (buffer s))) as [E | E].
    - exists 3. split; [lia |]. congruence.
    - exists 2. split; [lia | exact E]. }
  destruct Ha as (a & Ha & Hst).
  apply (rr_loop_reach _ _ a ltac:(lia) Hst); [lia |].
  destruct (Z.leb_spec (nextBufferPage (buffer s)) a); [lia |].
  destruct (Z.leb_spec (nextBufferPage (buffer s)) (numPages c - 1)); lia.
Qed.

(** A read of a stored page: it lands in a slot [1 .. numPages-1] which then
    holds that page; the invariants and the [get_frame] parts are kept. *)
Lemma readPage_reads (s : sbtreeState) (p : Z) (pg : page) :
  buf_inv c s -> coherent c s -> p <> BUFFER_EMPTY_ID ->
  storage_read (store (buffer s)) p = Some pg ->
  exists i s', readPage c p s = Some (i, s') /\ slots (buffer s') i = pg /\
    buf_inv c s' /\ coherent c s' /\ get_frame s s' /\
    nextPageWriteId (buffer s') = nextPageWriteId (buffer s).
Proof.
  intros Hi Hco Hp Hrd.
  destruct (find_slot (Z.to_nat (numPages c - 1)) 1 (fun j => status (buffer s) j =? p))
    as [k |] eqn:Hf.
  - assert (Hk := find_slot_some _ _ _ _ Hf). rewrite Z2Nat.id in Hk by lia.
    destruct Hk as [Hk Heq]. apply Z.eqb_eq in Heq.
    assert (E : readPage c p s = Some (k,
      set_buffer s (set_lastHit (set_bufferHits (buffer s) (u32 (bufferHits (buffer s) + 1)))
                     (u16 (status (buffer s) k))))).
    { unfold readPage, bind, gets. rewrite Hf. reflexivity. }
    do 2 eexists. split; [exact E |].
    destruct Hco as [Hc Hd].
    split; [cbn; assert (Hk' := Hc k ltac:(lia) ltac:(congruence)); rewrite Heq in Hk';
            congruence |].
    split; [destruct Hi; split; [intros j; apply H | exact H0] |].
    split; [split; [exact Hc | exact Hd] |].
    split; [unfold get_frame; cbn; auto 10 | reflexivity].
  - destruct Hi as [Hcl Hb].
    destruct (choose_slot_some s p Hb Hco) as (j & nbp & Hc).
    assert (Hj := choose_slot_range c s p j nbp Hnp ltac:(lia) Hc).
    assert (Hnbp := choose_slot_nbp c s p j nbp Hnp Hb Hc).
    assert (E : readPage c p s = Some (j,
      set_buffer s (set_numReads
        (set_slots (set_modified (set_status (set_nextBufferPage (buffer s) nbp)
           (upd (status (buffer s)) j p)) (upd (modified (buffer s)) j NOT_MODIFIED_VAL))
           (upd (slots (buffer s)) j pg))
        (u32 (numReads (buffer s) + 1))))).
    { unfold readPage, bind, gets. rewrite Hf, Hc. cbn -[writePage]. rewrite Hcl.
      cbn. rewrite Hrd. reflexivity. }
    do 2 eexists. split; [exact E |].
    cbn. unfold upd. rewrite Z.eqb_refl. split; [reflexivity |].
    destruct Hco as [Hco Hd]. destruct Hj as [Hj _].
    split; [split; [intros k; cbn; unfold upd; destruct (k =? j); [reflexivity | apply Hcl] |
                    exact Hnbp] |].
    split; [split |].
    + intros k Hk. cbn. unfold upd. destruct (Z.eqb_spec k j) as [-> | Hkj]; intros Hne.
      * exact Hrd.
      * apply Hco; [exact Hk | exact Hne].
    + intros a b Ha Hb' Hab. cbn. unfold upd.
      destruct (Z.eqb_spec a j) as [-> | Haj]; destruct (Z.eqb_spec b j) as [-> | Hbj];
        [congruence | | | apply Hd; assumption].
      * intros Eab. exfalso. assert (F := find_slot_none _ _ _ Hf b). rewrite Z2Nat.id in F by lia.
        specialize (F ltac:(lia)). cbn in F. apply Z.eqb_neq in F. congruence.
      * intros Eab. exfalso. assert (F := find_slot_none _ _ _ Hf a). rewrite Z2Nat.id in F by lia.
        specialize (F ltac:(lia)). cbn in F. apply Z.eqb_neq in F. congruence.
    + split; [unfold get_frame; cbn; unfold upd |]; [| reflexivity].
      assert (Hj0 : (match j with 0 => true | _ => false end) = false)
        by (destruct j; [lia | reflexivity | reflexivity]). rewrite Hj0. auto 10.
Qed.

End ReadPage.


Lemma cut_mono (cut : Z -> Z) (n : Z) :
  (forall j, 0 <= j < n -> cut j < cut (j + 1)) ->
  forall a b, 0 <= a -> a <= b -> b <= n -> cut a <= cut b /\ (a < b -> cut a < cut b).
Proof.
  intros Hc a b Ha Hab Hbn.
  assert (K : forall d, 0 <= d -> a + d <= n -> cut a <= cut (a + d) /\ (0 < d -> cut a < cut (a + d))).
  { intros d Hd. pattern d. apply natlike_ind; [| | exact Hd].
    - intros _. rewrite Z.add_0_r. lia.
    - intros m Hm IH Hm1. specialize (IH ltac:(lia)). specialize (Hc (a + m) ltac:(lia)).
      replace (a + Z.succ m) with (a + m + 1) by lia. lia. }
  specialize (K (b - a) ltac:(lia) ltac:(lia)). replace (a + (b - a)) with b in K by lia. lia.
Qed.

Lemma find_child (cut : Z -> Z) (n q : Z) :
  0 <= n -> (forall j, 0 <= j < n -> cut j < cut (j + 1)) ->
  cut 0 <= q < cut n -> exists j, 0 <= j < n /\ cut j <= q < cut (j + 1).
Proof.
  intros Hn. pattern n. apply natlike_ind; [| | exact Hn].
  - intros _ H. lia.
  - intros m Hm IH Hc Hq.
    replace (Z.succ m) with (m + 1) in * by lia.
    destruct (Z.lt_ge_cases q (cut m)) as [Hlt | Hge].
    + destruct IH as (j & Hj & Hq'); [intros j Hj; apply Hc; lia | lia |].
      exists j. split; [lia | exact Hq'].
    + exists m. split; [lia | lia].
Qed.

Section Search.
Variable c : config.
Hypothesis HmaxI : 1 <= maxInteriorRecordsPerPage c.

Lemma search_interior (pg : page) (k j0 : Z) :
  SBTREE_IS_INTERIOR pg = true ->
  0 <= j0 <= Z.min (SBTREE_GET_COUNT pg) (maxInteriorRecordsPerPage c) ->
  0 <= k < 2 ^ 31 ->
  (forall i, 0 <= i < Z.min (SBTREE_GET_COUNT pg) (maxInteriorRecordsPerPage c) ->
     0 <= pg_keys pg i < 2 ^ 31) ->
  (forall i, 0 <= i < j0 -> pg_keys pg i <= k) ->
  (forall i, j0 <= i < Z.min (SBTREE_GET_COUNT pg) (maxInteriorRecordsPerPage c) ->
     k < pg_keys pg i) ->
  (forall i, 0 <= i -> i + 1 < j0 -> pg_keys pg i < pg_keys pg (i + 1)) ->
  sbtreeSearchNode c pg k false = j0.
Proof.
  intros Hint Hj0 Hk Hr Hlo Hhi Hs. unfold sbtreeSearchNode. rewrite Hint.
  assert (Hc0 : 0 <= SBTREE_GET_COUNT pg) by (unfold SBTREE_GET_COUNT; apply Z.mod_pos_bound; lia).
  destruct (Z.eqb_spec (SBTREE_GET_COUNT pg) 0) as [E0 | E0]; [rewrite E0 in Hj0; lia |].
  destruct (Z.eqb_spec (SBTREE_GET_COUNT pg) 1) as [E1 | E1].
  - rewrite E1 in *. rewrite Z.min_l in * by lia.
    rewrite uint32Compare_small by (try apply Hr; lia).
    destruct (Z.ltb_spec k (pg_keys pg 0)); cbn.
    + destruct (Z.eq_dec j0 0); [lia |]. specialize (Hlo 0 ltac:(lia)). lia.
    + destruct (Z.ltb_spec (pg_keys pg 0) k); cbn;
        (destruct (Z.eq_dec j0 1); [lia |]); specialize (Hhi 0 ltac:(lia)); lia.
  - apply interior_search_correct; try assumption; try lia; try reflexivity.
    all: try (rewrite Z2Nat.id by lia; lia).
    all: intros i Hi; first [apply Hlo | apply Hr | apply Hhi | apply Hs]; lia.
Qed.

Lemma search_interior_range (pg : page) (k : Z) :
  SBTREE_IS_INTERIOR pg = true ->
  0 <= sbtreeSearchNode c pg k false <= Z.min (SBTREE_GET_COUNT pg) (maxInteriorRecordsPerPage c).
Proof.
  intros Hint. unfold sbtreeSearchNode. rewrite Hint.
  assert (Hc0 : 0 <= SBTREE_GET_COUNT pg) by (unfold SBTREE_GET_COUNT; apply Z.mod_pos_bound; lia).
  destruct (Z.eqb_spec (SBTREE_GET_COUNT pg) 0) as [E0 | E0]; [lia |].
  destruct (Z.eqb_spec (SBTREE_GET_COUNT pg) 1) as [E1 | E1].
  - rewrite E1. destruct (_ <? 0); lia.
  - apply interior_search_range; [lia |]. reflexivity.
Qed.

Hypothesis Hrec : maxRecordsPerPage c <= 9999.

Lemma leaf_not_interior (G : list (Z * Z)) (pg : page) (lo hi : Z) :
  lo <= hi -> leaf_ok c G pg lo hi ->
  SBTREE_IS_INTERIOR pg = false /\ SBTREE_GET_COUNT pg = hi - lo.
Proof.
  intros Hlh (Hc & Hm & _). unfold SBTREE_IS_INTERIOR, SBTREE_GET_COUNT, s16, signed.
  rewrite Hc. rewrite !(Z.mod_small (hi - lo)) by lia.
  destruct (Z.geb_spec (hi - lo) (2 ^ (16 - 1))); [lia |].
  split; [apply Z.leb_gt; lia | reflexivity].
Qed.

Lemma search_leaf (G : list (Z * Z)) (pg : page) (lo hi q : Z) :
  leaf_ok c G pg lo hi -> sorted_keys G -> 0 <= lo -> lo <= q < hi -> hi <= zlen G ->
  sbtreeSearchNode c pg (fst (rec_at G q)) false = q - lo.
Proof.
  intros Hl [Hs Hr] Hlo Hq Hhi.
  destruct (leaf_not_interior G pg lo hi ltac:(lia) Hl) as [Hint Hcnt].
  destruct Hl as (Hl1 & Hl2 & Hrec').
  unfold sbtreeSearchNode. rewrite Hint, Hcnt.
  apply leaf_search_found; try lia.
  all: try (specialize (Hr q ltac:(lia)); lia).
  all: try (intros i Hi; rewrite Hrec' by lia; specialize (Hr (lo + i) ltac:(lia)); lia).
  all: try (intros i j Hi Hij Hj; rewrite !Hrec' by lia; apply Hs; lia).
  all: try (rewrite Hrec' by lia; f_equal; f_equal; lia).
  all: try (rewrite Z2Nat.id by lia; lia).
  all: try reflexivity.
  all: lia.
Qed.

End Search.


Lemma get_loop_step (c : config) (n : nat) (l p k : Z) (s : sbtreeState) (i : Z) (s1 : sbtreeState) :
  readPage c p s = Some (i, s1) ->
  get_loop c (S n) l p k s =
  (let nid := getChildPageId s1 (slots (buffer s1) i) p l
                (sbtreeSearchNode c (slots (buffer s1) i) k false) in
   if nid =? ID_NONE then ret None else get_loop c n (l + 1) nid k) s1.
Proof. intros H. cbn [get_loop]. unfold bind at 1. rewrite H. reflexivity. Qed.

Lemma sub_ok_lt (c : config) st ap G sl l h p lo hi :
  sub_ok c st ap G sl l h p lo hi -> 1 <= p /\ lo < hi.
Proof. destruct h; intros (H1 & H2 & _); auto. Qed.

Lemma sub_ok_read (c : config) st ap G sl l h p lo hi :
  sub_ok c st ap G sl l h p lo hi -> exists pg, storage_read st p = Some pg.
Proof. destruct h; intros (_ & _ & pg & H & _); eauto. Qed.

Section Descent.
Variable c : config.
Hypothesis Hnp : 2 <= numPages c <= 65535.
Hypothesis HmaxI : 1 <= maxInteriorRecordsPerPage c.
Hypothesis Hrec : maxRecordsPerPage c <= 9999.
Variables (st : storage) (ap : Z -> Z) (G : list (Z * Z)) (sl L : Z).
Hypothesis HG : sorted_keys G.
Hypothesis Hsl : 0 <= sl <= 2 ^ 31 - 1.
Hypothesis Hfresh : forall q, BUFFER_EMPTY_ID <= q -> storage_read st q = None.

Lemma stored_id (p : Z) (pg : page) :
  storage_read st p = Some pg -> p < BUFFER_EMPTY_ID.
Proof.
  intros H. destruct (Z.lt_ge_cases p BUFFER_EMPTY_ID) as [| Hge]; [assumption |].
  rewrite (Hfresh p Hge) in H. discriminate.
Qed.

Lemma stored_not_none (p : Z) (pg : page) :
  storage_read st p = Some pg -> (p =? ID_NONE) = false.
Proof.
  intros H. apply Z.eqb_neq. assert (E := stored_id p pg H).
  unfold BUFFER_EMPTY_ID in E. unfold ID_NONE, u32. cbn. lia.
Qed.

Lemma at_tree_read (s : sbtreeState) (p : Z) (pg : page) :
  at_tree c st ap L s -> storage_read st p = Some pg ->
  exists i s1, readPage c p s = Some (i, s1) /\ slots (buffer s1) i = pg /\
    at_tree c st ap L s1 /\ get_frame s s1.
Proof.
  intros (Hsto & Hap & HLv & Hbi & Hco) Hrd.
  destruct (readPage_reads c Hnp s p pg Hbi Hco) as (i & s1 & Hread & Hslot & Hbi1 & Hco1 & Hfr & _).
  - assert (E := stored_id p pg Hrd). lia.
  - rewrite Hsto. exact Hrd.
  - exists i, s1. split; [exact Hread |]. split; [exact Hslot |]. split; [| exact Hfr].
    destruct Hfr as (_ & _ & _ & _ & E5 & E6 & E7).
    unfold at_tree. rewrite E5, E6, E7. auto.
Qed.

(** The search in an interior node whose separators cut [G] at [cut]. *)
Lemma search_cut (pg : page) (cut : Z -> Z) (n nk q j0 : Z) :
  SBTREE_IS_INTERIOR pg = true ->
  Z.min (SBTREE_GET_COUNT pg) (maxInteriorRecordsPerPage c) = nk -> 0 <= nk <= n ->
  (forall j, 0 <= j < n -> cut j < cut (j + 1)) ->
  (forall j, 0 <= j < nk -> key_cut G sl (cut (j + 1)) (pg_keys pg j)) ->
  0 <= j0 <= nk -> 0 <= cut 0 -> cut j0 <= q -> (j0 < n -> q < cut (j0 + 1)) -> q < zlen G ->
  sbtreeSearchNode c pg (fst (rec_at G q)) false = j0.
Proof.
  intros Hint Hnk Hn Hcut Hkeys Hj0 Hc0 Hq1 Hq2 Hq3.
  assert (Hm := cut_mono cut n Hcut).
  assert (Hq0 : 0 <= q) by (destruct (Hm 0 j0); lia).
  destruct HG as [Hs Hr].
  apply (search_interior c HmaxI); rewrite ?Hnk; try assumption.
  - specialize (Hr q ltac:(lia)). lia.
  - intros i Hi. destruct (Hkeys i Hi) as (Hk & _). lia.
  - intros i Hi. destruct (Hkeys i ltac:(lia)) as (_ & _ & Hk). apply Hk.
    destruct (Hm (i + 1) j0); lia.
  - intros i Hi. destruct (Hkeys i ltac:(lia)) as (_ & Hk & _). apply Hk.
    destruct (Hm (j0 + 1) (i + 1)); lia.
  - intros i Hi1 Hi2.
    destruct (Hkeys i ltac:(lia)) as (_ & _ & Hk1).
    destruct (Hkeys (i + 1) ltac:(lia)) as (_ & Hk2 & _).
    specialize (Hk1 (cut (i + 1))). specialize (Hk2 (cut (i + 1))).
    destruct (Hm 0 (i + 1)); destruct (Hm (i + 1) j0); try lia.
    specialize (Hcut (i + 1) ltac:(lia)). replace (i + 1 + 1) with (i + 2) in * by lia.
    assert (fst (rec_at G (cut (i + 1))) < pg_keys pg (i + 1)) by (apply Hk2; lia).
    assert (pg_keys pg i <= fst (rec_at G (cut (i + 1)))) by (apply Hk1; lia).
    lia.
Qed.

(** Descent through a complete subtree. *)
Lemma descend_sub (h : nat) : forall l p lo hi s k,
  sub_ok c st ap G sl l h p lo hi -> 0 <= l -> l + Z.of_nat h = L -> 0 <= lo ->
  hi <= zlen G -> at_tree c st ap L s ->
  exists leaf s' pg lo' hi',
    get_loop c h l p k s = Some (Some leaf, s') /\ at_tree c st ap L s' /\ get_frame s s' /\
    storage_read st leaf = Some pg /\ leaf_ok c G pg lo' hi' /\
    0 <= lo' /\ lo' < hi' /\ hi' <= zlen G /\
    (forall q, lo <= q < hi -> fst (rec_at G q) = k -> lo' <= q < hi').
Proof.
  induction h as [| h IH]; intros l p lo hi s k Hsub Hl HL Hlo Hhi Hs.
  - destruct Hsub as (Hp & Hlh & pg & Hrd & Hleaf).
    exists p, s, pg, lo, hi. cbn [get_loop].
    split; [reflexivity |]. split; [exact Hs |]. split; [reflexivity |].
    split; [exact Hrd |]. split; [exact Hleaf |]. split; [lia |]. split; [lia |].
    split; [lia |]. intros q Hq _. exact Hq.
  - destruct Hsub as (Hp & Hlh & pg & Hrd & Hne & Hint & Hcnt & cut & Hc0 & HcB & Hkids & Hkeys).
    destruct (at_tree_read s p pg Hs Hrd) as (i & s1 & Hread & Hslot & Hs1 & Hfr1).
    rewrite (get_loop_step c h l p k s i s1 Hread). rewrite Hslot. cbv zeta.
    assert (Hj := search_interior_range c HmaxI pg k Hint).
    set (j := sbtreeSearchNode c pg k false) in *.
    assert (HminB : Z.min (SBTREE_GET_COUNT pg) (maxInteriorRecordsPerPage c)
                    = maxInteriorRecordsPerPage c) by (rewrite Hcnt; destruct h; lia).
    rewrite HminB in Hj.
    assert (Hcut : forall j, 0 <= j < maxInteriorRecordsPerPage c + 1 -> cut j < cut (j + 1))
      by (intros j' Hj'; apply (sub_ok_lt c st ap G sl (l + 1) h (pg_ptrs pg j')); apply Hkids; lia).
    assert (Hm := cut_mono cut _ Hcut).
    assert (Hchild := Hkids j ltac:(lia)).
    destruct (sub_ok_lt _ _ _ _ _ _ _ _ _ _ Hchild) as [Hp1 _].
    assert (Hcp : getChildPageId s1 pg p l j = pg_ptrs pg j).
    { unfold getChildPageId. destruct Hs1 as (_ & Hap1 & _). rewrite Hap1.
      rewrite (proj2 (Z.eqb_neq p (ap l)) Hne), andb_false_r.
      rewrite (proj2 (Z.eqb_neq (pg_ptrs pg j) 0)) by lia. reflexivity. }
    rewrite Hcp.
    assert (Hnn : (pg_ptrs pg j =? ID_NONE) = false).
    { destruct (sub_ok_read _ _ _ _ _ _ _ _ _ _ Hchild) as (pg1 & Hrd1). apply (stored_not_none _ _ Hrd1). }
    rewrite Hnn.
    destruct (Hm 0 j) as [Hm1 _]; try lia. destruct (Hm (j + 1) (maxInteriorRecordsPerPage c + 1))
      as [Hm2 _]; try lia.
    destruct (IH (l + 1) (pg_ptrs pg j) (cut j) (cut (j + 1)) s1 k Hchild ltac:(lia)
               ltac:(lia) ltac:(lia) ltac:(lia) Hs1)
      as (leaf & s2 & pg2 & lo' & hi' & Hget & Hs2 & Hfr2 & Hrd2 & Hleaf & Hlo' & Hlh' & Hhi' & Hq).
    exists leaf, s2, pg2, lo', hi'.
    split; [exact Hget |]. split; [exact Hs2 |]. split; [transitivity s1; assumption |].
    split; [exact Hrd2 |]. split; [exact Hleaf |]. split; [lia |]. split; [lia |].
    split; [lia |].
    intros q Hq' Hk. apply Hq; [| exact Hk].
    destruct (find_child cut (maxInteriorRecordsPerPage c + 1) q) as (j0 & Hj0 & Hqj0);
      [lia | exact Hcut | lia |].
    assert (Ej : j = j0).
    { unfold j. rewrite <- Hk.
      apply (search_cut pg cut (maxInteriorRecordsPerPage c + 1) (maxInteriorRecordsPerPage c));
        try assumption; try lia. }
    rewrite Ej. exact Hqj0.
Qed.

Section Spine.
Variable los : Z -> Z.
Hypothesis HL1 : 1 <= L.
Hypothesis Hlos0 : los 0 = 0.
Hypothesis Hup : forall l, 0 <= l < L - 1 -> exists pg, storage_read st (ap l) = Some pg /\
  upper_node c st ap G sl L l pg (los l) (los (l + 1)).
Hypothesis Hbot : exists pg, storage_read st (ap (L - 1)) = Some pg /\
  bottom_node c st ap G sl L pg (los (L - 1)) (zlen G).

Lemma los_step (l : Z) : 0 <= l < L - 1 -> los l <= los (l + 1).
Proof.
  intros Hl. destruct (Hup l Hl) as (pg & _ & _ & Hc & cut & Hc0 & Hcm & Hk & _).
  rewrite <- Hc0, <- Hcm.
  apply (cut_mono cut (SBTREE_GET_COUNT pg)); try lia.
  intros j Hj. apply (sub_ok_lt _ _ _ _ _ _ _ _ _ _ (Hk j Hj)).
Qed.

Lemma los_range (l : Z) : 0 <= l <= L - 1 -> 0 <= los l <= zlen G.
Proof.
  intros Hl.
  assert (A : forall d, 0 <= d -> forall l, 0 <= l -> l + d <= L - 1 -> los l <= los (l + d)).
  { intros d Hd. pattern d. apply natlike_ind; [| | exact Hd].
    - intros l' _ _. rewrite Z.add_0_r. lia.
    - intros m Hm IH l' Hl' Hlm. specialize (IH l' Hl' ltac:(lia)).
      assert (E := los_step (l' + m) ltac:(lia)).
      replace (l' + Z.succ m) with (l' + m + 1) by lia. lia. }
  assert (B1 := A l ltac:(lia) 0 ltac:(lia) ltac:(lia)).
  assert (B2 := A (L - 1 - l) ltac:(lia) l ltac:(lia) ltac:(lia)).
  replace (0 + l) with l in B1 by lia. replace (l + (L - 1 - l)) with (L - 1) in B2 by lia.
  destruct Hbot as (pg & _ & _ & Hc & _ & cut & Hc0 & Hcm & Hk & _).
  assert (B3 : los (L - 1) <= zlen G).
  { rewrite <- Hc0, <- Hcm. apply (cut_mono cut (SBTREE_GET_COUNT pg)); try lia.
    intros j Hj. apply (sub_ok_lt _ _ _ _ _ _ _ _ _ _ (Hk j Hj)). }
  lia.
Qed.

Lemma ap_stored (l : Z) : 0 <= l <= L - 1 -> exists pg, storage_read st (ap l) = Some pg.
Proof.
  intros Hl. destruct (Z.eq_dec l (L - 1)) as [-> | Hne].
  - destruct Hbot as (pg & Hrd & _). eauto.
  - destruct (Hup l ltac:(lia)) as (pg & Hrd & _). eauto.
Qed.

(** Descent along the active path from level [l]. *)
Lemma descend_spine (n : nat) : forall l s k,
  l + Z.of_nat n = L -> 0 <= l -> (1 <= n)%nat -> at_tree c st ap L s ->
  exists r s', get_loop c n l (ap l) k s = Some (r, s') /\ at_tree c st ap L s' /\
    get_frame s s' /\
    match r with
    | None => forall q, los l <= q < zlen G -> fst (rec_at G q) <> k
    | Some leaf => exists pg lo' hi', storage_read st leaf = Some pg /\ leaf_ok c G pg lo' hi' /\
        0 <= lo' /\ lo' < hi' /\ hi' <= zlen G /\
        forall q, los l <= q < zlen G -> fst (rec_at G q) = k -> lo' <= q < hi'
    end.
Proof.
  induction n as [| n IH]; intros l s k HlL Hl Hn Hs; [lia |].
  destruct n as [| n'].
  - (* the lowest interior level *)
    assert (El : l = L - 1) by lia. subst l.
    assert (Hlr := los_range (L - 1) ltac:(lia)).
    destruct Hbot as (pg & Hrd & Hint & Hcnt & Hz & cut & Hc0 & Hcm & Hkids & Hkeys).
    destruct (at_tree_read s _ pg Hs Hrd) as (i & s1 & Hread & Hslot & Hs1 & Hfr1).
    rewrite (get_loop_step c 0 (L - 1) _ k s i s1 Hread). rewrite Hslot. cbv zeta.
    assert (Hj := search_interior_range c HmaxI pg k Hint).
    set (j := sbtreeSearchNode c pg k false) in *.
    assert (Hcut : forall j, 0 <= j < SBTREE_GET_COUNT pg -> cut j < cut (j + 1))
      by (intros j' Hj'; apply (sub_ok_lt c st ap G sl L 0 (pg_ptrs pg j')); apply Hkids; lia).
    assert (Hm := cut_mono cut _ Hcut).
    assert (Hsearch : forall q, los (L - 1) <= q < zlen G -> fst (rec_at G q) = k ->
              exists j0, 0 <= j0 < SBTREE_GET_COUNT pg /\ cut j0 <= q < cut (j0 + 1) /\ j = j0).
    { intros q Hq Hk.
      destruct (find_child cut (SBTREE_GET_COUNT pg) q) as (j0 & Hj0 & Hqj0);
        [lia | exact Hcut | lia |].
      exists j0. split; [exact Hj0 |]. split; [exact Hqj0 |].
      unfold j. rewrite <- Hk.
      apply (search_cut pg cut (SBTREE_GET_COUNT pg)
               (Z.min (SBTREE_GET_COUNT pg) (maxInteriorRecordsPerPage c)));
        try assumption; try lia. }
    assert (HLv1 : levels s1 = L) by (destruct Hs1 as (_ & _ & E & _); exact E).
    destruct (Z.eq_dec j (SBTREE_GET_COUNT pg)) as [Ejm | Ejm].
    + assert (Hcp : getChildPageId s1 pg (ap (L - 1)) (L - 1) j = ID_NONE).
      { unfold getChildPageId. rewrite HLv1, Z.ltb_irrefl, andb_false_r. cbn [andb].
        rewrite Hz by lia. rewrite Ejm, !Z.eqb_refl. reflexivity. }
      rewrite Hcp, Z.eqb_refl.
      exists None, s1. split; [reflexivity |]. split; [exact Hs1 |]. split; [exact Hfr1 |].
      intros q Hq Hk. destruct (Hsearch q Hq Hk) as (j0 & Hj0 & _ & Ej0). lia.
    + assert (Hchild := Hkids j ltac:(lia)).
      assert (Hcp : getChildPageId s1 pg (ap (L - 1)) (L - 1) j = pg_ptrs pg j).
      { unfold getChildPageId. rewrite HLv1, Z.ltb_irrefl, andb_false_r. cbn [andb].
        rewrite (proj2 (Z.eqb_neq j _) Ejm), andb_false_r. reflexivity. }
      rewrite Hcp.
      assert (Hnn : (pg_ptrs pg j =? ID_NONE) = false).
      { destruct (sub_ok_read _ _ _ _ _ _ _ _ _ _ Hchild) as (pg1 & Hrd1). apply (stored_not_none _ _ Hrd1). }
      rewrite Hnn.
      destruct (Hm 0 j) as [Hm1 _]; try lia.
      destruct (Hm (j + 1) (SBTREE_GET_COUNT pg)) as [Hm2 _]; try lia.
      replace (L - 1 + 1) with L by lia.
      destruct (descend_sub 0 L (pg_ptrs pg j) (cut j) (cut (j + 1)) s1 k Hchild
                 ltac:(lia) ltac:(lia) ltac:(lia) ltac:(lia) Hs1)
        as (leaf & s2 & pg2 & lo' & hi' & Hget & Hs2 & Hfr2 & Hrd2 & Hleaf & Hlo' & Hlh' & Hhi' & Hq).
      exists (Some leaf), s2. split; [exact Hget |]. split; [exact Hs2 |].
      split; [transitivity s1; assumption |].
      exists pg2, lo', hi'. split; [exact Hrd2 |]. split; [exact Hleaf |].
      split; [lia |]. split; [lia |]. split; [lia |].
      intros q Hq' Hk. destruct (Hsearch q Hq' Hk) as (j0 & Hj0 & Hqj0 & Ej0).
      apply Hq; [| exact Hk]. rewrite Ej0. exact Hqj0.
  - (* an interior level above the lowest one *)
    assert (HlL1 : l < L - 1) by lia.
    assert (Hlr := los_range l ltac:(lia)).
    assert (Hlr1 := los_range (l + 1) ltac:(lia)).
    destruct (Hup l ltac:(lia)) as (pg & Hrd & Hint & Hcnt & cut & Hc0 & Hcm & Hkids & Hkeys).
    destruct (at_tree_read s _ pg Hs Hrd) as (i & s1 & Hread & Hslot & Hs1 & Hfr1).
    rewrite (get_loop_step c (S n') l _ k s i s1 Hread). rewrite Hslot. cbv zeta.
    assert (Hj := search_interior_range c HmaxI pg k Hint).
    set (j := sbtreeSearchNode c pg k false) in *.
    assert (Hmin : Z.min (SBTREE_GET_COUNT pg) (maxInteriorRecordsPerPage c) = SBTREE_GET_COUNT pg)
      by lia.
    assert (Hcut : forall j, 0 <= j < SBTREE_GET_COUNT pg -> cut j < cut (j + 1))
      by (intros j' Hj'; apply (sub_ok_lt c st ap G sl (l + 1) (Z.to_nat (L - 1 - l))
                                 (pg_ptrs pg j')); apply Hkids; lia).
    assert (Hm := cut_mono cut _ Hcut).
    assert (Hsearch : forall q, los l <= q < zlen G -> fst (rec_at G q) = k ->
              (q < los (l + 1) /\ exists j0, 0 <= j0 < SBTREE_GET_COUNT pg /\
                 cut j0 <= q < cut (j0 + 1) /\ j = j0) \/
              (los (l + 1) <= q /\ j = SBTREE_GET_COUNT pg)).
    { intros q Hq Hk. destruct (Z.lt_ge_cases q (los (l + 1))) as [Hq1 | Hq1].
      - left. split; [exact Hq1 |].
        destruct (find_child cut (SBTREE_GET_COUNT pg) q) as (j0 & Hj0 & Hqj0);
          [lia | exact Hcut | lia |].
        exists j0. split; [exact Hj0 |]. split; [exact Hqj0 |].
        unfold j. rewrite <- Hk.
        apply (search_cut pg cut (SBTREE_GET_COUNT pg) (SBTREE_GET_COUNT pg));
          try assumption; try lia.
      - right. split; [exact Hq1 |].
        unfold j. rewrite <- Hk.
        apply (search_cut pg cut (SBTREE_GET_COUNT pg) (SBTREE_GET_COUNT pg));
          try assumption; try lia. }
    destruct Hs1 as (Hsto1 & Hap1 & HLv1 & Hbi1 & Hco1) eqn:Hs1e.
    destruct (Z.eq_dec j (SBTREE_GET_COUNT pg)) as [Ejm | Ejm].
    + assert (Hcp : getChildPageId s1 pg (ap l) l j = ap (l + 1)).
      { unfold getChildPageId. rewrite HLv1, Hap1, Ejm, !Z.eqb_refl.
        rewrite (proj2 (Z.ltb_lt l (L - 1)) HlL1). reflexivity. }
      rewrite Hcp.
      destruct (ap_stored (l + 1) ltac:(lia)) as (pg1 & Hrd1).
      rewrite (stored_not_none _ _ Hrd1).
      destruct (IH (l + 1) s1 k ltac:(lia) ltac:(lia) ltac:(lia) Hs1)
        as (r & s2 & Hget & Hs2 & Hfr2 & Hr).
      exists r, s2. split; [exact Hget |]. split; [exact Hs2 |].
      split; [transitivity s1; assumption |].
      destruct r as [leaf |].
      * destruct Hr as (pg2 & lo' & hi' & Hrd2 & Hleaf & Hlo' & Hlh' & Hhi' & Hq).
        exists pg2, lo', hi'. split; [exact Hrd2 |]. split; [exact Hleaf |].
        split; [lia |]. split; [lia |]. split; [lia |].
        intros q Hq' Hk. destruct (Hsearch q Hq' Hk) as [(_ & j0 & Hj0 & _ & Ej0) | (Hq1 & _)].
        -- lia.
        -- apply Hq; [lia | exact Hk].
      * intros q Hq' Hk. destruct (Hsearch q Hq' Hk) as [(_ & j0 & Hj0 & _ & Ej0) | (Hq1 & _)].
        -- lia.
        -- apply (Hr q); [lia | exact Hk].
    + assert (Hjm : j < SBTREE_GET_COUNT pg) by lia.
      assert (Hchild := Hkids j ltac:(lia)).
      assert (Hcp : getChildPageId s1 pg (ap l) l j = pg_ptrs pg j).
      { unfold getChildPageId. rewrite (proj2 (Z.eqb_neq j _) Ejm). cbn [andb].
        rewrite andb_false_r. reflexivity. }
      rewrite Hcp.
      assert (Hnn : (pg_ptrs pg j =? ID_NONE) = false).
      { destruct (sub_ok_read _ _ _ _ _ _ _ _ _ _ Hchild) as (pg1 & Hrd1). apply (stored_not_none _ _ Hrd1). }
      rewrite Hnn.
      destruct (Hm 0 j) as [Hm1 _]; try lia.
      destruct (Hm (j + 1) (SBTREE_GET_COUNT pg)) as [Hm2 _]; try lia.
      replace (Z.to_nat (L - 1 - l)) with (S n') in Hchild by lia.
      destruct (descend_sub (S n') (l + 1) (pg_ptrs pg j) (cut j) (cut (j + 1)) s1 k Hchild
                 ltac:(lia) ltac:(lia) ltac:(lia) ltac:(lia) Hs1)
        as (leaf & s2 & pg2 & lo' & hi' & Hget & Hs2 & Hfr2 & Hrd2 & Hleaf & Hlo' & Hlh' & Hhi' & Hq).
      exists (Some leaf), s2. split; [exact Hget |]. split; [exact Hs2 |].
      split; [transitivity s1; assumption |].
      exists pg2, lo', hi'. split; [exact Hrd2 |]. split; [exact Hleaf |].
      split; [lia |]. split; [lia |]. split; [lia |].
      intros q Hq' Hk. destruct (Hsearch q Hq' Hk) as [(_ & j0 & Hj0 & Hqj0 & Ej0) | (_ & Ej0)].
      -- apply Hq; [| exact Hk]. rewrite Ej0. exact Hqj0.
      -- lia.
Qed.

Lemma sbtreeGet_unfold (k : Z) (s : sbtreeState) :
  sbtreeGet c k s =
  match get_loop c (Z.to_nat (levels s)) 0 (activePath s 0) k s with
  | Some (r, s1) =>
      match r with
      | None => Some ((-1, None), s1)
      | Some nextId =>
          match readPage c nextId s1 with
          | Some (i, s2) =>
              let buf := slots (buffer s2) i in
              let k' := sbtreeSearchNode c buf k false in
              (if negb (k' =? ID_NONE) then ret (0, Some (snd (pg_recs buf k')))
               else ret (-1, None)) s2
          | None => None
          end
      end
  | None => None
  end.
Proof.
  unfold sbtreeGet, bind, get_ap, gets.
  destruct (get_loop c (Z.to_nat (levels s)) 0 (activePath s 0) k s) as [[[r |] s1] |];
    [| reflexivity | reflexivity].
  destruct (readPage c r s1) as [[i s2] |]; reflexivity.
Qed.

(** [sbtreeGet] finds every record of the index. *)
Lemma get_index (s : sbtreeState) (k : Z) :
  at_tree c st ap L s ->
  exists r s', sbtreeGet c k s = Some (r, s') /\ at_tree c st ap L s' /\ get_frame s s' /\
    forall q, 0 <= q < zlen G -> fst (rec_at G q) = k -> r = (0, Some (snd (rec_at G q))).
Proof.
  intros Hs. rewrite sbtreeGet_unfold.
  assert (HLv : levels s = L) by (destruct Hs as (_ & _ & E & _); exact E).
  assert (Hap : activePath s = ap) by (destruct Hs as (_ & E & _); exact E).
  rewrite HLv, Hap.
  destruct (descend_spine (Z.to_nat L) 0 s k ltac:(lia) ltac:(lia) ltac:(lia) Hs)
    as (r & s1 & Hget & Hs1 & Hfr1 & Hr).
  rewrite Hget. rewrite Hlos0 in Hr.
  destruct r as [leaf |].
  - destruct Hr as (pg & lo' & hi' & Hrd & Hleaf & Hlo' & Hlh' & Hhi' & Hq).
    destruct (at_tree_read s1 leaf pg Hs1 Hrd) as (i & s2 & Hread & Hslot & Hs2 & Hfr2).
    rewrite Hread. cbv zeta. rewrite Hslot.
    destruct (negb (sbtreeSearchNode c pg k false =? ID_NONE)) eqn:En;
      (eexists; exists s2; split; [reflexivity |]; split; [exact Hs2 |];
       split; [transitivity s1; assumption |]); intros q Hq' Hk;
      (destruct (Hq q Hq' Hk) as [Hq1 Hq2]); subst k;
      rewrite (search_leaf c Hrec G pg lo' hi' q Hleaf HG Hlo' (conj Hq1 Hq2) Hhi') in *.
    + destruct Hleaf as (_ & _ & Hrecs). rewrite Hrecs by lia.
      replace (lo' + (q - lo')) with q by lia. reflexivity.
    + exfalso. apply negb_false_iff, Z.eqb_eq in En.
      unfold ID_NONE, u32 in En. cbn in En. destruct Hleaf as (_ & Hl2 & _). lia.
  - exists (-1, None), s1. split; [reflexivity |]. split; [exact Hs1 |]. split; [exact Hfr1 |].
    intros q Hq' Hk. exfalso. apply (Hr q); [lia | exact Hk].
Qed.

End Spine.
End Descent.


Lemma zlen_app {A} (l1 l2 : list A) : zlen (l1 ++ l2) = zlen l1 + zlen l2.
Proof. unfold zlen. rewrite length_app. lia. Qed.

Lemma rec_at_app_l (G E : list (Z * Z)) (q : Z) :
  0 <= q < zlen G -> rec_at (G ++ E) q = rec_at G q.
Proof. intros Hq. unfold rec_at, zlen in *. apply app_nth1. lia. Qed.

Lemma rec_at_app_r (G E : list (Z * Z)) (q : Z) :
  zlen G <= q -> rec_at (G ++ E) q = rec_at E (q - zlen G).
Proof.
  intros Hq. unfold rec_at, zlen in *. rewrite app_nth2 by lia. f_equal. lia.
Qed.

Lemma sorted_len (G : list (Z * Z)) : sorted_keys G -> zlen G <= 2 ^ 31 - 1.
Proof.
  intros [Hs Hr].
  assert (K : forall q, 0 <= q -> q < zlen G -> q <= fst (rec_at G q)).
  { intros q Hq. pattern q. apply natlike_ind; [| | exact Hq].
    - intros H. specialize (Hr 0 ltac:(lia)). lia.
    - intros m Hm IH H. specialize (IH ltac:(lia)). specialize (Hs m (Z.succ m) ltac:(lia) H).
      lia. }
  destruct (Z.le_gt_cases (zlen G) 0) as [| Hpos]; [lia |].
  specialize (K (zlen G - 1) ltac:(lia) ltac:(lia)). specialize (Hr (zlen G - 1) ltac:(lia)).
  lia.
Qed.

Section Size.
Variable c : config.
Hypothesis HmaxI : 1 <= maxInteriorRecordsPerPage c.

(** A complete subtree of height [h] holds at least [2^h] records. *)
Lemma sub_ok_size st ap G sl (h : nat) : forall l p lo hi,
  sub_ok c st ap G sl l h p lo hi -> 2 ^ Z.of_nat h <= hi - lo.
Proof.
  induction h as [| h IH]; intros l p lo hi Hsub.
  - destruct (sub_ok_lt _ _ _ _ _ _ _ _ _ _ Hsub). cbn. lia.
  - destruct Hsub as (Hp & Hlh & pg & Hrd & Hne & Hint & Hcnt & cut & Hc0 & HcB & Hkids & Hkeys).
    assert (Hcut : forall j, 0 <= j < maxInteriorRecordsPerPage c + 1 -> cut j < cut (j + 1))
      by (intros j Hj; apply (sub_ok_lt c st ap G sl (l + 1) h (pg_ptrs pg j)); apply Hkids; lia).
    assert (A0 := IH _ _ _ _ (Hkids 0 ltac:(lia))).
    assert (A1 := IH _ _ _ _ (Hkids 1 ltac:(lia))).
    destruct (cut_mono cut _ Hcut 2 (maxInteriorRecordsPerPage c + 1)) as [M _]; try lia.
    rewrite Nat2Z.inj_succ, Z.pow_succ_r by lia. cbn in A0, A1. lia.
Qed.

End Size.

Section Transport.
Variable c : config.
Variables (st st' : storage) (ap ap' : Z -> Z) (G E : list (Z * Z)) (sl sl' d Lr : Z).
Hypothesis Hst : forall q pg, storage_read st q = Some pg -> storage_read st' q = Some pg.
Hypothesis Hap : forall l, 0 <= l < Lr -> ap' (l + d) = ap l \/ storage_read st (ap' (l + d)) = None.
Hypothesis HE : forall q, 0 <= q < zlen E -> sl <= fst (rec_at E q).
Hypothesis Hsl : sl <= sl'.

Lemma key_cut_tr (P s0 : Z) :
  0 <= P <= zlen G -> key_cut G sl P s0 -> key_cut (G ++ E) sl' P s0.
Proof.
  intros HP (H1 & H2 & H3). split; [lia |]. split.
  - intros q Hq. rewrite rec_at_app_l by lia. apply H2; lia.
  - intros q Hq. rewrite zlen_app in Hq. destruct (Z.lt_ge_cases q (zlen G)).
    + rewrite rec_at_app_l by lia. apply H3; lia.
    + rewrite rec_at_app_r by lia. specialize (HE (q - zlen G) ltac:(lia)). lia.
Qed.

Lemma leaf_ok_tr (pg : page) (lo hi : Z) :
  0 <= lo -> hi <= zlen G -> leaf_ok c G pg lo hi -> leaf_ok c (G ++ E) pg lo hi.
Proof.
  intros H1 H2 (A & B & C). split; [exact A |]. split; [exact B |].
  intros j Hj. rewrite rec_at_app_l by lia. apply C. exact Hj.
Qed.

Lemma sub_ok_tr (h : nat) : forall l p lo hi,
  0 <= l -> l + Z.of_nat h <= Lr -> 0 <= lo -> hi <= zlen G ->
  sub_ok c st ap G sl l h p lo hi -> sub_ok c st' ap' (G ++ E) sl' (l + d) h p lo hi.
Proof.
  induction h as [| h IH]; intros l p lo hi Hl HLr Hlo Hhi.
  - intros (Hp & Hlh & pg & Hrd & Hleaf).
    split; [exact Hp |]. split; [exact Hlh |]. exists pg. split; [apply Hst; exact Hrd |].
    apply leaf_ok_tr; assumption.
  - intros (Hp & Hlh & pg & Hrd & Hne & Hint & Hcnt & cut & Hc0 & HcB & Hkids & Hkeys).
    split; [exact Hp |]. split; [exact Hlh |]. exists pg. split; [apply Hst; exact Hrd |].
    split.
    { destruct (Hap l ltac:(lia)) as [E1 | E1].
      - rewrite E1. exact Hne.
      - intros Heq. rewrite <- Heq in E1. congruence. }
    split; [exact Hint |]. split; [exact Hcnt |].
    assert (Hcut : forall j, 0 <= j < maxInteriorRecordsPerPage c + 1 -> cut j < cut (j + 1))
      by (intros j Hj; apply (sub_ok_lt c st ap G sl (l + 1) h (pg_ptrs pg j)); apply Hkids; lia).
    assert (Hm := cut_mono cut _ Hcut).
    exists cut. split; [exact Hc0 |]. split; [exact HcB |]. split.
    + intros j Hj. replace (l + d + 1) with (l + 1 + d) by lia.
      destruct (Hm 0 j) as [M1 _]; try lia.
      destruct (Hm (j + 1) (maxInteriorRecordsPerPage c + 1)) as [M2 _]; try lia.
      apply IH; try lia. apply Hkids. exact Hj.
    + intros j Hj. apply key_cut_tr; [| apply Hkeys; exact Hj].
      destruct (Hm 0 (j + 1)) as [M1 _]; try lia.
      destruct (Hm (j + 1) (maxInteriorRecordsPerPage c + 1)) as [M2 _]; lia.
Qed.

Lemma upper_node_tr (L l : Z) (pg : page) (lo P : Z) :
  0 <= l < L -> L <= Lr -> 0 <= lo -> P <= zlen G ->
  upper_node c st ap G sl L l pg lo P -> upper_node c st' ap' (G ++ E) sl' (L + d) (l + d) pg lo P.
Proof.
  intros Hl HL Hlo HP (Hint & Hcnt & cut & Hc0 & Hcm & Hkids & Hkeys).
  split; [exact Hint |]. split; [exact Hcnt |].
  assert (Hcut : forall j, 0 <= j < SBTREE_GET_COUNT pg -> cut j < cut (j + 1))
    by (intros j Hj; apply (sub_ok_lt c st ap G sl (l + 1) (Z.to_nat (L - 1 - l)) (pg_ptrs pg j));
        apply Hkids; lia).
  assert (Hm := cut_mono cut _ Hcut).
  exists cut. split; [exact Hc0 |]. split; [exact Hcm |].
  replace (L + d - 1 - (l + d)) with (L - 1 - l) by lia. split.
  - intros j Hj. replace (l + d + 1) with (l + 1 + d) by lia.
    destruct (Hm 0 j) as [M1 _]; try lia.
    destruct (Hm (j + 1) (SBTREE_GET_COUNT pg)) as [M2 _]; try lia.
    apply sub_ok_tr; try lia. apply Hkids. exact Hj.
  - intros j Hj. apply key_cut_tr; [| apply Hkeys; exact Hj].
    destruct (Hm 0 (j + 1)) as [M1 _]; try lia.
    destruct (Hm (j + 1) (SBTREE_GET_COUNT pg)) as [M2 _]; lia.
Qed.

Lemma bottom_node_tr (L : Z) (pg : page) (lo hi : Z) :
  0 <= L <= Lr -> 0 <= lo -> hi <= zlen G ->
  bottom_node c st ap G sl L pg lo hi -> bottom_node c st' ap' (G ++ E) sl' (L + d) pg lo hi.
Proof.
  intros HL Hlo Hhi (Hint & Hcnt & Hz & cut & Hc0 & Hcm & Hkids & Hkeys).
  split; [exact Hint |]. split; [exact Hcnt |]. split; [exact Hz |].
  assert (Hcut : forall j, 0 <= j < SBTREE_GET_COUNT pg -> cut j < cut (j + 1))
    by (intros j Hj; apply (sub_ok_lt c st ap G sl L 0 (pg_ptrs pg j)); apply Hkids; lia).
  assert (Hm := cut_mono cut _ Hcut).
  exists cut. split; [exact Hc0 |]. split; [exact Hcm |]. split.
  - intros j Hj.
    destruct (Hm 0 j) as [M1 _]; try lia.
    destruct (Hm (j + 1) (SBTREE_GET_COUNT pg)) as [M2 _]; try lia.
    apply sub_ok_tr; try lia. apply Hkids. exact Hj.
  - intros j Hj. apply key_cut_tr; [| apply Hkeys; exact Hj].
    destruct (Hm 0 (j + 1)) as [M1 _]; try lia.
    destruct (Hm (j + 1) (SBTREE_GET_COUNT pg)) as [M2 _]; lia.
Qed.

End Transport.


Lemma bind_ex {A B} (m : M A) (k : A -> M B) (s : sbtreeState) (x : A) (s1 : sbtreeState) :
  m s = Some (x, s1) -> bind m k s = k x s1.
Proof. intros H. unfold bind. rewrite H. reflexivity. Qed.

Lemma bind_gets {A B} (f : sbtreeState -> A) (k : A -> M B) (s : sbtreeState) :
  bind (gets f) k s = k (f s) s.
Proof. reflexivity. Qed.

Lemma storage_read_app (ws st : storage) (q : Z) :
  Forall (fun e => fst e <> q) ws -> storage_read (ws ++ st) q = storage_read st q.
Proof.
  induction ws as [| [k p] ws IH]; intros H; [reflexivity |].
  inversion H as [| ? ? H1 H2]; subst. cbn in H1 |- *.
  rewrite (proj2 (Z.eqb_neq k q) H1). apply IH. exact H2.
Qed.

Lemma upd_frame_refl (s : sbtreeState) : upd_frame s s.
Proof.
  split; [intros; auto |]. split; [auto |]. split; [reflexivity |]. split; [lia |].
  exists []. split; [reflexivity | constructor].
Qed.

Lemma upd_frame_trans (s1 s2 s3 : sbtreeState) :
  upd_frame s1 s2 -> upd_frame s2 s3 -> upd_frame s1 s3.
Proof.
  intros (A1 & B1 & C1 & D1 & ws1 & E1 & F1) (A2 & B2 & C2 & D2 & ws2 & E2 & F2).
  split; [intros i Hi; destruct (A1 i Hi), (A2 i Hi); split; congruence |].
  split; [auto |]. split; [congruence |]. split; [lia |].
  exists (ws2 ++ ws1). split; [rewrite E2, E1, app_assoc; reflexivity |].
  apply Forall_app. split.
  - eapply Forall_impl; [| exact F2]. intros e He. cbn in He. lia.
  - eapply Forall_impl; [| exact F1]. intros e He. cbn in He. lia.
Qed.

Lemma frame_read (s s' : sbtreeState) (q : Z) (pg : page) :
  fresh s -> upd_frame s s' -> storage_read (store (buffer s)) q = Some pg ->
  storage_read (store (buffer s')) q = Some pg.
Proof.
  intros Hf (_ & _ & _ & _ & ws & E & F) Hrd.
  assert (Hq : q < nextPageWriteId (buffer s)).
  { destruct (Z.lt_ge_cases q (nextPageWriteId (buffer s))) as [| Hge]; [assumption |].
    rewrite (Hf q Hge) in Hrd. discriminate. }
  rewrite E, storage_read_app; [exact Hrd |].
  eapply Forall_impl; [| exact F]. intros e He. cbn in He. lia.
Qed.

Lemma frame_fresh (s s' : sbtreeState) : fresh s -> upd_frame s s' -> fresh s'.
Proof.
  intros Hf (_ & _ & _ & D & ws & E & F) q Hq.
  rewrite E, storage_read_app.
  - apply Hf. lia.
  - eapply Forall_impl; [| exact F]. intros e He. cbn in He. lia.
Qed.

Lemma frame_coherent (c : config) (s s' : sbtreeState) :
  fresh s -> coherent c s -> upd_frame s s' -> coherent c s'.
Proof.
  intros Hf [Hc Hd] Hfr. assert (Hfr' := Hfr). destruct Hfr' as (A & _).
  split.
  - intros i Hi Hne. destruct (A i ltac:(lia)) as [E1 E2]. rewrite E1, E2 in *.
    apply (frame_read s s'); [exact Hf | exact Hfr |]. apply Hc; assumption.
  - intros i j Hi Hj Hij. destruct (A i ltac:(lia)) as [E1 _]. destruct (A j ltac:(lia)) as [E2 _].
    rewrite E1, E2. apply Hd; assumption.
Qed.

Lemma frame_buf_inv (c : config) (s s' : sbtreeState) :
  buf_inv c s -> upd_frame s s' -> buf_inv c s'.
Proof. intros [Hc Hb] (_ & B & C & _). split; [auto | rewrite C; exact Hb]. Qed.

Lemma set_ap_eq (l v : Z) (s : sbtreeState) :
  set_ap l v s = Some (tt, set_activePath s (upd (activePath s) l v)).
Proof. reflexivity. Qed.

Lemma set_ap_frame (l v : Z) (s : sbtreeState) :
  upd_frame s (set_activePath s (upd (activePath s) l v)).
Proof. exact (upd_frame_refl s). Qed.

Lemma slot0_set (s s' : sbtreeState) (pg : page) :
  status (buffer s') = status (buffer s) -> slots (buffer s') = upd (slots (buffer s)) 0 pg ->
  modified (buffer s') = modified (buffer s) -> store (buffer s') = store (buffer s) ->
  nextPageWriteId (buffer s') = nextPageWriteId (buffer s) ->
  nextBufferPage (buffer s') = nextBufferPage (buffer s) ->
  activePath s' = activePath s -> levels s' = levels s ->
  slot0_step s s' pg.
Proof.
  intros E1 E2 E3 E4 E5 E6 E7 E8. unfold slot0_step, upd_frame.
  split; [rewrite E2; reflexivity |].
  split.
  - split; [intros i Hi; rewrite E1, E2; unfold upd; rewrite (proj2 (Z.eqb_neq i 0) Hi); auto |].
    split; [unfold clean; rewrite E3; auto |].
    split; [exact E6 |]. split; [lia |].
    exists []. rewrite E4. split; [reflexivity | constructor].
  - auto.
Qed.

Lemma update_slot0 (f : page -> page) (s : sbtreeState) :
  exists s', update_slot 0 f s = Some (tt, s') /\ slot0_step s s' (f (slots (buffer s) 0)).
Proof. eexists. split; [reflexivity |]. apply slot0_set; reflexivity. Qed.

Lemma initBufferPage0 (s : sbtreeState) :
  exists s', initBufferPage 0 s = Some (0, s') /\ slot0_step s s' zero_page.
Proof. eexists. split; [reflexivity |]. apply slot0_set; reflexivity. Qed.

Lemma readPageBuffer0 (p : Z) (pg : page) (s : sbtreeState) :
  storage_read (store (buffer s)) p = Some pg ->
  exists s', readPageBuffer p 0 s = Some (0, s') /\ slot0_step s s' pg.
Proof.
  intros H. eexists. split.
  - unfold readPageBuffer, bind, gets. rewrite H. reflexivity.
  - apply slot0_set; reflexivity.
Qed.

Lemma writePage0 (s : sbtreeState) :
  0 <= nextPageWriteId (buffer s) < BUFFER_EMPTY_ID -> clean s ->
  exists s', writePage 0 s = Some (nextPageWriteId (buffer s), s') /\ write_step s s'.
Proof.
  intros Hw Hcl. unfold BUFFER_EMPTY_ID in Hw.
  assert (Hs : s32 (nextPageWriteId (buffer s)) = nextPageWriteId (buffer s)).
  { unfold s32, signed. rewrite Z.mod_small by lia.
    destruct (Z.geb_spec (nextPageWriteId (buffer s)) (2 ^ (32 - 1))); [lia | reflexivity]. }
  eexists. split.
  { cbn [writePage bind gets modify_buf modify update_slot slot put_slot ret].
    rewrite Hs. reflexivity. }
  unfold write_step, upd_frame, clean. cbn [buffer set_buffer slots status modified store
    nextPageWriteId nextBufferPage activePath levels set_slots set_status set_modified set_store
    set_nextPageWriteId set_nextPageId set_numWrites nextPageId].
  unfold u32. rewrite !(Z.mod_small (nextPageWriteId (buffer s))) by lia.
  rewrite (Z.mod_small (nextPageWriteId (buffer s) + 1)) by lia.
  split; [unfold upd; reflexivity |].
  split; [| split; [reflexivity | split; [reflexivity | auto]]].
  split; [intros i Hi; unfold upd; rewrite (proj2 (Z.eqb_neq i 0) Hi); auto |].
  split; [intros _ j; unfold upd; destruct (j =? 0); [reflexivity | apply Hcl] |].
  split; [reflexivity |]. split; [lia |].
  eexists [_]. split; [reflexivity |]. constructor; [cbn; lia | constructor].
Qed.


(** ** Page arithmetic *)

Lemma raw_interior (pg : page) : raw_ok pg -> SBTREE_IS_INTERIOR pg = true.
Proof.
  unfold raw_ok, SBTREE_IS_INTERIOR, s16, signed. intros H.
  rewrite Z.mod_small by lia.
  destruct (Z.geb_spec (pg_count pg) (2 ^ (16 - 1))); [lia |]. apply Z.leb_le. lia.
Qed.

Lemma raw_count (pg : page) : 0 <= SBTREE_GET_COUNT pg < 10000.
Proof. unfold SBTREE_GET_COUNT. apply Z.mod_pos_bound. lia. Qed.

Lemma raw_inc (pg : page) :
  raw_ok pg -> SBTREE_GET_COUNT pg <= 9998 ->
  pg_count (SBTREE_INC_COUNT pg) = pg_count pg + 1 /\
  SBTREE_GET_COUNT (SBTREE_INC_COUNT pg) = SBTREE_GET_COUNT pg + 1.
Proof.
  unfold raw_ok, SBTREE_GET_COUNT, SBTREE_INC_COUNT, u16. intros H Hm. cbn.
  rewrite Z.mod_small by lia. split; [reflexivity |].
  rewrite <- Z.add_mod_idemp_l by lia. rewrite Z.mod_small; [reflexivity |].
  assert (0 <= pg_count pg mod 10000) by (apply Z.mod_pos_bound; lia). lia.
Qed.

(** ** Moving the index to a larger storage and a renewed active path *)

Section Move.
Variable c : config.
Variables (st st' : storage) (ap ap' : Z -> Z) (G : list (Z * Z)) (sl L : Z).
Hypothesis Hst : forall q pg, storage_read st q = Some pg -> storage_read st' q = Some pg.
Hypothesis Hap : forall j, 0 <= j < L -> ap' j = ap j \/ storage_read st (ap' j) = None.

Let Hap0 : forall j, 0 <= j < L -> ap' (j + 0) = ap j \/ storage_read st (ap' (j + 0)) = None.
Proof. intros j Hj. rewrite Z.add_0_r. apply Hap. exact Hj. Qed.

Let HE0 : forall q, 0 <= q < zlen (@nil (Z * Z)) -> sl <= fst (rec_at [] q).
Proof. intros q Hq. unfold zlen in Hq. cbn in Hq. lia. Qed.

Lemma sub_ok_mv (h : nat) (l p lo hi : Z) :
  0 <= l -> l + Z.of_nat h <= L -> 0 <= lo -> hi <= zlen G ->
  sub_ok c st ap G sl l h p lo hi -> sub_ok c st' ap' G sl l h p lo hi.
Proof.
  intros Hl HlL Hlo Hhi H.
  pose proof (sub_ok_tr c st st' ap ap' G [] sl sl 0 L Hst Hap0 HE0 (Z.le_refl sl) h l p lo hi) as T.
  rewrite app_nil_r, Z.add_0_r in T. apply T; assumption.
Qed.

Lemma upper_node_mv (l : Z) (pg : page) (lo P : Z) :
  0 <= l < L -> 0 <= lo -> P <= zlen G ->
  upper_node c st ap G sl L l pg lo P -> upper_node c st' ap' G sl L l pg lo P.
Proof.
  intros Hl Hlo HP H.
  pose proof (upper_node_tr c st st' ap ap' G [] sl sl 0 L Hst Hap0 HE0 (Z.le_refl sl)
    L l pg lo P) as T.
  rewrite app_nil_r, !Z.add_0_r in T. apply T; try assumption; lia.
Qed.

Lemma bottom_node_mv (pg : page) (lo hi : Z) :
  0 <= L -> 0 <= lo -> hi <= zlen G ->
  bottom_node c st ap G sl L pg lo hi -> bottom_node c st' ap' G sl L pg lo hi.
Proof.
  intros HL Hlo Hhi H.
  pose proof (bottom_node_tr c st st' ap ap' G [] sl sl 0 L Hst Hap0 HE0 (Z.le_refl sl)
    L pg lo hi) as T.
  rewrite app_nil_r, !Z.add_0_r in T. apply T; try assumption; lia.
Qed.

End Move.

(** ** The nodes the update builds *)

Section Nodes.
Variable c : config.
Hypothesis HmaxI : 1 <= maxInteriorRecordsPerPage c <= 9998.
Variables (st : storage) (ap : Z -> Z) (G : list (Z * Z)) (sl L : Z).

Lemma cut_ext (cut : Z -> Z) (m hi : Z) (j : Z) :
  0 <= j <= m -> (fun j => if j <=? m then cut j else hi) j = cut j.
Proof. intros Hj. cbn. rewrite (proj2 (Z.leb_le j m)) by lia. reflexivity. Qed.

(** A full lowest node becomes a complete subtree of height 1. *)
Lemma close_bottom (pg : page) (p lo hi : Z) :
  bottom_node c st ap G sl L pg lo hi ->
  SBTREE_GET_COUNT pg = maxInteriorRecordsPerPage c + 1 ->
  storage_read st p = Some pg -> 1 <= p -> p <> ap (L - 1) ->
  sub_ok c st ap G sl (L - 1) 1 p lo hi.
Proof.
  intros (Hint & Hcnt & Hz & cut & Hc0 & Hcm & Hkids & Hkeys) Hm Hrd Hp Hne.
  rewrite Hm in *.
  assert (Hcut : forall j, 0 <= j < maxInteriorRecordsPerPage c + 1 -> cut j < cut (j + 1))
    by (intros j Hj; apply (sub_ok_lt c st ap G sl L 0 (pg_ptrs pg j)); apply Hkids; lia).
  destruct (cut_mono cut _ Hcut 0 (maxInteriorRecordsPerPage c + 1)) as [_ M]; try lia.
  split; [exact Hp |]. split; [lia |]. exists pg. split; [exact Hrd |].
  split; [exact Hne |]. split; [exact Hint |]. split; [exact Hm |].
  exists cut. split; [exact Hc0 |]. split; [exact Hcm |]. split.
  - intros j Hj. replace (L - 1 + 1) with L by lia. apply Hkids. lia.
  - intros j Hj. apply Hkeys. lia.
Qed.

(** A full interior node of the path, its last child [prev] filled in,
    becomes a complete subtree. *)
Lemma close_upper (l : Z) (pg pg' : page) (p lo P hi prev : Z) :
  0 <= l < L - 1 ->
  upper_node c st ap G sl L l pg lo P ->
  SBTREE_GET_COUNT pg = maxInteriorRecordsPerPage c ->
  storage_read st p = Some pg' -> pg_count pg' = pg_count pg -> pg_keys pg' = pg_keys pg ->
  (forall j, j <> maxInteriorRecordsPerPage c -> pg_ptrs pg' j = pg_ptrs pg j) ->
  pg_ptrs pg' (maxInteriorRecordsPerPage c) = prev ->
  sub_ok c st ap G sl (l + 1) (Z.to_nat (L - 1 - l)) prev P hi ->
  1 <= p -> p <> ap l ->
  sub_ok c st ap G sl l (Z.to_nat (L - l)) p lo hi.
Proof.
  intros Hl (Hint & Hcnt & cut & Hc0 & Hcm & Hkids & Hkeys) Hm Hrd Hc' Hk' Hp' Hpm Hprev Hp Hne.
  rewrite Hm in *.
  assert (Hcut : forall j, 0 <= j < maxInteriorRecordsPerPage c -> cut j < cut (j + 1))
    by (intros j Hj; apply (sub_ok_lt c st ap G sl (l + 1) (Z.to_nat (L - 1 - l)) (pg_ptrs pg j));
        apply Hkids; lia).
  destruct (cut_mono cut _ Hcut 0 (maxInteriorRecordsPerPage c)) as [M _]; try lia.
  destruct (sub_ok_lt _ _ _ _ _ _ _ _ _ _ Hprev) as [_ HPh].
  assert (Hh : Z.to_nat (L - l) = S (Z.to_nat (L - 1 - l))) by lia.
  assert (Hh' : Z.to_nat (L - 1 - l) = S (Z.to_nat (L - 1 - l - 1))) by lia.
  rewrite Hh. cbn [sub_ok].
  split; [exact Hp |]. split; [lia |]. exists pg'. split; [exact Hrd |].
  split; [exact Hne |].
  split; [unfold SBTREE_IS_INTERIOR; rewrite Hc'; exact Hint |].
  split; [unfold SBTREE_GET_COUNT; rewrite Hc'; fold (SBTREE_GET_COUNT pg); rewrite Hm, Hh';
          reflexivity |].
  exists (fun j => if j <=? maxInteriorRecordsPerPage c then cut j else hi).
  split; [rewrite cut_ext by lia; exact Hc0 |].
  split; [cbn; rewrite (proj2 (Z.leb_gt _ _)) by lia; reflexivity |].
  split.
  - intros j Hj. rewrite cut_ext by lia.
    destruct (Z.eq_dec j (maxInteriorRecordsPerPage c)) as [-> | Hj'].
    + cbn. rewrite (proj2 (Z.leb_gt _ _)) by lia. rewrite Hpm, Hcm. exact Hprev.
    + rewrite cut_ext by lia. rewrite Hp' by exact Hj'. apply Hkids. lia.
  - intros j Hj. rewrite cut_ext by lia. rewrite Hk'. apply Hkeys. lia.
Qed.

(** A fresh interior node with no completed child. *)
Lemma upper_zero (l : Z) (pg : page) (lo : Z) :
  SBTREE_IS_INTERIOR pg = true -> SBTREE_GET_COUNT pg = 0 ->
  upper_node c st ap G sl L l pg lo lo.
Proof.
  intros Hint Hc. split; [exact Hint |]. rewrite Hc. split; [lia |].
  exists (fun _ => lo). split; [reflexivity |]. split; [reflexivity |].
  split; intros j Hj; lia.
Qed.

(** A fresh lowest node holding the new leaf [x]. *)
Lemma bottom_one (pg : page) (x n n' : Z) (lp : page) :
  SBTREE_IS_INTERIOR pg = true -> SBTREE_GET_COUNT pg = 1 ->
  pg_ptrs pg 0 = x -> (forall j, 1 <= j -> pg_ptrs pg j = 0) -> pg_keys pg 0 = sl ->
  storage_read st x = Some lp -> leaf_ok c G lp n n' -> 1 <= x -> n < n' ->
  key_cut G sl n' sl ->
  bottom_node c st ap G sl L pg n n'.
Proof.
  intros Hint Hc Hp0 Hpz Hk0 Hrd Hleaf Hx Hnn Hcut.
  split; [exact Hint |]. rewrite Hc. split; [lia |].
  split; [intros j Hj; apply Hpz; lia |].
  exists (fun j => if j <=? 0 then n else n'). split; [reflexivity |]. split; [reflexivity |].
  split.
  - intros j Hj. assert (j = 0) by lia. subst j. cbn. rewrite Hp0.
    split; [exact Hx |]. split; [exact Hnn |]. exists lp. split; [exact Hrd | exact Hleaf].
  - intros j Hj. assert (j = 0) by lia. subst j. cbn. rewrite Hk0. exact Hcut.
Qed.

(** An interior node of the path receiving the completed child [prev]. *)
Lemma upper_room (l : Z) (pg pg' : page) (lo P hi prev minkey : Z) :
  upper_node c st ap G sl L l pg lo P ->
  SBTREE_GET_COUNT pg < maxInteriorRecordsPerPage c ->
  SBTREE_IS_INTERIOR pg' = true -> SBTREE_GET_COUNT pg' = SBTREE_GET_COUNT pg + 1 ->
  (forall j, 0 <= j < SBTREE_GET_COUNT pg -> pg_ptrs pg' j = pg_ptrs pg j) ->
  pg_ptrs pg' (SBTREE_GET_COUNT pg) = prev ->
  (forall j, 0 <= j < SBTREE_GET_COUNT pg -> pg_keys pg' j = pg_keys pg j) ->
  pg_keys pg' (SBTREE_GET_COUNT pg) = minkey ->
  sub_ok c st ap G sl (l + 1) (Z.to_nat (L - 1 - l)) prev P hi ->
  key_cut G sl hi minkey ->
  upper_node c st ap G sl L l pg' lo hi.
Proof.
  intros (Hint & Hcnt & cut & Hc0 & Hcm & Hkids & Hkeys) Hm Hint' Hc' Hp' Hpm Hk' Hkm Hprev Hcut.
  set (m := SBTREE_GET_COUNT pg) in *.
  split; [exact Hint' |]. rewrite Hc'. split; [lia |].
  exists (fun j => if j <=? m then cut j else hi).
  split; [rewrite cut_ext by lia; exact Hc0 |].
  split; [cbn; rewrite (proj2 (Z.leb_gt _ _)) by lia; reflexivity |].
  split.
  - intros j Hj. rewrite cut_ext by lia.
    destruct (Z.eq_dec j m) as [-> | Hj'].
    + cbn. rewrite (proj2 (Z.leb_gt _ _)) by lia. rewrite Hpm, Hcm. exact Hprev.
    + rewrite cut_ext by lia. rewrite Hp' by lia. apply Hkids. lia.
  - intros j Hj. destruct (Z.eq_dec j m) as [-> | Hj'].
    + cbn. rewrite (proj2 (Z.leb_gt _ _)) by lia. rewrite Hkm. exact Hcut.
    + rewrite cut_ext by lia. rewrite Hk' by lia. apply Hkeys. lia.
Qed.

(** The lowest node of the path receiving the new leaf [x]. *)
Lemma bottom_room (pg pg' : page) (lo n n' x : Z) (lp : page) :
  bottom_node c st ap G sl L pg lo n ->
  SBTREE_GET_COUNT pg <= maxInteriorRecordsPerPage c ->
  SBTREE_IS_INTERIOR pg' = true -> SBTREE_GET_COUNT pg' = SBTREE_GET_COUNT pg + 1 ->
  (forall j, j <> SBTREE_GET_COUNT pg -> pg_ptrs pg' j = pg_ptrs pg j) ->
  pg_ptrs pg' (SBTREE_GET_COUNT pg) = x ->
  (forall j, 0 <= j < SBTREE_GET_COUNT pg -> pg_keys pg' j = pg_keys pg j) ->
  (SBTREE_GET_COUNT pg < maxInteriorRecordsPerPage c -> pg_keys pg' (SBTREE_GET_COUNT pg) = sl) ->
  storage_read st x = Some lp -> leaf_ok c G lp n n' -> 1 <= x -> n < n' ->
  key_cut G sl n' sl ->
  bottom_node c st ap G sl L pg' lo n'.
Proof.
  intros (Hint & Hcnt & Hz & cut & Hc0 & Hcm & Hkids & Hkeys) Hm Hint' Hc' Hp' Hpm Hk' Hkm
    Hrd Hleaf Hx Hnn Hcut.
  set (m := SBTREE_GET_COUNT pg) in *.
  split; [exact Hint' |]. rewrite Hc'. split; [lia |].
  split; [intros j Hj; rewrite Hp' by lia; apply Hz; lia |].
  exists (fun j => if j <=? m then cut j else n').
  split; [rewrite cut_ext by lia; exact Hc0 |].
  split; [cbn; rewrite (proj2 (Z.leb_gt _ _)) by lia; reflexivity |].
  split.
  - intros j Hj. rewrite cut_ext by lia.
    destruct (Z.eq_dec j m) as [-> | Hj'].
    + cbn. rewrite (proj2 (Z.leb_gt _ _)) by lia. rewrite Hpm, Hcm.
      split; [exact Hx |]. split; [exact Hnn |]. exists lp. split; [exact Hrd | exact Hleaf].
    + rewrite cut_ext by lia. rewrite Hp' by exact Hj'. apply Hkids. lia.
  - intros j Hj. destruct (Z.eq_dec j m) as [-> | Hj'].
    + cbn. rewrite (proj2 (Z.leb_gt _ _)) by lia. rewrite Hkm by lia. exact Hcut.
    + rewrite cut_ext by lia. rewrite Hk' by lia. apply Hkeys. lia.
Qed.

End Nodes.

(** ** The path when the loop stops at level [l] *)

Section Room.
Variable c : config.
Variables (st : storage) (ap : Z -> Z) (G : list (Z * Z)) (sl L n n' x : Z) (los : Z -> Z).
Hypothesis Hlos0 : los 0 = 0.

Lemma spine_room (l : Z) :
  0 <= l <= L - 1 ->
  (forall j, 0 <= j < l -> exists pg, storage_read st (ap j) = Some pg /\
     upper_node c st ap G sl L j pg (los j) (los (j + 1)) /\ raw_ok pg) ->
  (exists pg, storage_read st (ap l) = Some pg /\ raw_ok pg /\
     (l < L - 1 -> upper_node c st ap G sl L l pg (los l) n) /\
     (l = L - 1 -> bottom_node c st ap G sl L pg (los l) n') /\ 1 <= ap l) ->
  (l < L - 1 -> low_spine c G sl L n n' st ap (l + 1)) ->
  (1 < L -> exists pg, storage_read st (ap 0) = Some pg /\ 1 <= SBTREE_GET_COUNT pg) ->
  spine_at c st ap G sl L n'.
Proof.
  intros Hl Hup (pg & Hrd & Hraw & Hu & Hb & Hap) Hlow Hroot.
  exists (fun j => if j <=? l then los j else n).
  split; [cbn; rewrite (proj2 (Z.leb_le 0 l)) by lia; exact Hlos0 |].
  split; [| split; [| split; [exact Hroot |]]].
  - intros j Hj. cbn.
    destruct (Z.lt_trichotomy j l) as [Hjl | [-> | Hjl]].
    + rewrite (proj2 (Z.leb_le j l)), (proj2 (Z.leb_le (j + 1) l)) by lia. destruct (Hup j ltac:(lia)) as (pg' & H1 & H2 & _). eauto.
    + rewrite Z.leb_refl, (proj2 (Z.leb_gt (l + 1) l)) by lia.
      exists pg. split; [exact Hrd |]. apply Hu. lia.
    + rewrite (proj2 (Z.leb_gt j l)), (proj2 (Z.leb_gt (j + 1) l)) by lia.
      destruct (Hlow ltac:(lia)) as [Hl1 _]. destruct (Hl1 j ltac:(lia)) as (pg' & H1 & H2 & _).
      eauto.
  - cbn. destruct (Z.eq_dec l (L - 1)) as [El | El].
    + rewrite (proj2 (Z.leb_le (L - 1) l)) by lia. rewrite <- El.
      exists pg. split; [exact Hrd |]. split; [apply Hb; exact El | left; exact Hap].
    + rewrite (proj2 (Z.leb_gt (L - 1) l)) by lia.
      destruct (Hlow ltac:(lia)) as [_ (pg' & H1 & H2 & H3 & _)].
      exists pg'. split; [exact H1 |]. split; [exact H2 | left; exact H3].
  - intros j Hj. destruct (Z.lt_trichotomy j l) as [Hjl | [-> | Hjl]].
    + destruct (Hup j ltac:(lia)) as (pg' & H1 & _ & H3). eauto.
    + eauto.
    + destruct (Hlow ltac:(lia)) as [Hl1 (pg' & H1 & _ & _ & H3)].
      destruct (Z.eq_dec j (L - 1)) as [-> | Hj']; [eauto |].
      destruct (Hl1 j ltac:(lia)) as (pg'' & H4 & _ & H5). eauto.
Qed.

End Room.


(** ** Running the update step by step *)

Lemma bind_ret {A B} (v : A) (k : A -> M B) (s : sbtreeState) : bind (ret v) k s = k v s.
Proof. reflexivity. Qed.

Lemma bind_assoc_s {A B C} (m : M A) (k1 : A -> M B) (k2 : B -> M C) (s : sbtreeState) :
  bind (bind m k1) k2 s = bind m (fun a => bind (k1 a) k2) s.
Proof. unfold bind. destruct (m s) as [[a s1] |]; reflexivity. Qed.

Lemma slot0_comp (s1 s2 s3 : sbtreeState) (p q : page) :
  slot0_step s1 s2 p -> slot0_step s2 s3 q -> slot0_step s1 s3 q.
Proof.
  intros (A1 & B1 & C1 & D1 & E1 & F1) (A2 & B2 & C2 & D2 & E2 & F2).
  split; [exact A2 |]. split; [exact (upd_frame_trans _ _ _ B1 B2) |].
  repeat split; congruence.
Qed.

Lemma slot0_start (s : sbtreeState) : slot0_step s s (slots (buffer s) 0).
Proof. split; [reflexivity |]. split; [exact (upd_frame_refl s) |]. repeat split. Qed.

(** [r <- writePage 0 ;; set_ap l (u32 r) ;;; k] after slot-0 steps from [s0]. *)
Lemma write_set {B} (s0 s1 : sbtreeState) (p : page) (l : Z) (k : unit -> M B) :
  slot0_step s0 s1 p -> 0 <= nextPageWriteId (buffer s0) < BUFFER_EMPTY_ID -> clean s0 ->
  exists s2, bind (writePage 0) (fun r => bind (set_ap l (u32 r)) k) s1 = k tt s2 /\
    upd_frame s0 s2 /\
    store (buffer s2) = (nextPageWriteId (buffer s0), set_pg_id p (nextPageId (buffer s1)))
                        :: store (buffer s0) /\
    nextPageWriteId (buffer s2) = nextPageWriteId (buffer s0) + 1 /\
    activePath s2 = upd (activePath s0) l (nextPageWriteId (buffer s0)) /\
    levels s2 = levels s0.
Proof.
  intros (Hp & Hfr & Hst & Hw & Hap & Hlv) Hw0 Hcl.
  assert (Hcl1 : clean s1) by (destruct Hfr as (_ & C & _); auto).
  destruct (writePage0 s1 ltac:(lia) Hcl1) as (s2 & E2 & (Hp2 & Hfr2 & Hst2 & Hw2 & Hap2 & Hlv2)).
  assert (Hu : u32 (nextPageWriteId (buffer s1)) = nextPageWriteId (buffer s0))
    by (rewrite Hw; unfold u32, BUFFER_EMPTY_ID in *; apply Z.mod_small; lia).
  rewrite (bind_ex _ _ _ _ _ E2). cbv beta. rewrite Hu.
  rewrite (bind_ex _ _ _ _ _ (set_ap_eq _ _ _)).
  eexists. split; [reflexivity |].
  split; [exact (upd_frame_trans _ _ _ Hfr (upd_frame_trans _ _ _ Hfr2 (set_ap_frame l _ s2))) |].
  cbn [store buffer activePath levels nextPageWriteId set_activePath].
  rewrite Hst2, Hp2, Hp, Hst, Hw2, Hw, Hap2, Hap, Hlv2, Hlv. repeat split.
Qed.

Ltac acc Hacc Hn :=
  try rewrite (proj1 Hacc) in Hn;
  let H := fresh in pose proof (slot0_comp _ _ _ _ _ Hacc Hn) as H; clear Hacc Hn; rename H into Hacc.

Ltac stp Hacc :=
  match goal with
  | |- context [bind (bind ?m ?k1) ?k2 ?st] => rewrite (bind_assoc_s m k1 k2 st)
  | |- context [bind (ret ?v) ?k ?st] => rewrite (bind_ret v k st); cbv beta
  | |- context [bind (gets ?f) ?k ?st] => rewrite (bind_gets f k st); cbv beta
  | |- context [bind (update_slot 0 ?f) ?k ?st] =>
      let s' := fresh "s" in let E := fresh "E" in let H := fresh "H" in
      destruct (update_slot0 f st) as (s' & E & H); rewrite (bind_ex _ k st _ _ E); cbv beta;
      acc Hacc H
  | |- context [bind (initBufferPage 0) ?k ?st] =>
      let s' := fresh "s" in let E := fresh "E" in let H := fresh "H" in
      destruct (initBufferPage0 st) as (s' & E & H); rewrite (bind_ex _ k st _ _ E); cbv beta;
      acc Hacc H
  end.

Ltac zb := first
  [ apply Z.ltb_lt | apply Z.ltb_ge | apply Z.gtb_lt | apply Z.leb_le | apply Z.leb_gt
  | apply Z.geb_le | apply Z.eqb_eq | apply Z.eqb_neq
  | rewrite Z.gtb_ltb; apply Z.ltb_ge | rewrite Z.geb_leb; apply Z.leb_gt ]; lia.

Lemma stored_below (s : sbtreeState) (q : Z) (pg : page) :
  fresh s -> storage_read (store (buffer s)) q = Some pg -> q < nextPageWriteId (buffer s).
Proof.
  intros Hf Hrd. destruct (Z.lt_ge_cases q (nextPageWriteId (buffer s))) as [| Hge]; [assumption |].
  rewrite (Hf q Hge) in Hrd. discriminate.
Qed.

Lemma low_spine_mv (c : config) G sl L n n' st st' ap ap' k :
  (forall q pg, storage_read st q = Some pg -> storage_read st' q = Some pg) ->
  (forall j, 0 <= j < L -> ap' j = ap j \/ storage_read st (ap' j) = None) ->
  (forall j, k <= j <= L - 1 -> ap' j = ap j) ->
  0 <= k <= L - 1 -> 0 <= n <= n' -> n' <= zlen G ->
  low_spine c G sl L n n' st ap k -> low_spine c G sl L n n' st' ap' k.
Proof.
  intros Hst Hap Hk Hk0 Hn Hn' [Hu (pg & Hrd & Hb & Hp & Hr)]. split.
  - intros j Hj. destruct (Hu j Hj) as (pg' & Hrd' & Hu' & Hr').
    exists pg'. rewrite (Hk j ltac:(lia)). split; [apply Hst; exact Hrd' |].
    split; [| exact Hr']. apply (upper_node_mv c st st' ap ap' G sl L Hst Hap); try lia; exact Hu'.
  - exists pg. rewrite (Hk (L - 1) ltac:(lia)). split; [apply Hst; exact Hrd |].
    split; [| split; [exact Hp | exact Hr]].
    apply (bottom_node_mv c st st' ap ap' G sl L Hst Hap); try lia; exact Hb.
Qed.


Section Loop.
Variable c : config.
Hypothesis HmaxI : 1 <= maxInteriorRecordsPerPage c <= 9998.
Variables (G : list (Z * Z)) (sl L n n' x : Z) (ap1 los : Z -> Z).
Hypothesis HG : sorted_keys G.
Hypothesis Hn : 0 <= n < n'.
Hypothesis Hn' : n' = zlen G.
Hypothesis Hsl : 0 <= sl.
Hypothesis Hkeys : forall q, 0 <= q < zlen G -> fst (rec_at G q) < sl.
Hypothesis HL : 1 <= L.
Hypothesis Hlos0 : los 0 = 0.
Hypothesis Hlos : forall j, 0 <= j <= L - 1 -> 0 <= los j <= n.
Hypothesis Hx : 1 <= x.


Lemma sl_cut : key_cut G sl n' sl.
Proof.
  split; [lia |]. split.
  - intros q Hq. apply Hkeys. lia.
  - intros q Hq. lia.
Qed.

Lemma minkey_cut : key_cut G sl n (fst (rec_at G n)).
Proof.
  destruct HG as [Hs Hr]. split; [| split].
  - specialize (Hr n ltac:(lia)). specialize (Hkeys n ltac:(lia)). lia.
  - intros q Hq. apply Hs; lia.
  - intros q Hq. destruct (Z.eq_dec q n) as [-> | Hne]; [lia |].
    specialize (Hs n q ltac:(lia) ltac:(lia)). lia.
Qed.

Lemma high_down (st st' : storage) (ap ap' : Z -> Z) (l : Z) :
  (forall q pg, storage_read st q = Some pg -> storage_read st' q = Some pg) ->
  (forall j, 0 <= j < L -> ap' j = ap j \/ storage_read st (ap' j) = None) ->
  (forall j, 0 <= j <= l - 1 -> ap' j = ap1 j) ->
  0 <= l <= L - 1 ->
  high_spine c G sl L n ap1 los st ap l -> high_spine c G sl L n ap1 los st' ap' (l - 1).
Proof.
  intros Hst Hap Hap' Hl (H1 & H2 & H3 & H4).
  split; [exact Hap' |]. split; [| split].
  - intros j Hj. destruct (H2 j ltac:(lia)) as (pg & R & U & Rw).
    exists pg. split; [apply Hst; exact R |]. split; [| exact Rw].
    apply (upper_node_mv c st st' ap ap' G sl L Hst Hap); try lia.
    + apply Hlos. lia.
    + specialize (Hlos (j + 1) ltac:(lia)). lia.
    + exact U.
  - intros Hl1. destruct (H2 (l - 1) ltac:(lia)) as (pg & R & U & Rw).
    exists pg. split; [apply Hst; exact R |]. split; [exact Rw |]. split; [| intros; lia].
    intros _. apply (upper_node_mv c st st' ap ap' G sl L Hst Hap); try lia.
    + apply Hlos. lia.
    + specialize (Hlos (l - 1 + 1) ltac:(lia)). lia.
    + exact U.
  - intros HL1 Hl1. destruct (H4 HL1 ltac:(lia)) as (pg & R & C).
    exists pg. split; [apply Hst; exact R | exact C].
Qed.

(** The path once the loop stops at level [l], where the new node [P] is
    written at [W]. *)
Lemma room_final (st st' : storage) (ap ap' : Z -> Z) (l W : Z) (P : page) :
  (forall q pg, storage_read st q = Some pg -> storage_read st' q = Some pg) ->
  (forall j, 0 <= j < L -> ap' j = ap j \/ storage_read st (ap' j) = None) ->
  (forall j, 0 <= j < L -> j <> l -> ap' j = ap j) ->
  ap' l = W -> 1 <= W -> 0 <= l <= L - 1 ->
  high_spine c G sl L n ap1 los st ap l ->
  storage_read st' W = Some P -> raw_ok P ->
  (l < L - 1 -> upper_node c st' ap' G sl L l P (los l) n) ->
  (l = L - 1 -> bottom_node c st' ap' G sl L P (los l) n') ->
  (l < L - 1 -> low_spine c G sl L n n' st ap (l + 1)) ->
  (l = 0 -> 1 < L -> 1 <= SBTREE_GET_COUNT P) ->
  spine_at c st' ap' G sl L n'.
Proof.
  intros Hst Hap Hsame HW HW1 Hl (H1 & H2 & H3 & H4) HrP HrawP Hu Hb Hlow Hroot.
  apply (spine_room c st' ap' G sl L n n' los Hlos0 l Hl).
  - intros j Hj. destruct (H2 j Hj) as (pg & R & U & Rw).
    rewrite (Hsame j ltac:(lia) ltac:(lia)), (H1 j ltac:(lia)).
    exists pg. split; [apply Hst; exact R |]. split; [| exact Rw].
    apply (upper_node_mv c st st' ap ap' G sl L Hst Hap); try lia.
    + apply Hlos. lia.
    + specialize (Hlos (j + 1) ltac:(lia)). lia.
    + exact U.
  - rewrite HW. exists P. split; [exact HrP |]. split; [exact HrawP |].
    split; [exact Hu |]. split; [exact Hb | exact HW1].
  - intros Hl1. apply (low_spine_mv c G sl L n n' st st' ap ap' (l + 1) Hst Hap); try lia.
    + intros j Hj. apply Hsame; lia.
    + apply Hlow. exact Hl1.
  - intros HL1. destruct (Z.eq_dec l 0) as [-> | Hl0].
    + rewrite HW. exists P. split; [exact HrP | apply Hroot; auto].
    + destruct (H4 HL1 ltac:(lia)) as (pg & R & C). exists pg.
      rewrite (Hsame 0 ltac:(lia) ltac:(lia)), (H1 0 ltac:(lia)).
      split; [apply Hst; exact R | exact C].
Qed.

Lemma loop_out_prev (l : Z) (s s7 s' : sbtreeState) (r : Z * Z) (k : Z) :
  upd_frame s s7 -> nextPageWriteId (buffer s7) <= nextPageWriteId (buffer s) + k -> k <= 2 ->
  loop_out c G sl L n n' (l - 1) s7 r s' -> loop_out c G sl L n n' l s r s'.
Proof.
  intros Hfr Hw Hk (F & Lv & W & R). split; [exact (upd_frame_trans _ _ _ Hfr F) |].
  split; [exact Lv |]. split; [lia | exact R].
Qed.

Lemma low_spine_cons (st : storage) (ap : Z -> Z) (k : Z) :
  0 <= k < L - 1 ->
  (exists pg, storage_read st (ap k) = Some pg /\ upper_node c st ap G sl L k pg n n /\ raw_ok pg) ->
  low_spine c G sl L n n' st ap (k + 1) -> low_spine c G sl L n n' st ap k.
Proof.
  intros Hk Hnd [Hu Hb]. split; [| exact Hb].
  intros j Hj. destruct (Z.eq_dec j k) as [-> | Hjk]; [exact Hnd | apply Hu; lia].
Qed.

Lemma inc_facts (Q : page) :
  raw_ok Q -> SBTREE_GET_COUNT Q <= 9998 ->
  raw_ok (SBTREE_INC_COUNT Q) /\ SBTREE_IS_INTERIOR (SBTREE_INC_COUNT Q) = true /\
  SBTREE_GET_COUNT (SBTREE_INC_COUNT Q) = SBTREE_GET_COUNT Q + 1.
Proof.
  intros Hr Hm. destruct (raw_inc Q Hr Hm) as [E1 E2].
  assert (Hr' : raw_ok (SBTREE_INC_COUNT Q)).
  { unfold raw_ok in *. rewrite E1. split; [lia |].
    destruct (Z.eq_dec (pg_count Q) 29999) as [E | E]; [| lia].
    unfold SBTREE_GET_COUNT in Hm. rewrite E in Hm. cbn in Hm. lia. }
  split; [exact Hr' |]. split; [apply raw_interior; exact Hr' | exact E2].
Qed.

Lemma loop_ok (f : nat) : forall l prev pn s,
  f = Z.to_nat (l + 1) -> -1 <= l <= L - 1 ->
  loop_inv c G sl L n n' x ap1 los l prev pn s ->
  exists r s', updateIndex_loop c f (fst (rec_at G n)) sl l prev pn s = Some (r, s') /\
    loop_out c G sl L n n' l s r s'.
Proof.
  induction f as [| f IH]; intros l prev pn s Hf Hl Hinv.
  - assert (l = -1) by lia. subst l. cbn [updateIndex_loop]. exists (-1, prev), s.
    split; [reflexivity |].
    destruct Hinv as (HLv & Hbi & Hco & Hfr & Hw1 & Hbud & Hhigh & Hbot & Hlow).
    destruct (Hlow ltac:(lia)) as (Hsub & Hpn & Hls).
    split; [apply upd_frame_refl |]. split; [exact HLv |]. split; [lia |]. right.
    split; [reflexivity |]. cbn [fst snd].
    replace (-1 + 1) with 0 in Hsub, Hls by lia. rewrite Hlos0 in Hsub.
    replace (L - 1 - -1) with L in Hsub by lia. split; [exact Hsub | exact Hls].
  - assert (Hl0 : 0 <= l) by lia.
    destruct Hinv as (HLv & Hbi & Hco & Hfr & Hw1 & Hbud & Hhigh & Hbot & Hlow).
    assert (Hhigh' := Hhigh). destruct Hhigh' as (Hap1 & Hup & Hcur & Hroot).
    destruct (Hcur Hl0) as (pg & Hrd & Hraw & Hcu & Hcb).
    cbn [updateIndex_loop]. rewrite (proj2 (Z.ltb_ge l 0) Hl0). cbv iota.
    unfold get_ap, slot. rewrite bind_gets. cbv beta. rewrite bind_gets. cbv beta.
    rewrite HLv, (Hap1 l ltac:(lia)).
    destruct (readPageBuffer0 (ap1 l) pg s) as (s2 & E2 & Hacc);
      [exact Hrd |].
    rewrite (bind_ex _ _ _ _ _ E2). cbv beta. rewrite bind_gets. cbv beta zeta.
    rewrite (proj1 Hacc).
    assert (Hm := raw_count pg). set (m := SBTREE_GET_COUNT pg) in *.
    assert (HW0 : 1 <= nextPageWriteId (buffer s) < BUFFER_EMPTY_ID) by lia.
    assert (Hcl : clean s) by (destruct Hbi; assumption).
    assert (Hbelow : forall q pg, storage_read (store (buffer s)) q = Some pg ->
                     q < nextPageWriteId (buffer s)) by (intros q pg0; apply stored_below; exact Hfr).
    destruct (Z.eq_dec l (L - 1)) as [Elb | Elu].
    + (* the lowest interior level *)
      destruct (Hcb Elb) as (Hbn & Hap1pos). destruct (Hbot Elb) as (-> & -> & lp & Hlp & Hleaf).
      assert (Hmb : m <= maxInteriorRecordsPerPage c + 1) by (destruct Hbn as (_ & Hb & _); lia).
      rewrite (proj2 (Z.eqb_eq l (L - 1)) Elb), (proj2 (Z.ltb_ge l (L - 1)) ltac:(lia)).
      cbn [andb orb].
      destruct (Z.eq_dec m (maxInteriorRecordsPerPage c + 1)) as [Ef | Er].
      * (* full: a new lowest node *)
        rewrite (proj2 (Z.gtb_lt m (maxInteriorRecordsPerPage c)) ltac:(lia)). cbn [orb].
        repeat stp Hacc. cbv beta in Hacc.
        rewrite (proj1 (proj2 (proj2 (proj2 (proj2 Hacc))))).
        match goal with |- context [bind (writePage 0) (fun r => bind (set_ap l (u32 r)) ?k) ?st] =>
          destruct (write_set s st _ l k Hacc ltac:(lia) Hcl) as (s9 & E9 & Hfr9 & Hst9 & Hw9 & Hap9 & Hlv9)
        end.
        rewrite E9. stp Hacc.
        set (W := nextPageWriteId (buffer s)) in *.
        match type of Hst9 with _ = (_, ?P) :: _ => set (P9 := P) in Hst9 end.
        assert (HP9c : pg_count P9 = 10001) by reflexivity.
        assert (HrP9 : raw_ok P9) by (unfold raw_ok; rewrite HP9c; lia).
        assert (HgP9 : SBTREE_GET_COUNT P9 = 1) by (unfold SBTREE_GET_COUNT; rewrite HP9c; reflexivity).
        assert (Hpz : forall j, 1 <= j -> pg_ptrs P9 j = 0).
        { intros j Hj. unfold P9. cbn. unfold upd. rewrite (proj2 (Z.eqb_neq j 0)) by lia.
          reflexivity. }
        assert (HrW : storage_read (store (buffer s9)) W = Some P9)
          by (rewrite Hst9; cbn [storage_read]; rewrite Z.eqb_refl; reflexivity).
        assert (Hst' : forall q pg, storage_read (store (buffer s)) q = Some pg ->
                       storage_read (store (buffer s9)) q = Some pg)
          by (intros q pg0; apply (frame_read s s9 q pg0 Hfr Hfr9)).
        assert (HaW : activePath s9 l = W) by (rewrite Hap9; unfold upd; rewrite Z.eqb_refl; reflexivity).
        assert (Hap' : forall j, 0 <= j < L -> activePath s9 j = activePath s j \/
                       storage_read (store (buffer s)) (activePath s9 j) = None).
        { intros j Hj. rewrite Hap9. unfold upd. destruct (Z.eqb_spec j l).
          - right. apply Hfr. lia.
          - left. reflexivity. }
        rewrite HaW, (Hap1 l ltac:(lia)).
        destruct (IH (l - 1) (ap1 l) W s9 ltac:(lia) ltac:(lia)) as (r & s' & Er & Hout).
        { unfold loop_inv.
          split; [rewrite Hlv9; exact HLv |].
          split; [exact (frame_buf_inv c s s9 Hbi Hfr9) |].
          split; [exact (frame_coherent c s s9 Hfr Hco Hfr9) |].
          split; [exact (frame_fresh s s9 Hfr Hfr9) |].
          split; [lia |]. split; [lia |]. split.
          { apply (high_down (store (buffer s)) _ (activePath s) _ l Hst' Hap'); [| lia | exact Hhigh].
            intros j Hj. rewrite Hap9. unfold upd. rewrite (proj2 (Z.eqb_neq j l)) by lia.
            apply Hap1. lia. }
          split; [intros; lia |].
          intros _. replace (l - 1 + 1) with l by lia. split; [| split].
          - replace (Z.to_nat (L - 1 - (l - 1))) with 1%nat by lia.
            pose proof (close_bottom c HmaxI (store (buffer s9)) (activePath s9) G sl L pg (ap1 l)
              (los l) n) as CB.
            replace (L - 1) with l in CB by lia. apply CB.
            + apply (bottom_node_mv c (store (buffer s)) (store (buffer s9)) (activePath s)
                (activePath s9) G sl L Hst' Hap'); try lia; [apply Hlos; lia | exact Hbn].
            + exact Ef.
            + apply Hst'. exact Hrd.
            + destruct Hap1pos; lia.
            + rewrite HaW. specialize (Hbelow _ _ Hrd). lia.
          - symmetry. exact HaW.
          - split; [intros j Hj; lia |].
            rewrite <- Elb, HaW. exists P9. split; [exact HrW |]. split; [| split; [lia | exact HrP9]].
            exact (bottom_one c HmaxI _ _ G sl L P9 x n n' lp (raw_interior P9 HrP9) HgP9
              eq_refl Hpz eq_refl (Hst' _ _ Hlp) Hleaf Hx (proj2 Hn) sl_cut). }
        exists r, s'. split; [exact Er |].
        apply (loop_out_prev l s s9 s' r 1 Hfr9 ltac:(lia) ltac:(lia) Hout).
      * (* room: the new leaf joins the lowest node *)
        assert (B1 : (m >? maxInteriorRecordsPerPage c) = false)
          by (rewrite Z.gtb_ltb; apply Z.ltb_ge; lia).
        assert (B2 : ((l =? 0) && (L >? 1)) = false).
        { destruct (Z.eqb_spec l 0); [| reflexivity]. rewrite Z.gtb_ltb. apply Z.ltb_ge. lia. }
        rewrite B1, B2, Z.eqb_refl. cbn [orb andb negb].
        assert (HmQ : m <= 9998) by lia.
        destruct (Z.ltb_spec m (maxInteriorRecordsPerPage c)) as [Hlt | Hge].
        all: cbv beta iota.
        all: repeat stp Hacc.
        all: cbv beta in Hacc.
        all: (match goal with |- context [bind (writePage 0) (fun r => bind (set_ap ?lv (u32 r)) ?k) ?st] =>
            destruct (write_set s st _ lv k Hacc ltac:(lia) Hcl) as (s9 & E9 & Hfr9 & Hst9 & Hw9 & Hap9 & Hlv9)
          end).
        all: rewrite E9.
        all: set (W := nextPageWriteId (buffer s)) in *.
        all: (match type of Hst9 with _ = (_, set_pg_id (SBTREE_INC_COUNT ?Q) ?pid) :: _ =>
             set (P9 := set_pg_id (SBTREE_INC_COUNT Q) pid) in Hst9;
             assert (HrQ : raw_ok Q) by exact Hraw;
             assert (HgQ : SBTREE_GET_COUNT Q = m) by reflexivity;
             assert (HpQ : pg_ptrs Q = upd (pg_ptrs pg) m x) by reflexivity;
             destruct (inc_facts Q HrQ ltac:(lia)) as (HrP9 & HiP9 & HgP9);
             change (raw_ok P9) in HrP9; change (SBTREE_IS_INTERIOR P9 = true) in HiP9;
             change (SBTREE_GET_COUNT P9 = SBTREE_GET_COUNT Q + 1) in HgP9; rewrite HgQ in HgP9;
             change (pg_ptrs P9 = upd (pg_ptrs pg) m x) in HpQ
           end).
        all: exists (l, ID_NONE), s9; split; [reflexivity |].
        all: assert (HrW : storage_read (store (buffer s9)) W = Some P9)
          by (rewrite Hst9; cbn [storage_read]; rewrite Z.eqb_refl; reflexivity).
        all: assert (Hst' : forall q pg, storage_read (store (buffer s)) q = Some pg ->
                       storage_read (store (buffer s9)) q = Some pg)
          by (intros q pg0; apply (frame_read s s9 q pg0 Hfr Hfr9)).
        all: assert (HaW : activePath s9 l = W)
          by (rewrite Hap9; unfold upd; rewrite Z.eqb_refl; reflexivity).
        all: assert (Hsame : forall j, 0 <= j < L -> j <> l -> activePath s9 j = activePath s j)
          by (intros j Hj Hjl; rewrite Hap9; unfold upd; rewrite (proj2 (Z.eqb_neq j l) Hjl);
              reflexivity).
        all: assert (Hap' : forall j, 0 <= j < L -> activePath s9 j = activePath s j \/
                       storage_read (store (buffer s)) (activePath s9 j) = None)
          by (intros j Hj; destruct (Z.eq_dec j l) as [-> | Hjl];
              [right; rewrite HaW; apply Hfr; lia | left; apply Hsame; assumption]).
        all: assert (Hpt : forall j, j <> m -> pg_ptrs P9 j = pg_ptrs pg j)
          by (intros j Hj; rewrite HpQ; unfold upd; rewrite (proj2 (Z.eqb_neq j m) Hj); reflexivity).
        all: assert (Hpm : pg_ptrs P9 m = x) by (rewrite HpQ; unfold upd; rewrite Z.eqb_refl; reflexivity).
        all: split; [exact Hfr9 |]; split; [rewrite Hlv9; exact HLv |]; split; [lia |];
          left; split; [cbn; lia |].
        all: apply (room_final (store (buffer s)) (store (buffer s9)) (activePath s) (activePath s9)
                      l W P9 Hst' Hap' Hsame HaW ltac:(lia) ltac:(lia) Hhigh HrW HrP9);
          [intros; lia | intros _ | intros; lia | intros; lia].
        all: apply (bottom_room c _ _ G sl L pg P9 (los l) n n' x lp); try assumption.
        all: try (apply (bottom_node_mv c (store (buffer s)) (store (buffer s9)) (activePath s)
                (activePath s9) G sl L Hst' Hap'); try lia; [apply Hlos; lia | exact Hbn]).
        all: try (apply Hst'; exact Hlp).
        all: try exact (proj2 Hn).
        all: try exact sl_cut.
        all: try lia.
        all: change (SBTREE_GET_COUNT pg) with m.
        all: try (intros j Hj; reflexivity).
        all: try (intros j Hj; unfold P9; cbn [pg_keys set_pg_id SBTREE_INC_COUNT set_pg_count set_ptr set_key];
                  unfold upd; rewrite (proj2 (Z.eqb_neq j m)) by lia; reflexivity).
        all: try (intros _; unfold P9; cbn [pg_keys set_pg_id SBTREE_INC_COUNT set_pg_count set_ptr set_key];
                  unfold upd; rewrite Z.eqb_refl; reflexivity).
    + (* an interior level *)
      assert (Hlu : l < L - 1) by lia.
      specialize (Hcu Hlu). destruct (Hlow Hlu) as (Hsub & Hpn & Hls).
      assert (Hmb : m <= maxInteriorRecordsPerPage c) by (destruct Hcu as (_ & Hb & _); lia).
      assert (Hprev : 1 <= prev < nextPageWriteId (buffer s)).
      { destruct (sub_ok_lt _ _ _ _ _ _ _ _ _ _ Hsub) as [Hp1 _].
        destruct (sub_ok_read _ _ _ _ _ _ _ _ _ _ Hsub) as (pp & Hpp).
        specialize (Hbelow _ _ Hpp). lia. }
      assert (Hnone : (prev =? ID_NONE) = false)
        by (apply Z.eqb_neq; unfold ID_NONE, u32, BUFFER_EMPTY_ID in *; cbn; lia).
      assert (B1 : (m >? maxInteriorRecordsPerPage c) = false)
        by (rewrite Z.gtb_ltb; apply Z.ltb_ge; lia).
      rewrite (proj2 (Z.eqb_neq l (L - 1)) Elu), (proj2 (Z.ltb_lt l (L - 1)) Hlu), Hnone, B1.
      cbn [andb orb negb].
      assert (Hst_up : forall st' ap', (forall q pg, storage_read (store (buffer s)) q = Some pg ->
                  storage_read st' q = Some pg) ->
                (forall j, 0 <= j < L -> ap' j = activePath s j \/
                  storage_read (store (buffer s)) (ap' j) = None) ->
                upper_node c st' ap' G sl L l pg (los l) (los (l + 1)) /\
                sub_ok c st' ap' G sl (l + 1) (Z.to_nat (L - 1 - l)) prev (los (l + 1)) n).
      { intros st' ap' Hs' Ha'. split.
        - apply (upper_node_mv c _ _ _ _ G sl L Hs' Ha'); try lia; [apply Hlos; lia | | exact Hcu].
          specialize (Hlos (l + 1) ltac:(lia)). lia.
        - apply (sub_ok_mv c _ _ _ _ G sl L Hs' Ha'); try lia; [apply Hlos; lia | exact Hsub]. }
      destruct (Z.eq_dec m (maxInteriorRecordsPerPage c)) as [Ef | Er].
      * (* full: close the node, start an empty one *)
        rewrite (proj2 (Z.geb_le m (maxInteriorRecordsPerPage c)) ltac:(lia)). cbv iota.
        repeat stp Hacc. cbv beta in Hacc.
        match goal with |- context [bind (writePage 0) (fun r => bind (set_ap ?lv (u32 r)) ?k) ?st] =>
          destruct (write_set s st _ lv k Hacc ltac:(lia) Hcl) as (s4 & E4 & Hfr4 & Hst4 & Hw4 & Hap4 & Hlv4)
        end.
        rewrite E4. clear Hacc. pose proof (slot0_start s4) as Hacc.
        repeat stp Hacc. cbv beta in Hacc.
        rewrite (proj1 (proj2 (proj2 (proj2 (proj2 Hacc))))).
        set (W := nextPageWriteId (buffer s)) in *.
        assert (Hcl4 : clean s4) by (destruct Hfr4 as (_ & C & _); auto).
        match goal with |- context [bind (writePage 0) (fun r => bind (set_ap ?lv (u32 r)) ?k) ?st] =>
          destruct (write_set s4 st _ lv k Hacc ltac:(lia) Hcl4) as (s7 & E7 & Hfr7 & Hst7 & Hw7 & Hap7 & Hlv7)
        end.
        rewrite E7. stp Hacc.
        match type of Hst4 with _ = (_, ?P) :: _ => set (P1 := P) in Hst4 end.
        match type of Hst7 with _ = (_, ?P) :: _ => set (P2 := P) in Hst7 end.
        assert (Hfr' : upd_frame s s7) by exact (upd_frame_trans _ _ _ Hfr4 Hfr7).
        assert (Hst' : forall q pg, storage_read (store (buffer s)) q = Some pg ->
                       storage_read (store (buffer s7)) q = Some pg)
          by (intros q pg0; apply (frame_read s s7 q pg0 Hfr Hfr')).
        assert (Ha7 : forall j, activePath s7 j = if j =? l then W + 1 else activePath s j).
        { intros j. rewrite Hap7, Hw4, Hap4. unfold upd. destruct (j =? l); reflexivity. }
        assert (Ha4 : activePath s4 l = W) by (rewrite Hap4; unfold upd; rewrite Z.eqb_refl; reflexivity).
        assert (Hap' : forall j, 0 <= j < L -> activePath s7 j = activePath s j \/
                       storage_read (store (buffer s)) (activePath s7 j) = None).
        { intros j Hj. rewrite Ha7. destruct (Z.eqb_spec j l).
          - right. apply Hfr. lia.
          - left. reflexivity. }
        assert (HrW1 : storage_read (store (buffer s7)) (W + 1) = Some P2)
          by (rewrite Hst7, Hw4; cbn [storage_read]; rewrite Z.eqb_refl; reflexivity).
        assert (HrW : storage_read (store (buffer s7)) W = Some P1).
        { rewrite Hst7, Hw4. cbn [storage_read]. rewrite (proj2 (Z.eqb_neq (W + 1) W)) by lia.
          rewrite Hst4. cbn [storage_read]. rewrite Z.eqb_refl. reflexivity. }
        assert (HP2c : pg_count P2 = 10000) by reflexivity.
        assert (HrP2 : raw_ok P2) by (unfold raw_ok; rewrite HP2c; lia).
        assert (HgP2 : SBTREE_GET_COUNT P2 = 0) by (unfold SBTREE_GET_COUNT; rewrite HP2c; reflexivity).
        rewrite Ha4, Ha7, Z.eqb_refl.
        destruct (Hst_up _ _ Hst' Hap') as (Hun' & Hsub').
        assert (Hls' : low_spine c G sl L n n' (store (buffer s7)) (activePath s7) (l + 1)).
        { apply (low_spine_mv c G sl L n n' _ _ _ _ (l + 1) Hst' Hap'); try lia; [| exact Hls].
          intros j Hj. rewrite Ha7, (proj2 (Z.eqb_neq j l)) by lia. reflexivity. }
        destruct (IH (l - 1) W (W + 1) s7 ltac:(lia) ltac:(lia)) as (r & s' & Er & Hout).
        { unfold loop_inv.
          split; [rewrite Hlv7, Hlv4; exact HLv |].
          split; [exact (frame_buf_inv c s s7 Hbi Hfr') |].
          split; [exact (frame_coherent c s s7 Hfr Hco Hfr') |].
          split; [exact (frame_fresh s s7 Hfr Hfr') |].
          split; [lia |]. split; [lia |]. split.
          { apply (high_down (store (buffer s)) _ (activePath s) _ l Hst' Hap'); [| lia | exact Hhigh].
            intros j Hj. rewrite Ha7, (proj2 (Z.eqb_neq j l)) by lia. apply Hap1. lia. }
          split; [intros; lia |].
          intros _. replace (l - 1 + 1) with l by lia. split; [| split].
          - replace (L - 1 - (l - 1)) with (L - l) by lia.
            apply (close_upper c HmaxI _ _ G sl L l pg P1 W (los l) (los (l + 1)) n prev ltac:(lia) Hun' Ef
                     HrW eq_refl eq_refl); try assumption; try lia.
            + intros j Hj. unfold P1. cbn [pg_ptrs set_pg_id set_ptr]. unfold upd.
              rewrite (proj2 (Z.eqb_neq j m)) by lia. reflexivity.
            + unfold P1. cbn [pg_ptrs set_pg_id set_ptr]. unfold upd. rewrite Ef, Z.eqb_refl.
              reflexivity.
            + rewrite Ha7, Z.eqb_refl. lia.
          - rewrite Ha7, Z.eqb_refl. reflexivity.
          - apply low_spine_cons; [lia | | exact Hls'].
            rewrite Ha7, Z.eqb_refl. exists P2. split; [exact HrW1 |]. split; [| exact HrP2].
            apply (upper_zero c HmaxI); [apply raw_interior; exact HrP2 | exact HgP2]. }
        exists r, s'. split; [exact Er |].
        apply (loop_out_prev l s s7 s' r 2 Hfr' ltac:(lia) ltac:(lia) Hout).
      * (* room: the completed child joins the node *)
        rewrite Z.geb_leb, (proj2 (Z.leb_gt (maxInteriorRecordsPerPage c) m) ltac:(lia)).
        rewrite (proj2 (Z.ltb_lt m (maxInteriorRecordsPerPage c)) ltac:(lia)).
        cbv iota.
        assert (HmQ : m <= 9998) by lia.
        destruct (Z.eq_dec l 0) as [El0 | En0].
        1: (destruct (Hroot ltac:(lia) Hl0) as (pg0 & Hr0 & Hc0);
          rewrite <- El0, Hrd in Hr0; injection Hr0 as <-;
          rewrite (proj2 (Z.eqb_eq l 0) El0), (proj2 (Z.gtb_lt L 1) ltac:(lia)),
            (proj2 (Z.gtb_lt m 0) ltac:(lia));
          cbn [andb]; cbv iota; repeat stp Hacc).
        2: (rewrite (proj2 (Z.eqb_neq l 0) En0); cbn [andb]; cbv iota; repeat stp Hacc).
        all: cbv beta in Hacc.
        all: (match goal with |- context [bind (writePage 0) (fun r => bind (set_ap ?lv (u32 r)) ?k) ?st] =>
            destruct (write_set s st _ lv k Hacc ltac:(lia) Hcl) as (s9 & E9 & Hfr9 & Hst9 & Hw9 & Hap9 & Hlv9)
          end).
        all: rewrite E9.
        all: set (W := nextPageWriteId (buffer s)) in *.
        all: (match type of Hst9 with _ = (_, set_pg_id (SBTREE_INC_COUNT ?Q) ?pid) :: _ =>
             set (P9 := set_pg_id (SBTREE_INC_COUNT Q) pid) in Hst9;
             assert (HrQ : raw_ok Q) by exact Hraw;
             assert (HgQ : SBTREE_GET_COUNT Q = m) by reflexivity;
             assert (HkQ : pg_keys Q = upd (pg_keys pg) m (fst (rec_at G n))) by reflexivity;
             destruct (inc_facts Q HrQ ltac:(lia)) as (HrP9 & HiP9 & HgP9);
             change (raw_ok P9) in HrP9; change (SBTREE_IS_INTERIOR P9 = true) in HiP9;
             change (SBTREE_GET_COUNT P9 = SBTREE_GET_COUNT Q + 1) in HgP9; rewrite HgQ in HgP9;
             change (pg_keys P9 = upd (pg_keys pg) m (fst (rec_at G n))) in HkQ
           end).
        all: assert (Hpt : forall j, 0 <= j < m -> pg_ptrs P9 j = pg_ptrs pg j)
          by (intros j Hj; unfold P9; cbn [pg_ptrs set_pg_id SBTREE_INC_COUNT set_pg_count set_ptr set_key];
              unfold upd; rewrite (proj2 (Z.eqb_neq j m)), (proj2 (Z.eqb_neq j (m + 1))) by lia;
              reflexivity).
        all: assert (Hpm : pg_ptrs P9 m = prev)
          by (unfold P9; cbn [pg_ptrs set_pg_id SBTREE_INC_COUNT set_pg_count set_ptr set_key];
              unfold upd; rewrite ?Z.eqb_refl; rewrite ?(proj2 (Z.eqb_neq m (m + 1))) by lia;
              reflexivity).
        all: exists (l, prev), s9; split; [reflexivity |].
        all: assert (HrW : storage_read (store (buffer s9)) W = Some P9)
          by (rewrite Hst9; cbn [storage_read]; rewrite Z.eqb_refl; reflexivity).
        all: assert (Hst' : forall q pg, storage_read (store (buffer s)) q = Some pg ->
                       storage_read (store (buffer s9)) q = Some pg)
          by (intros q pg0; apply (frame_read s s9 q pg0 Hfr Hfr9)).
        all: assert (HaW : activePath s9 l = W)
          by (rewrite Hap9; unfold upd; rewrite Z.eqb_refl; reflexivity).
        all: assert (Hsame : forall j, 0 <= j < L -> j <> l -> activePath s9 j = activePath s j)
          by (intros j Hj Hjl; rewrite Hap9; unfold upd; rewrite (proj2 (Z.eqb_neq j l) Hjl);
              reflexivity).
        all: assert (Hap' : forall j, 0 <= j < L -> activePath s9 j = activePath s j \/
                       storage_read (store (buffer s)) (activePath s9 j) = None)
          by (intros j Hj; destruct (Z.eq_dec j l) as [-> | Hjl];
              [right; rewrite HaW; apply Hfr; lia | left; apply Hsame; assumption]).
        all: destruct (Hst_up _ _ Hst' Hap') as (Hun' & Hsub').
        all: split; [exact Hfr9 |]; split; [rewrite Hlv9; exact HLv |]; split; [lia |];
          left; split; [cbn; lia |].
        all: apply (room_final (store (buffer s)) (store (buffer s9)) (activePath s) (activePath s9)
                      l W P9 Hst' Hap' Hsame HaW ltac:(lia) ltac:(lia) Hhigh HrW HrP9);
          [intros _ | intros; lia | intros _; exact Hls | intros; lia].
        all: apply (upper_room c _ _ G sl L l pg P9 (los l) (los (l + 1)) n prev (fst (rec_at G n))
                      Hun' ltac:(lia) HiP9 HgP9 Hpt Hpm); [| | exact Hsub' | exact minkey_cut].
        all: intros; rewrite HkQ; unfold upd.
        all: try (rewrite (proj2 (Z.eqb_neq j m)) by lia; reflexivity).
        all: rewrite Z.eqb_refl; reflexivity.
Qed.

End Loop.


(** ** The root overflow *)

Lemma shift_ok (k : nat) : forall l s, exists s',
  shift_activePath k l s = Some (tt, s') /\ buffer s' = buffer s /\ levels s' = levels s /\
  forall j, activePath s' j =
    if (l - Z.of_nat k <? j) && (j <=? l) then activePath s (j - 1) else activePath s j.
Proof.
  induction k as [| k IH]; intros l s.
  - exists s. split; [reflexivity |]. split; [reflexivity |]. split; [reflexivity |].
    intros j. destruct (Z.ltb_spec (l - Z.of_nat 0) j), (Z.leb_spec j l);
      cbn [andb]; try reflexivity; lia.
  - cbn [shift_activePath]. unfold get_ap. rewrite bind_gets. cbv beta.
    rewrite (bind_ex _ _ _ _ _ (set_ap_eq l _ s)). cbv beta.
    destruct (IH (l - 1) (set_activePath s (upd (activePath s) l (activePath s (l - 1)))))
      as (s' & E & B & Lv & A).
    exists s'. split; [exact E |]. split; [exact B |]. split; [exact Lv |].
    intros j. rewrite A. unfold set_activePath. cbn [activePath]. unfold upd.
    destruct (Z.ltb_spec (l - 1 - Z.of_nat k) j), (Z.leb_spec j (l - 1)),
      (Z.ltb_spec (l - Z.of_nat (S k)) j), (Z.leb_spec j l),
      (Z.eqb_spec (j - 1) l), (Z.eqb_spec j l); cbn [andb]; subst; try reflexivity; try lia.
Qed.

Lemma upd_frame_buf (s s' s'' : sbtreeState) :
  upd_frame s s' -> buffer s'' = buffer s' -> upd_frame s s''.
Proof. intros H E. unfold upd_frame, clean in *. rewrite E. exact H. Qed.

Lemma zlen_nil {A} : zlen (@nil A) = 0.
Proof. reflexivity. Qed.

(** The old spine read against the longer record list. *)
Section Extend.
Variable c : config.
Variables (st : storage) (ap : Z -> Z) (G E : list (Z * Z)) (sl sl' L : Z).
Hypothesis HE : forall q, 0 <= q < zlen E -> sl <= fst (rec_at E q).
Hypothesis Hsl : sl <= sl'.

Let Hst0 : forall q pg, storage_read st q = Some pg -> storage_read st q = Some pg.
Proof. auto. Qed.
Let Hap0 : forall l, 0 <= l < L -> ap (l + 0) = ap l \/ storage_read st (ap (l + 0)) = None.
Proof. intros l _. left. rewrite Z.add_0_r. reflexivity. Qed.

Lemma upper_node_ext (l : Z) (pg : page) (lo P : Z) :
  0 <= l < L -> 0 <= lo -> P <= zlen G ->
  upper_node c st ap G sl L l pg lo P -> upper_node c st ap (G ++ E) sl' L l pg lo P.
Proof.
  intros Hl Hlo HP H.
  pose proof (upper_node_tr c st st ap ap G E sl sl' 0 L Hst0 Hap0 HE Hsl L l pg lo P
    Hl (Z.le_refl L) Hlo HP H) as T.
  rewrite !Z.add_0_r in T. exact T.
Qed.

Lemma bottom_node_ext (pg : page) (lo hi : Z) :
  0 <= L -> 0 <= lo -> hi <= zlen G ->
  bottom_node c st ap G sl L pg lo hi -> bottom_node c st ap (G ++ E) sl' L pg lo hi.
Proof.
  intros HL Hlo Hhi H.
  pose proof (bottom_node_tr c st st ap ap G E sl sl' 0 L Hst0 Hap0 HE Hsl L pg lo hi
    ltac:(lia) Hlo Hhi H) as T.
  rewrite Z.add_0_r in T. exact T.
Qed.

End Extend.

(** The spine moved one level down under a new root. *)
Section Lift.
Variable c : config.
Variables (st st' : storage) (ap ap' : Z -> Z) (G : list (Z * Z)) (sl L : Z).
Hypothesis Hst : forall q pg, storage_read st q = Some pg -> storage_read st' q = Some pg.
Hypothesis Hap : forall j, 0 <= j < L -> ap' (j + 1) = ap j.

Let Hap1 : forall l, 0 <= l < L -> ap' (l + 1) = ap l \/ storage_read st (ap' (l + 1)) = None.
Proof. intros l Hl. left. apply Hap. exact Hl. Qed.
Let HE0 : forall q, 0 <= q < zlen (@nil (Z * Z)) -> sl <= fst (rec_at [] q).
Proof. intros q Hq. unfold zlen in Hq. cbn in Hq. lia. Qed.

Lemma sub_ok_lift (h : nat) (l p lo hi : Z) :
  0 <= l -> l + Z.of_nat h <= L -> 0 <= lo -> hi <= zlen G ->
  sub_ok c st ap G sl l h p lo hi -> sub_ok c st' ap' G sl (l + 1) h p lo hi.
Proof.
  intros Hl HL Hlo Hhi H.
  pose proof (sub_ok_tr c st st' ap ap' G [] sl sl 1 L Hst Hap1 HE0 (Z.le_refl sl) h l p lo hi
    Hl HL Hlo Hhi H) as T.
  rewrite app_nil_r in T. exact T.
Qed.

Lemma upper_node_lift (l : Z) (pg : page) (lo P : Z) :
  0 <= l < L -> 0 <= lo -> P <= zlen G ->
  upper_node c st ap G sl L l pg lo P -> upper_node c st' ap' G sl (L + 1) (l + 1) pg lo P.
Proof.
  intros Hl Hlo HP H.
  pose proof (upper_node_tr c st st' ap ap' G [] sl sl 1 L Hst Hap1 HE0 (Z.le_refl sl) L l pg lo P
    Hl (Z.le_refl L) Hlo HP H) as T.
  rewrite app_nil_r in T. exact T.
Qed.

Lemma bottom_node_lift (pg : page) (lo hi : Z) :
  0 <= L -> 0 <= lo -> hi <= zlen G ->
  bottom_node c st ap G sl L pg lo hi -> bottom_node c st' ap' G sl (L + 1) pg lo hi.
Proof.
  intros HL Hlo Hhi H.
  pose proof (bottom_node_tr c st st' ap ap' G [] sl sl 1 L Hst Hap1 HE0 (Z.le_refl sl) L pg lo hi
    ltac:(lia) Hlo Hhi H) as T.
  rewrite app_nil_r in T. exact T.
Qed.

End Lift.

Section Update.
Variable c : config.
Hypothesis HmaxI : 1 <= maxInteriorRecordsPerPage c <= 9998.

Lemma level_bound (st : storage) (ap : Z -> Z) (G : list (Z * Z)) (sl L p n : Z) :
  sub_ok c st ap G sl 0 (Z.to_nat L) p 0 n -> 0 <= L -> n <= zlen G -> sorted_keys G -> L <= 30.
Proof.
  intros H HL Hn HG. assert (Hs := sub_ok_size c ltac:(lia) _ _ _ _ _ _ _ _ _ H).
  rewrite Z2Nat.id in Hs by lia. assert (Hl := sorted_len G HG).
  destruct (Z.le_gt_cases L 30) as [| Hgt]; [assumption |].
  assert (Hp : 2 ^ 31 <= 2 ^ L) by (apply Z.pow_le_mono_r; lia). lia.
Qed.

(** [sbtreeUpdateIndex] adds the leaf [x], holding the records [E], to the
    index of [G]. *)
Lemma update_ok (G E : list (Z * Z)) (sl sl' x : Z) (lp : page) (s : sbtreeState) :
  buf_inv c s -> coherent c s -> fresh s ->
  1 <= nextPageWriteId (buffer s) ->
  nextPageWriteId (buffer s) + 2 * levels s + 1 <= BUFFER_EMPTY_ID ->
  1 <= levels s -> 2 ^ (levels s - 1) <= Z.max 1 (zlen G) ->
  spine_ok c (store (buffer s)) (activePath s) G sl (levels s) ->
  storage_read (store (buffer s)) x = Some lp ->
  leaf_ok c (G ++ E) lp (zlen G) (zlen G + zlen E) -> 1 <= x -> 0 < zlen E ->
  sorted_keys (G ++ E) -> 0 <= sl -> sl <= sl' -> sl' <= 2 ^ 31 - 1 ->
  (forall q, 0 <= q < zlen G -> fst (rec_at G q) < sl) ->
  (forall q, 0 <= q < zlen E -> sl <= fst (rec_at E q) < sl') ->
  exists s', sbtreeUpdateIndex c (fst (rec_at (G ++ E) (zlen G))) sl' x s = Some (0, s') /\
    upd_frame s s' /\ nextPageWriteId (buffer s') <= nextPageWriteId (buffer s) + 2 * levels s + 1 /\
    1 <= levels s' /\ 2 ^ (levels s' - 1) <= Z.max 1 (zlen (G ++ E)) /\
    spine_ok c (store (buffer s')) (activePath s') (G ++ E) sl' (levels s').
Proof.
  intros Hbi Hco Hfr Hw1 Hbud HL1 HLb Hsp Hrx Hleaf Hx1 HE0 HGs Hsl0 Hsl Hsl' HkG HkE.
  set (L := levels s) in *. set (n := zlen G) in *. set (Gn := G ++ E) in *.
  assert (HnGn : zlen Gn = n + zlen E) by apply zlen_app.
  assert (Hn0 : 0 <= n) by (unfold n, zlen; lia).
  destruct Hsp as (los & Hlos0 & Hup & (bp & Hbr & Hbn & Hbpos) & Hroot & Hraw).
  assert (Hlr := los_range c _ _ G sl L los Hlos0 Hup (ex_intro _ bp (conj Hbr Hbn))).
  fold n in Hlr.
  assert (HE : forall q, 0 <= q < zlen E -> sl <= fst (rec_at E q)) by (intros q Hq; apply HkE; exact Hq).
  assert (Hkeys : forall q, 0 <= q < zlen Gn -> fst (rec_at Gn q) < sl').
  { intros q Hq. unfold Gn. destruct (Z.lt_ge_cases q n).
    - rewrite rec_at_app_l by (unfold n in *; lia). specialize (HkG q ltac:(unfold n in *; lia)). lia.
    - rewrite rec_at_app_r by (unfold n in *; lia). apply HkE. lia. }
  unfold sbtreeUpdateIndex. rewrite bind_gets. cbv beta. fold L.
  assert (Hinv : loop_inv c Gn sl' L n (zlen Gn) x (activePath s) los (L - 1) ID_NONE x s).
  { split; [reflexivity |]. split; [exact Hbi |]. split; [exact Hco |]. split; [exact Hfr |].
    split; [exact Hw1 |]. split; [lia |]. split.
    - split; [reflexivity |]. split; [| split].
      + intros j Hj. destruct (Hup j Hj) as (pg & R & U). destruct (Hraw j ltac:(lia)) as (pg' & R' & Rw).
        rewrite R in R'. injection R' as <-. exists pg. split; [exact R |]. split; [| exact Rw].
        apply (upper_node_ext c _ _ G E sl sl' L HE Hsl); try lia; [apply Hlr; lia | | exact U].
        specialize (Hlr (j + 1) ltac:(lia)). lia.
      + intros _. destruct (Hraw (L - 1) ltac:(lia)) as (pg' & R' & Rw).
        rewrite Hbr in R'. injection R' as <-. exists bp. split; [exact Hbr |]. split; [exact Rw |].
        split; [intros; lia |]. intros _. split; [| exact Hbpos].
        apply (bottom_node_ext c _ _ G E sl sl' L HE Hsl); try lia; [apply Hlr; lia | exact Hbn].
      + intros H1 _. exact (Hroot H1).
    - split; [| intros; lia]. intros _. split; [reflexivity |]. split; [reflexivity |].
      exists lp. split; [exact Hrx |]. rewrite HnGn. exact Hleaf. }
  destruct (loop_ok c HmaxI Gn sl' L n (zlen Gn) x (activePath s) los HGs ltac:(lia) eq_refl
    ltac:(lia) Hkeys HL1 Hlos0 Hlr Hx1 (Z.to_nat L) (L - 1) ID_NONE x s ltac:(f_equal; lia) ltac:(lia) Hinv)
    as (r & s1 & Er & Hout).
  rewrite (bind_ex _ _ _ _ _ Er). cbv beta. destruct r as [l prevP]. cbv iota.
  destruct Hout as (Hfr1 & Hlv1 & Hw1' & [[Hl0 Hsp1] | (Hl & Hsub & Hlow)]); cbn [fst snd] in *.
  - (* the loop stopped at a level with room *)
    rewrite (proj2 (Z.eqb_neq l (-1)) ltac:(lia)). rewrite bind_ret.
    exists s1. split; [reflexivity |]. split; [exact Hfr1 |]. split; [lia |].
    rewrite Hlv1. split; [exact HL1 |]. split; [| exact Hsp1].
    rewrite HnGn. lia.
  - (* every level was full: a new root *)
    subst l. rewrite Z.eqb_refl. unfold get_ap.
    pose proof (slot0_start s1) as Hacc.
    repeat stp Hacc. cbv beta in Hacc.
    destruct Hacc as (Hp6 & Hfr6 & Hst6 & Hw6 & Hap6 & Hlv6).
    rewrite Hlv6, Hlv1.
    destruct (shift_ok (Z.to_nat L) L s6) as (s7 & E7 & B7 & Lv7 & A7).
    rewrite (bind_ex _ _ _ _ _ E7). cbv beta. rewrite bind_assoc_s.
    assert (Hfw1 : fresh s1) by exact (frame_fresh s s1 Hfr Hfr1).
    assert (Hcl1 : clean s1) by (destruct Hbi as [Hc _]; destruct Hfr1 as (_ & Hc1 & _); auto).
    assert (Hcl7 : clean s7)
      by (unfold clean; rewrite B7; destruct Hfr6 as (_ & Hc6 & _); apply Hc6; exact Hcl1).
    assert (Hmono : nextPageWriteId (buffer s) <= nextPageWriteId (buffer s1))
      by (destruct Hfr1 as (_ & _ & _ & M & _); exact M).
    destruct (writePage0 s7 ltac:(rewrite B7; lia) Hcl7) as (s8 & E8 & (Hp8 & Hfr8 & Hst8 & Hw8 & Hap8 & Hlv8)).
    rewrite (bind_ex _ _ _ _ _ E8). cbv beta.
    eexists. split; [reflexivity |].
    set (W := nextPageWriteId (buffer s1)) in *.
    assert (HW7 : nextPageWriteId (buffer s7) = W) by (rewrite B7; exact Hw6).
    rewrite HW7 in *.
    assert (Hu : u32 W = W) by (unfold u32, BUFFER_EMPTY_ID in *; apply Z.mod_small; lia).
    rewrite Hu. cbv beta.
    match goal with |- upd_frame s ?t /\ _ => set (sF := t) end.
    assert (HL30 := level_bound _ _ Gn sl' L prevP n Hsub ltac:(lia) ltac:(lia) HGs).
    assert (HlvF : levels sF = L + 1).
    { unfold sF, set_levels, set_activePath. cbn [levels activePath].
      rewrite Hlv8, Lv7, Hlv6, Hlv1. unfold u8. change (2 ^ 8) with 256. apply Z.mod_small. lia. }
    assert (HbF : buffer sF = buffer s8) by reflexivity.
    assert (HapF : forall j, activePath sF j = upd (activePath s8) 0 W j) by reflexivity.
    assert (HfrF : upd_frame s1 sF).
    { apply (upd_frame_buf s1 s8 sF); [| exact HbF].
      apply (upd_frame_trans _ _ _ Hfr6), (upd_frame_trans _ s7); [| exact Hfr8].
      exact (upd_frame_buf s6 s6 s7 (upd_frame_refl s6) B7). }
    assert (HstF : forall q pg, storage_read (store (buffer s1)) q = Some pg ->
                   storage_read (store (buffer sF)) q = Some pg)
      by (intros q pg; apply (frame_read s1 sF q pg Hfw1 HfrF)).
    assert (HapS : forall j, 0 <= j < L -> activePath sF (j + 1) = activePath s1 j).
    { intros j Hj. rewrite HapF. unfold upd. rewrite (proj2 (Z.eqb_neq (j + 1) 0)) by lia.
      rewrite Hap8, A7, Z2Nat.id by lia.
      rewrite (proj2 (Z.ltb_lt (L - L) (j + 1))), (proj2 (Z.leb_le (j + 1) L)) by lia.
      cbn [andb]. replace (j + 1 - 1) with j by lia. rewrite Hap6. reflexivity. }
    assert (HapF0 : activePath sF 0 = W) by (rewrite HapF; reflexivity).
    set (R := slots (buffer s8) 0) in *.
    assert (HR : pg_count R = 20001) by (rewrite Hp8, B7, Hp6; reflexivity).
    assert (HgR : SBTREE_GET_COUNT R = 1) by (unfold SBTREE_GET_COUNT; rewrite HR; reflexivity).
    assert (HRp0 : pg_ptrs R 0 = prevP) by (rewrite Hp8, B7, Hp6; reflexivity).
    assert (HRk0 : pg_keys R 0 = fst (rec_at Gn n)) by (rewrite Hp8, B7, Hp6; reflexivity).
    assert (HrW : storage_read (store (buffer sF)) W = Some R)
      by (rewrite HbF, Hst8; cbn [storage_read]; rewrite Z.eqb_refl; reflexivity).
    destruct Hlow as (Hu1 & (bq & Rb & Bb & Hbq & Rwb)).
    split; [exact (upd_frame_trans _ _ _ Hfr1 HfrF) |].
    split; [rewrite HbF, Hw8; lia |].
    rewrite HlvF. split; [lia |]. split.
    { replace (L + 1 - 1) with L by lia. assert (Hs := sub_ok_size c ltac:(lia) _ _ _ _ _ _ _ _ _ Hsub).
      rewrite Z2Nat.id in Hs by lia. lia. }
    exists (fun j => if j <=? 0 then 0 else n). split; [reflexivity |]. split; [| split; [| split]].
    + intros l Hl. destruct (Z.eq_dec l 0) as [-> | Hl0].
      * rewrite HapF0. exists R. split; [exact HrW |].
        split; [unfold SBTREE_IS_INTERIOR; rewrite HR; reflexivity |].
        rewrite HgR. split; [lia |].
        exists (fun j => if j <=? 0 then 0 else n). split; [reflexivity |]. split; [reflexivity |].
        split.
        -- intros j Hj. assert (j = 0) by lia. subst j. rewrite HRp0.
           change (sub_ok c (store (buffer sF)) (activePath sF) Gn sl' (0 + 1)
             (Z.to_nat (L + 1 - 1 - 0)) prevP 0 n).
           replace (Z.to_nat (L + 1 - 1 - 0)) with (Z.to_nat L) by (f_equal; lia).
           apply (sub_ok_lift c (store (buffer s1)) _ (activePath s1) _ Gn sl' L HstF HapS);
             try lia. exact Hsub.
        -- intros j Hj. assert (j = 0) by lia. subst j. rewrite HRk0.
           change (key_cut Gn sl' n (fst (rec_at Gn n))).
           exact (minkey_cut Gn sl' n (zlen Gn) HGs ltac:(lia) eq_refl Hkeys).
      * destruct (Hu1 (l - 1) ltac:(lia)) as (pg & R1 & U & _).
        replace l with (l - 1 + 1) by lia. rewrite (HapS (l - 1)) by lia.
        exists pg. split; [apply HstF; exact R1 |]. cbv beta.
        rewrite (proj2 (Z.leb_gt (l - 1 + 1) 0)), (proj2 (Z.leb_gt (l - 1 + 1 + 1) 0)) by lia.
        apply (upper_node_lift c _ _ _ _ Gn sl' L HstF HapS); try lia. exact U.
    + replace (L + 1 - 1) with (L - 1 + 1) by lia. rewrite (HapS (L - 1)) by lia.
      exists bq. split; [apply HstF; exact Rb |]. cbv beta.
      rewrite (proj2 (Z.leb_gt (L - 1 + 1) 0)) by lia. split; [| left; exact Hbq].
      apply (bottom_node_lift c _ _ _ _ Gn sl' L HstF HapS); try lia. exact Bb.
    + intros _. rewrite HapF0. exists R. split; [exact HrW | lia].
    + intros l Hl. destruct (Z.eq_dec l 0) as [-> | Hl0].
      * rewrite HapF0. exists R. split; [exact HrW | unfold raw_ok; lia].
      * replace l with (l - 1 + 1) by lia. rewrite (HapS (l - 1)) by lia.
        destruct (Z.eq_dec (l - 1) (L - 1)) as [El | El].
        -- rewrite El. exists bq. split; [apply HstF; exact Rb | exact Rwb].
        -- destruct (Hu1 (l - 1) ltac:(lia)) as (pg & R1 & _ & Rw).
           exists pg. split; [apply HstF; exact R1 | exact Rw].
Qed.

End Update.

(** ** [sbtreePut] and [sbtreeFlush] *)

Lemma bind_modify {B} (f : sbtreeState -> sbtreeState) (k : unit -> M B) (s : sbtreeState) :
  bind (modify f) k s = k tt (f s).
Proof. reflexivity. Qed.

Lemma spine_ok_mv (c : config) (st st' : storage) (ap : Z -> Z) (G : list (Z * Z)) (sl L : Z) :
  (forall q pg, storage_read st q = Some pg -> storage_read st' q = Some pg) -> 1 <= L ->
  spine_ok c st ap G sl L -> spine_ok c st' ap G sl L.
Proof.
  intros Hst HL (los & H0 & Hup & (bp & Hbr & Hbn & Hbpos) & Hroot & Hraw).
  assert (Hlr := los_range c _ _ G sl L los H0 Hup (ex_intro _ bp (conj Hbr Hbn))).
  assert (Hap : forall j, 0 <= j < L -> ap j = ap j \/ storage_read st (ap j) = None)
    by (intros; left; reflexivity).
  exists los. split; [exact H0 |]. split; [| split; [| split]].
  - intros l Hl. destruct (Hup l Hl) as (pg & R & U). exists pg. split; [apply Hst; exact R |].
    apply (upper_node_mv c st st' ap ap G sl L Hst Hap); try lia; [apply Hlr; lia | | exact U].
    specialize (Hlr (l + 1) ltac:(lia)). lia.
  - exists bp. split; [apply Hst; exact Hbr |]. split; [| exact Hbpos].
    apply (bottom_node_mv c st st' ap ap G sl L Hst Hap); try lia; [apply Hlr; lia | exact Hbn].
  - intros H. destruct (Hroot H) as (pg & R & C). exists pg. split; [apply Hst; exact R | exact C].
  - intros l Hl. destruct (Hraw l Hl) as (pg & R & C). exists pg. split; [apply Hst; exact R | exact C].
Qed.

Lemma sorted_snoc (Gs : list (Z * Z)) (k d : Z) :
  sorted_keys Gs -> (forall q, 0 <= q < zlen Gs -> fst (rec_at Gs q) < k) -> 0 <= k < 2 ^ 31 - 1 ->
  sorted_keys (Gs ++ [(k, d)]).
Proof.
  intros [Hs Hr] Hk Hk0. unfold sorted_keys. rewrite zlen_app. change (zlen [(k, d)]) with 1. split.
  - intros i j Hij Hj. destruct (Z.lt_ge_cases j (zlen Gs)).
    + rewrite !rec_at_app_l by lia. apply Hs; lia.
    + rewrite (rec_at_app_l Gs _ i) by lia. rewrite rec_at_app_r by lia.
      replace (j - zlen Gs) with 0 by lia. apply Hk. lia.
  - intros q Hq. destruct (Z.lt_ge_cases q (zlen Gs)).
    + rewrite rec_at_app_l by lia. apply Hr. lia.
    + rewrite rec_at_app_r by lia. replace (q - zlen Gs) with 0 by lia. exact Hk0.
Qed.

Lemma sorted_last (Gs : list (Z * Z)) (q : Z) :
  sorted_keys Gs -> 0 <= q < zlen Gs -> fst (rec_at Gs q) <= fst (rec_at Gs (zlen Gs - 1)).
Proof.
  intros [Hs _] Hq. destruct (Z.eq_dec q (zlen Gs - 1)) as [-> | Hne]; [lia |].
  specialize (Hs q (zlen Gs - 1) ltac:(lia) ltac:(lia)). lia.
Qed.

Lemma tree_levels (c : config) (s : sbtreeState) (G W : list (Z * Z)) (sl : Z) :
  tree_inv c s G W sl -> levels s <= 31.
Proof.
  intros (_ & _ & _ & _ & HL1 & HLb & _ & _ & HGW & _).
  assert (Hl := sorted_len _ HGW). rewrite zlen_app in Hl.
  assert (0 <= zlen W) by (unfold zlen; lia).
  destruct (Z.le_gt_cases (levels s) 31) as [| Hgt]; [assumption |].
  assert (Hp : 2 ^ 31 <= 2 ^ (levels s - 1)) by (apply Z.pow_le_mono_r; lia). lia.
Qed.

Lemma leaf_shift (c : config) (G W : list (Z * Z)) (pg : page) (v : Z) :
  leaf_ok c W pg 0 (zlen W) -> leaf_ok c (G ++ W) (set_pg_id pg v) (zlen G) (zlen G + zlen W).
Proof.
  intros (Hc & Hm & Hr). split; [cbn; lia |]. split; [lia |].
  intros j Hj. cbn [set_pg_id pg_recs]. rewrite Hr by lia. rewrite rec_at_app_r by lia.
  f_equal. lia.
Qed.

Lemma s32_small (v : Z) : 0 <= v < 2 ^ 31 -> s32 v = v.
Proof.
  intros Hv. unfold s32, signed. rewrite Z.mod_small by lia.
  destruct (Z.geb_spec v (2 ^ (32 - 1))); [lia | reflexivity].
Qed.

Section Put.
Variable c : config.
Hypothesis HmaxI : 1 <= maxInteriorRecordsPerPage c <= 9998.
Hypothesis Hrec : 1 <= maxRecordsPerPage c <= 9999.

Lemma put_ok (s : sbtreeState) (G W : list (Z * Z)) (sl key data : Z) :
  tree_inv c s G W sl -> nextPageWriteId (buffer s) + 64 <= BUFFER_EMPTY_ID ->
  sl <= key < 2 ^ 31 - 1 ->
  (forall q, 0 <= q < zlen (G ++ W) -> fst (rec_at (G ++ W) q) < key) ->
  exists s' G' W0 sl', sbtreePut c key data s = Some (0, s') /\
    nextPageWriteId (buffer s') <= nextPageWriteId (buffer s) + 64 /\
    tree_inv c s' G' (W0 ++ [(key, data)]) sl' /\ G' ++ W0 = G ++ W /\ sl' <= key.
Proof.
  intros Hinv Hbud Hkey Hlt. assert (HL31 := tree_levels c s G W sl Hinv).
  destruct Hinv as (Hbi & Hco & Hw & Hfr & HL1 & HLb & Hsp & Hleaf & HGW & Hsl & HkG & HkW).
  change (fresh s) in Hfr.
  assert (HW0 : 0 <= zlen W) by (unfold zlen; lia).
  assert (HG0 : 0 <= zlen G) by (unfold zlen; lia).
  assert (Hm : SBTREE_GET_COUNT (slots (buffer s) 0) = zlen W).
  { destruct Hleaf as (Hc & Hcm & _). unfold SBTREE_GET_COUNT. rewrite Hc.
    rewrite Z.sub_0_r. apply Z.mod_small. lia. }
  unfold sbtreePut, slot. rewrite bind_gets. cbv beta zeta. rewrite Hm.
  destruct (Z.lt_ge_cases (zlen W) (maxRecordsPerPage c)) as [Hnf | Hfull].
  - (* room in the write buffer *)
    assert (B : (zlen W >=? maxRecordsPerPage c) = false) by zb.
    rewrite B, bind_ret. cbv beta iota.
    pose proof (slot0_start s) as Hacc. repeat stp Hacc. cbv beta in Hacc.
    destruct Hacc as (Hp1 & Hfr1 & Hst1 & Hw1 & Hap1 & Hlv1).
    exists s1, G, W, sl. split; [reflexivity |].
    rewrite Hw1. split; [lia |]. split; [| split; [reflexivity | lia]].
    unfold tree_inv. rewrite Hst1, Hw1, Hap1, Hlv1, Hp1.
    split; [exact (frame_buf_inv c s s1 Hbi Hfr1) |].
    split; [exact (frame_coherent c s s1 Hfr Hco Hfr1) |].
    split; [exact Hw |]. split; [exact Hfr |]. split; [exact HL1 |]. split; [exact HLb |].
    split; [exact Hsp |]. split; [| split; [| split; [lia | split; [exact HkG |]]]].
    + destruct Hleaf as (Hc & Hcm & Hr). rewrite zlen_app. change (zlen [(key, data)]) with 1.
      unfold SBTREE_INC_COUNT, set_pg_count, set_rec. cbn [pg_count pg_recs].
      split; [rewrite Hc; cbn [pg_count]; unfold u16; change (2 ^ 16) with 65536; rewrite Z.mod_small; lia |].
      split; [lia |].
      intros j Hj. cbn [pg_recs]. unfold upd. destruct (Z.eqb_spec j (zlen W)) as [-> | Hne].
      * rewrite rec_at_app_r by lia. replace (0 + zlen W - zlen W) with 0 by lia. reflexivity.
      * rewrite rec_at_app_l by lia. apply Hr. lia.
    + rewrite app_assoc. apply sorted_snoc; [exact HGW | exact Hlt | lia].
    + intros q Hq. rewrite zlen_app in Hq. change (zlen [(key, data)]) with 1 in Hq.
      destruct (Z.lt_ge_cases q (zlen W)).
      * rewrite rec_at_app_l by lia. apply HkW. lia.
      * rewrite rec_at_app_r by lia. replace (q - zlen W) with 0 by lia. cbn. lia.
  - (* the write buffer is full: it becomes a leaf of the index *)
    assert (B : (zlen W >=? maxRecordsPerPage c) = true) by (apply Z.geb_le; lia).
    rewrite B, bind_assoc_s.
    assert (Hcl : clean s) by (destruct Hbi; assumption).
    destruct (writePage0 s ltac:(lia) Hcl) as (s1 & E1 & (Hp1 & Hfr1 & Hst1 & Hw1 & Hap1 & Hlv1)).
    rewrite (bind_ex _ _ _ _ _ E1). cbv beta.
    rewrite bind_assoc_s, bind_gets. cbv beta.
    rewrite bind_assoc_s, bind_modify. cbv beta.
    rewrite bind_assoc_s, bind_gets. cbv beta. cbn [tempKey set_tempKey].
    set (s2 := set_tempKey s1 (fst (pg_recs (slots (buffer s1) 0) 0))).
    set (x := nextPageWriteId (buffer s)) in *.
    assert (Hu : u32 x = x) by (unfold u32, BUFFER_EMPTY_ID in *; apply Z.mod_small; lia).
    assert (Hfr2 : upd_frame s s2) by exact (upd_frame_buf s s1 s2 Hfr1 eq_refl).
    assert (Hfw2 : fresh s2) by exact (frame_fresh s s2 Hfr Hfr2).
    assert (Hrx : storage_read (store (buffer s2)) x = Some (slots (buffer s1) 0))
      by (cbn [s2 buffer set_tempKey]; rewrite Hst1; cbn [storage_read]; rewrite Z.eqb_refl; reflexivity).
    assert (Hmk : fst (pg_recs (slots (buffer s1) 0) 0) = fst (rec_at (G ++ W) (zlen G))).
    { destruct Hleaf as (_ & _ & Hr). rewrite Hp1. cbn [set_pg_id pg_recs]. rewrite Hr by lia.
      rewrite rec_at_app_r by lia. f_equal. f_equal. lia. }
    assert (Hlv2 : levels s2 = levels s) by exact Hlv1.
    assert (Hw2 : nextPageWriteId (buffer s2) = x + 1) by exact Hw1.
    destruct (update_ok c HmaxI G W sl key x (slots (buffer s1) 0) s2) as
      (s3 & E3 & Hfr3 & Hw3 & HL3 & HLb3 & Hsp3).
    { exact (frame_buf_inv c s s2 Hbi Hfr2). }
    { exact (frame_coherent c s s2 Hfr Hco Hfr2). }
    { exact Hfw2. }
    { lia. }
    { lia. }
    { lia. }
    { rewrite Hlv2. exact HLb. }
    { rewrite Hlv2. apply (spine_ok_mv c (store (buffer s))); [| lia |].
      - intros q pg. apply (frame_read s s2 q pg Hfr Hfr2).
      - change (activePath s2) with (activePath s1). rewrite Hap1. exact Hsp. }
    { exact Hrx. }
    { rewrite Hp1. apply leaf_shift. exact Hleaf. }
    { lia. }
    { lia. }
    { exact HGW. }
    { lia. }
    { lia. }
    { lia. }
    { exact HkG. }
    { intros q Hq. split; [apply HkW; exact Hq |].
      specialize (Hlt (zlen G + q)). rewrite zlen_app, rec_at_app_r in Hlt by lia.
      replace (zlen G + q - zlen G) with q in Hlt by lia. apply Hlt. lia. }
    rewrite Hmk, Hu, bind_assoc_s, (bind_ex _ _ _ _ _ E3). cbv beta.
    rewrite Z.eqb_refl. cbn [negb].
    pose proof (slot0_start s3) as Hacc. repeat stp Hacc. cbv iota. repeat stp Hacc.
    cbv beta in Hacc.
    destruct Hacc as (Hp6 & Hfr6 & Hst6 & Hw6 & Hap6 & Hlv6).
    exists s5, (G ++ W), [], key. split; [reflexivity |].
    rewrite Hw6, Hlv2 in *. split; [lia |]. split; [| split; [apply app_nil_r | lia]].
    assert (Hfr5 : upd_frame s2 s5) by exact (upd_frame_trans _ _ _ Hfr3 Hfr6).
    assert (Hmono : x + 1 <= nextPageWriteId (buffer s3))
      by (rewrite <- Hw2; destruct Hfr3 as (_ & _ & _ & M & _); exact M).
    unfold tree_inv. rewrite Hst6, Hw6, Hap6, Hlv6, Hp6. cbn [app].
    split; [exact (frame_buf_inv c s2 s5 (frame_buf_inv c s s2 Hbi Hfr2) Hfr5) |].
    split; [exact (frame_coherent c s2 s5 Hfw2 (frame_coherent c s s2 Hfr Hco Hfr2) Hfr5) |].
    split; [lia |].
    split; [rewrite <- Hw6, <- Hst6; exact (frame_fresh s2 s5 Hfw2 Hfr5) |].
    split; [exact HL3 |]. split; [exact HLb3 |]. split; [exact Hsp3 |].
    split; [| split; [| split; [lia | split]]].
    + change (zlen [(key, data)]) with 1. split; [reflexivity |]. split; [lia |].
      intros j Hj. assert (j = 0) by lia. subst j. reflexivity.
    + apply sorted_snoc; [exact HGW | exact Hlt | lia].
    + exact Hlt.
    + intros q Hq. change (zlen [(key, data)]) with 1 in Hq. assert (q = 0) by lia. subst q.
      cbn. lia.
Qed.

Lemma flush_ok (s : sbtreeState) (G W : list (Z * Z)) (sl oob : Z) :
  tree_inv c s G W sl -> nextPageWriteId (buffer s) + 64 <= BUFFER_EMPTY_ID -> 0 < zlen W ->
  exists s', sbtreeFlush c oob s = Some (0, s') /\
    nextPageWriteId (buffer s') <= nextPageWriteId (buffer s) + 64 /\
    tree_inv c s' (G ++ W) [] (fst (rec_at W (zlen W - 1)) + 1).
Proof.
  intros Hinv Hbud HW1. assert (HL31 := tree_levels c s G W sl Hinv).
  destruct Hinv as (Hbi & Hco & Hw & Hfr & HL1 & HLb & Hsp & Hleaf & HGW & Hsl & HkG & HkW).
  change (fresh s) in Hfr.
  assert (HG0 : 0 <= zlen G) by (unfold zlen; lia).
  assert (Hm : SBTREE_GET_COUNT (slots (buffer s) 0) = zlen W).
  { destruct Hleaf as (Hc & Hcm & _). unfold SBTREE_GET_COUNT. rewrite Hc.
    rewrite Z.sub_0_r. apply Z.mod_small. lia. }
  set (mk := fst (rec_at W (zlen W - 1))).
  assert (HWl : forall q, 0 <= q < zlen W -> fst (rec_at W q) <= mk).
  { intros q Hq. pose proof (sorted_last (G ++ W) (zlen G + q) HGW) as T.
    rewrite zlen_app in T. rewrite !rec_at_app_r in T by lia.
    replace (zlen G + q - zlen G) with q in T by lia.
    replace (zlen G + zlen W - 1 - zlen G) with (zlen W - 1) in T by lia. apply T. lia. }
  assert (Hmk : 0 <= mk < 2 ^ 31 - 1).
  { destruct HGW as [_ Hr]. specialize (Hr (zlen G + zlen W - 1)).
    rewrite zlen_app, rec_at_app_r in Hr by lia.
    replace (zlen G + zlen W - 1 - zlen G) with (zlen W - 1) in Hr by lia. apply Hr. lia. }
  assert (Hslmk : sl <= mk) by (apply (Z.le_trans _ (fst (rec_at W 0))); [apply HkW | apply HWl]; lia).
  assert (Hcl : clean s) by (destruct Hbi; assumption).
  unfold sbtreeFlush.
  destruct (writePage0 s ltac:(lia) Hcl) as (s1 & E1 & (Hp1 & Hfr1 & Hst1 & Hw1 & Hap1 & Hlv1)).
  rewrite (bind_ex _ _ _ _ _ E1). cbv beta. unfold slot. rewrite bind_gets. cbv beta zeta.
  assert (Hm1 : SBTREE_GET_COUNT (slots (buffer s1) 0) = zlen W) by (rewrite Hp1; exact Hm).
  rewrite Hm1, (proj2 (Z.eqb_neq (zlen W) 0)) by lia.
  assert (Hmk1 : fst (pg_recs (slots (buffer s1) 0) (zlen W - 1)) = mk).
  { destruct Hleaf as (_ & _ & Hr). rewrite Hp1. cbn [set_pg_id pg_recs]. rewrite Hr by lia.
    reflexivity. }
  assert (Hmin : fst (pg_recs (slots (buffer s1) 0) 0) = fst (rec_at (G ++ W) (zlen G))).
  { destruct Hleaf as (_ & _ & Hr). rewrite Hp1. cbn [set_pg_id pg_recs]. rewrite Hr by lia.
    rewrite rec_at_app_r by lia. f_equal. f_equal. lia. }
  rewrite Hmk1, Hmin, (s32_small mk), (s32_small (mk + 1)) by lia.
  set (x := nextPageWriteId (buffer s)) in *.
  assert (Hu : u32 x = x) by (unfold u32, BUFFER_EMPTY_ID in *; apply Z.mod_small; lia).
  assert (Hu' : u32 (mk + 1) = mk + 1) by (unfold u32; apply Z.mod_small; lia).
  rewrite Hu, Hu'.
  assert (Hfw1 : fresh s1) by exact (frame_fresh s s1 Hfr Hfr1).
  assert (Hrx : storage_read (store (buffer s1)) x = Some (slots (buffer s1) 0))
    by (rewrite Hst1; cbn [storage_read]; rewrite Z.eqb_refl; reflexivity).
  destruct (update_ok c HmaxI G W sl (mk + 1) x (slots (buffer s1) 0) s1) as
    (s3 & E3 & Hfr3 & Hw3 & HL3 & HLb3 & Hsp3).
  { exact (frame_buf_inv c s s1 Hbi Hfr1). }
  { exact (frame_coherent c s s1 Hfr Hco Hfr1). }
  { exact Hfw1. }
  { lia. }
  { lia. }
  { lia. }
  { rewrite Hlv1. exact HLb. }
  { rewrite Hlv1. apply (spine_ok_mv c (store (buffer s))); [| lia |].
    - intros q pg. apply (frame_read s s1 q pg Hfr Hfr1).
    - rewrite Hap1. exact Hsp. }
  { exact Hrx. }
  { rewrite Hp1. apply leaf_shift. exact Hleaf. }
  { lia. }
  { lia. }
  { exact HGW. }
  { lia. }
  { lia. }
  { lia. }
  { exact HkG. }
  { intros q Hq. split; [apply HkW; exact Hq |]. specialize (HWl q Hq). lia. }
  rewrite (bind_ex _ _ _ _ _ E3). cbv beta. rewrite Z.eqb_refl. cbn [negb].
  destruct (initBufferPage0 s3) as (s4 & E4 & (Hp4 & Hfr4 & Hst4 & Hw4 & Hap4 & Hlv4)).
  rewrite (bind_ex _ _ _ _ _ E4). exists s4. split; [reflexivity |].
  rewrite Hw4, Hlv1 in *. split; [lia |].
  assert (Hfr5 : upd_frame s1 s4) by exact (upd_frame_trans _ _ _ Hfr3 Hfr4).
  assert (Hmono : x + 1 <= nextPageWriteId (buffer s3))
    by (rewrite <- Hw1; destruct Hfr3 as (_ & _ & _ & M & _); exact M).
  unfold tree_inv. rewrite Hst4, Hw4, Hap4, Hlv4, Hp4.
  split; [exact (frame_buf_inv c s1 s4 (frame_buf_inv c s s1 Hbi Hfr1) Hfr5) |].
  split; [exact (frame_coherent c s1 s4 Hfw1 (frame_coherent c s s1 Hfr Hco Hfr1) Hfr5) |].
  split; [lia |].
  split; [rewrite <- Hw4, <- Hst4; exact (frame_fresh s1 s4 Hfw1 Hfr5) |].
  split; [exact HL3 |]. split; [exact HLb3 |]. split; [exact Hsp3 |].
  split; [| split; [| split; [lia | split]]].
  - split; [reflexivity |]. split; [cbn; lia |]. intros j Hj. cbn in Hj. lia.
  - rewrite app_nil_r. exact HGW.
  - intros q Hq. pose proof (sorted_last (G ++ W) q HGW Hq) as T.
    rewrite zlen_app, (rec_at_app_r G W (zlen G + zlen W - 1)) in T by lia.
    replace (zlen G + zlen W - 1 - zlen G) with (zlen W - 1) in T by lia. fold mk in T. lia.
  - intros q Hq. cbn in Hq. lia.
Qed.

End Put.

(** ** [sbtreeInit] *)

Lemma init_ok (c : config) (s0 : sbtreeState) :
  2 <= numPages c -> 0 <= maxRecordsPerPage c -> 0 <= maxInteriorRecordsPerPage c ->
  store (buffer s0) = [] ->
  exists s, sbtreeInit s0 = Some (tt, s) /\ tree_inv c s [] [] 0 /\ nextPageWriteId (buffer s) = 1.
Proof.
  intros Hnp Hmr Hmi Hs0. eexists. split; [reflexivity |].
  match goal with |- tree_inv _ ?t _ _ _ /\ _ => set (s := t) end.
  set (Rp := set_pg_id (SBTREE_SET_ROOT zero_page) 0).
  assert (Hst : store (buffer s) = [(0, Rp)]) by (cbn; rewrite Hs0; reflexivity).
  assert (Hstat : forall i, status (buffer s) i = upd (fun _ => BUFFER_EMPTY_ID) 0 0 i)
    by reflexivity.
  assert (Hmod : forall i, modified (buffer s) i = upd (fun _ => NOT_MODIFIED_VAL) 0 NOT_MODIFIED_VAL i)
    by reflexivity.
  assert (Hw : nextPageWriteId (buffer s) = 1) by reflexivity.
  assert (Hnb : nextBufferPage (buffer s) = 1) by reflexivity.
  assert (Hlv : levels s = 1) by reflexivity.
  assert (Hap : activePath s 0 = 0) by reflexivity.
  assert (Hsl : slots (buffer s) 0 = zero_page) by reflexivity.
  assert (HR : pg_count Rp = 20000) by reflexivity.
  assert (HrR : storage_read (store (buffer s)) 0 = Some Rp) by (rewrite Hst; reflexivity).
  split; [| exact Hw].
  unfold tree_inv. rewrite Hw, Hlv, Hsl.
  split; [split; [intros j; rewrite Hmod; unfold upd; destruct (j =? 0); reflexivity | lia] |].
  split.
  { split.
    - intros i Hi Hne. exfalso. apply Hne. rewrite Hstat. unfold upd.
      rewrite (proj2 (Z.eqb_neq i 0)) by lia. reflexivity.
    - intros i j Hi Hj _ _. rewrite Hstat. unfold upd.
      rewrite (proj2 (Z.eqb_neq i 0)) by lia. reflexivity. }
  split; [unfold BUFFER_EMPTY_ID; lia |].
  split; [intros q Hq; rewrite Hst; unfold storage_read; destruct (Z.eqb_spec 0 q); [lia | reflexivity] |].
  split; [lia |]. split; [cbn; lia |].
  split.
  { exists (fun _ => 0). split; [reflexivity |]. split; [| split; [| split]].
    - intros l Hl. lia.
    - change (1 - 1) with 0. rewrite Hap. exists Rp. split; [exact HrR |]. split; [| right; reflexivity].
      split; [reflexivity |]. split; [cbn; lia |].
      split; [intros j _; reflexivity |].
      exists (fun _ => 0). split; [reflexivity |]. split; [reflexivity |].
      split; intros j Hj; cbn in Hj; lia.
    - intros H. lia.
    - intros l Hl. assert (l = 0) by lia. subst l. rewrite Hap. exists Rp.
      split; [exact HrR | unfold raw_ok; lia]. }
  split; [split; [reflexivity |]; split; [cbn; lia |]; intros j Hj; cbn in Hj; lia |].
  split; [split; intros; cbn in *; lia |].
  split; [lia |]. split; intros q Hq; cbn in Hq; lia.
Qed.

(** ** A run of the interface *)

Section Run.
Variable c : config.
Hypothesis HmaxI : 1 <= maxInteriorRecordsPerPage c <= 9998.
Hypothesis Hrec : 1 <= maxRecordsPerPage c <= 9999.

Lemma run_ops_ok (ops : list op) : forall s G W sl lo ap,
  tree_inv c s G W sl -> ops_ok lo ap ops = true -> (ap = true -> 0 < zlen W) ->
  (forall q, 0 <= q < zlen (G ++ W) -> fst (rec_at (G ++ W) q) < lo) -> sl <= lo ->
  nextPageWriteId (buffer s) + 64 * Z.of_nat (length ops) <= BUFFER_EMPTY_ID ->
  exists s' G' W' sl', run_ops c ops s = Some (tt, s') /\ tree_inv c s' G' W' sl' /\
    G' ++ W' = G ++ W ++ put_records ops /\
    (last ops (op_put 0 0) = op_flush -> W' = []).
Proof.
  induction ops as [| o r IH]; intros s G W sl lo ap Hinv Hok Hap Hlo Hsl Hbud.
  - exists s, G, W, sl. split; [reflexivity |]. split; [exact Hinv |].
    split; [cbn; rewrite app_nil_r; reflexivity | discriminate].
  - cbn [length] in Hbud. rewrite Nat2Z.inj_succ in Hbud.
    assert (Hl0 : 0 <= Z.of_nat (length r)) by lia.
    destruct o as [k d |]; cbn [ops_ok] in Hok.
    + apply andb_prop in Hok. destruct Hok as [Hk Hok]. apply andb_prop in Hk.
      destruct Hk as [Hk1 Hk2]. apply Z.leb_le in Hk1. apply Z.ltb_lt in Hk2.
      destruct (put_ok c HmaxI Hrec s G W sl k d Hinv ltac:(lia) ltac:(lia)) as
        (s1 & G1 & W0 & sl1 & E1 & Hw1 & Hinv1 & Happ & Hsl1).
      { intros q Hq. specialize (Hlo q Hq). lia. }
      cbn [run_ops]. rewrite (bind_ex _ _ _ _ _ E1).
      assert (Hrec1 : G1 ++ W0 ++ [(k, d)] = (G ++ W) ++ [(k, d)])
        by (rewrite app_assoc, Happ; reflexivity).
      destruct r as [| o' r'].
      * exists s1, G1, (W0 ++ [(k, d)]), sl1. split; [reflexivity |]. split; [exact Hinv1 |].
        split; [rewrite Hrec1; cbn; rewrite <- app_assoc; reflexivity | discriminate].
      * destruct (IH s1 G1 (W0 ++ [(k, d)]) sl1 (k + 1) true Hinv1 Hok) as
          (s' & G' & W' & sl' & E' & Hinv' & Happ' & Hlast).
        { intros _. rewrite zlen_app. change (zlen [(k, d)]) with 1. unfold zlen at 1. lia. }
        { rewrite Hrec1. intros q Hq. rewrite zlen_app in Hq. change (zlen [(k, d)]) with 1 in Hq.
          destruct (Z.lt_ge_cases q (zlen (G ++ W))).
          - rewrite rec_at_app_l by lia. specialize (Hlo q ltac:(lia)). lia.
          - rewrite rec_at_app_r by lia. replace (q - zlen (G ++ W)) with 0 by lia. cbn. lia. }
        { lia. }
        { lia. }
        exists s', G', W', sl'. split; [exact E' |]. split; [exact Hinv' |]. split.
        -- rewrite Happ', app_assoc, Hrec1. cbn [put_records]. rewrite <- !app_assoc. reflexivity.
        -- exact Hlast.
    + apply andb_prop in Hok. destruct Hok as [Ha Hok]. subst ap.
      destruct (flush_ok c HmaxI Hrec s G W sl 0 Hinv ltac:(lia) (Hap eq_refl)) as
        (s1 & E1 & Hw1 & Hinv1).
      cbn [run_ops]. rewrite (bind_ex _ _ _ _ _ E1).
      destruct r as [| o' r'].
      * exists s1, (G ++ W), [], (fst (rec_at W (zlen W - 1)) + 1). split; [reflexivity |].
        split; [exact Hinv1 |]. split; [cbn [put_records]; rewrite !app_nil_r; reflexivity |].
        intros _. reflexivity.
      * destruct (IH s1 (G ++ W) [] (fst (rec_at W (zlen W - 1)) + 1) lo false Hinv1 Hok) as
          (s' & G' & W' & sl' & E' & Hinv' & Happ' & Hlast).
        { discriminate. }
        { rewrite app_nil_r. exact Hlo. }
        { assert (HW := Hap eq_refl). assert (0 <= zlen G) by (unfold zlen; lia).
          specialize (Hlo (zlen G + zlen W - 1)). rewrite zlen_app, rec_at_app_r in Hlo by lia.
          replace (zlen G + zlen W - 1 - zlen G) with (zlen W - 1) in Hlo by lia.
          specialize (Hlo ltac:(lia)). lia. }
        { lia. }
        exists s', G', W', sl'. split; [exact E' |]. split; [exact Hinv' |]. split.
        -- rewrite Happ'. cbn [put_records app]. rewrite app_assoc. reflexivity.
        -- exact Hlast.
Qed.

End Run.

Lemma put_records_app (l1 l2 : list op) :
  put_records (l1 ++ l2) = put_records l1 ++ put_records l2.
Proof.
  induction l1 as [| o l1 IH]; [reflexivity |].
  destruct o; cbn [app put_records]; rewrite IH; reflexivity.
Qed.



(** ** The comparator on 32-bit keys *)

Lemma mod32_cases (d : Z) :
  - 2 ^ 32 < d < 2 ^ 32 -> d mod 2 ^ 32 = if d <? 0 then d + 2 ^ 32 else d.
Proof.
  intros Hd. destruct (Z.ltb_spec d 0).
  - symmetry. apply Z.mod_unique with (-1); lia.
  - apply Z.mod_small; lia.
Qed.

Lemma s32_pattern (a : Z) :
  0 <= a < 2 ^ 32 -> s32 a = if a >=? 2 ^ 31 then a - 2 ^ 32 else a.
Proof.
  intros Ha. unfold s32, signed. rewrite Z.mod_small by lia. reflexivity.
Qed.

Lemma uint32Compare_zero (a b : Z) :
  0 <= a < 2 ^ 32 -> 0 <= b < 2 ^ 32 -> uint32Compare a b = 0 -> a = b.
Proof.
  intros Ha Hb. unfold uint32Compare.
  rewrite (s32_pattern a Ha), (s32_pattern b Hb).
  set (x := if a >=? 2 ^ 31 then a - 2 ^ 32 else a).
  set (y := if b >=? 2 ^ 31 then b - 2 ^ 32 else b).
  assert (Hx : (x = a \/ x = a - 2 ^ 32) /\ - 2 ^ 31 <= x < 2 ^ 31)
    by (unfold x; destruct (Z.geb_spec a (2 ^ 31)); lia).
  assert (Hy : (y = b \/ y = b - 2 ^ 32) /\ - 2 ^ 31 <= y < 2 ^ 31)
    by (unfold y; destruct (Z.geb_spec b (2 ^ 31)); lia).
  unfold s32, signed. rewrite (mod32_cases (x - y)) by lia.
  destruct (Z.ltb_spec (x - y) 0);
    match goal with |- context [if ?v >=? ?w then _ else _] =>
      destruct (Z.geb_spec v w) end;
    match goal with |- context [if ?v <? 0 then _ else _] =>
      destruct (Z.ltb_spec v 0) end; try discriminate;
    match goal with |- context [if ?v >? 0 then _ else _] =>
      destruct (Z.gtb_spec v 0) end; try discriminate; intros _; lia.
Qed.

Lemma uint32Compare_refl (a : Z) : uint32Compare a a = 0.
Proof. unfold uint32Compare. rewrite Z.sub_diag. reflexivity. Qed.

(** ** The leaf search when the key is absent *)

Lemma leaf_search_absent (p : page) (k : Z) (fuel : nat) :
  forall first last middle, 0 <= first -> middle = Z.quot (first + last) 2 ->
  (forall i, first <= i <= last -> uint32Compare (fst (pg_recs p i)) k <> 0) ->
  leaf_search fuel p k first last middle false = ID_NONE.
Proof.
  induction fuel as [| fuel IH]; intros first last middle Hf Hm Hne; cbn [leaf_search];
    [reflexivity |].
  destruct (Z.leb_spec first last) as [Hle | Hgt]; [| reflexivity].
  assert (Hmid : first <= middle <= last).
  { subst middle. rewrite Z.quot_div_nonneg by lia.
    split; [apply Z.div_le_lower_bound | apply Z.div_le_upper_bound]; lia. }
  assert (Hc := Hne middle Hmid).
  destruct (Z.ltb_spec (uint32Compare (fst (pg_recs p middle)) k) 0).
  - apply IH; [lia | reflexivity |]. intros i Hi. apply Hne. lia.
  - destruct (Z.eqb_spec (uint32Compare (fst (pg_recs p middle)) k) 0); [contradiction |].
    apply IH; [lia | f_equal; lia |]. intros i Hi. apply Hne. lia.
Qed.

(** ** [sbtreeGet] of a key that is not in the index *)

Section Absent.
Variable c : config.
Hypothesis Hnp : 2 <= numPages c <= 65535.
Hypothesis HmaxI : 1 <= maxInteriorRecordsPerPage c.
Hypothesis Hrec : maxRecordsPerPage c <= 9999.
Variables (st : storage) (ap : Z -> Z) (G : list (Z * Z)) (sl L : Z).
Hypothesis HG : sorted_keys G.
Hypothesis Hsl : 0 <= sl <= 2 ^ 31 - 1.
Hypothesis Hfresh : forall q, BUFFER_EMPTY_ID <= q -> storage_read st q = None.
Variable los : Z -> Z.
Hypothesis HL1 : 1 <= L.
Hypothesis Hlos0 : los 0 = 0.
Hypothesis Hup : forall l, 0 <= l < L - 1 -> exists pg, storage_read st (ap l) = Some pg /\
  upper_node c st ap G sl L l pg (los l) (los (l + 1)).
Hypothesis Hbot : exists pg, storage_read st (ap (L - 1)) = Some pg /\
  bottom_node c st ap G sl L pg (los (L - 1)) (zlen G).

Lemma get_index_absent (s : sbtreeState) (k : Z) :
  at_tree c st ap L s -> 0 <= k < 2 ^ 32 ->
  (forall q, 0 <= q < zlen G -> fst (rec_at G q) <> k) ->
  exists s', sbtreeGet c k s = Some ((-1, None), s') /\ at_tree c st ap L s' /\ get_frame s s'.
Proof.
  intros Hs Hk Habs. rewrite sbtreeGet_unfold.
  assert (HLv : levels s = L) by (destruct Hs as (_ & _ & E & _); exact E).
  assert (Hap : activePath s = ap) by (destruct Hs as (_ & E & _); exact E).
  rewrite HLv, Hap.
  destruct (descend_spine c Hnp HmaxI st ap G sl L HG Hsl Hfresh los HL1 Hlos0 Hup Hbot
              (Z.to_nat L) 0 s k ltac:(lia) ltac:(lia) ltac:(lia) Hs)
    as (r & s1 & Hget & Hs1 & Hfr1 & Hr).
  rewrite Hget.
  destruct r as [leaf |].
  - destruct Hr as (pg & lo' & hi' & Hrd & Hleaf & Hlo' & Hlh' & Hhi' & _).
    destruct (at_tree_read c Hnp st ap L Hfresh s1 leaf pg Hs1 Hrd)
      as (i & s2 & Hread & Hslot & Hs2 & Hfr2).
    rewrite Hread. cbv zeta. rewrite Hslot.
    destruct (leaf_not_interior c Hrec G pg lo' hi' ltac:(lia) Hleaf) as [Hint Hcnt].
    assert (Hsearch : sbtreeSearchNode c pg k false = ID_NONE).
    { unfold sbtreeSearchNode. rewrite Hint, Hcnt.
      apply leaf_search_absent; [lia | reflexivity |].
      intros i' Hi' Hc. destruct Hleaf as (_ & _ & Hrecs).
      rewrite Hrecs in Hc by lia.
      destruct HG as [_ Hr']. specialize (Hr' (lo' + i') ltac:(lia)).
      apply uint32Compare_zero in Hc; [| lia | lia].
      exact (Habs (lo' + i') ltac:(lia) Hc). }
    rewrite Hsearch, Z.eqb_refl. cbn [negb].
    exists s2. split; [reflexivity |]. split; [exact Hs2 |]. transitivity s1; assumption.
  - exists s1. split; [reflexivity |]. split; [exact Hs1 | exact Hfr1].
Qed.

End Absent.



Lemma SBTREE_GET_COUNT_range (pg : page) : 0 <= SBTREE_GET_COUNT pg < 10000.
Proof. unfold SBTREE_GET_COUNT. apply Z.mod_pos_bound. lia. Qed.

(** X2: On a leaf with increasing keys below 2^31, sbtreeSearchNode (not a range
    search) returns the index of the record holding the key, and ID_NONE when no record holds it. *)
Theorem sbtreeSearchNode_leaf (c : config) (pg : page) (k : Z) :
  SBTREE_IS_INTERIOR pg = false ->
  (forall i, 0 <= i < SBTREE_GET_COUNT pg -> 0 <= fst (pg_recs pg i) < 2 ^ 31) ->
  (forall i j, 0 <= i -> i < j -> j < SBTREE_GET_COUNT pg ->
     fst (pg_recs pg i) < fst (pg_recs pg j)) ->
  0 <= k < 2 ^ 32 ->
  (forall i, 0 <= i < SBTREE_GET_COUNT pg -> fst (pg_recs pg i) = k ->
     sbtreeSearchNode c pg k false = i) /\
  ((forall i, 0 <= i < SBTREE_GET_COUNT pg -> fst (pg_recs pg i) <> k) ->
     sbtreeSearchNode c pg k false = ID_NONE).
Proof.
  intros Hint Hr Hs Hk. assert (Hn := SBTREE_GET_COUNT_range pg).
  unfold sbtreeSearchNode. rewrite Hint. split.
  - intros i Hi Hki. specialize (Hr i Hi) as Hri.
    apply leaf_search_found; try lia.
    all: try (intros j Hj; apply Hr; lia).
    all: try (intros j j' Hj Hjj' Hj'; apply Hs; lia).
    all: try (f_equal; lia).
  - intros Habs. apply leaf_search_absent; [lia | f_equal; lia |].
    intros i Hi Hc. specialize (Hr i ltac:(lia)).
    apply uint32Compare_zero in Hc; [| lia | lia].
    exact (Habs i ltac:(lia) Hc).
Qed.

Lemma sbtreeSearchNode_leaf_witness :
  let pg := mkPage 0 3 (fun _ => 0) (fun _ => 0)
              (fun i => if i =? 0 then (5, 50) else if i =? 1 then (7, 70) else (9, 90)) in
  (SBTREE_IS_INTERIOR pg = false /\
   (forall i, 0 <= i < SBTREE_GET_COUNT pg -> 0 <= fst (pg_recs pg i) < 2 ^ 31) /\
   (forall i j, 0 <= i -> i < j -> j < SBTREE_GET_COUNT pg ->
      fst (pg_recs pg i) < fst (pg_recs pg j)) /\ 0 <= 7 < 2 ^ 32) /\
  ((forall i, 0 <= i < SBTREE_GET_COUNT pg -> fst (pg_recs pg i) = 7 ->
      sbtreeSearchNode test_cfg pg 7 false = i) /\
   ((forall i, 0 <= i < SBTREE_GET_COUNT pg -> fst (pg_recs pg i) <> 7) ->
      sbtreeSearchNode test_cfg pg 7 false = ID_NONE)).
Proof.
  intros pg.
  assert (H1 : SBTREE_IS_INTERIOR pg = false) by reflexivity.
  assert (H2 : forall i, 0 <= i < SBTREE_GET_COUNT pg -> 0 <= fst (pg_recs pg i) < 2 ^ 31).
  { intros i Hi. cbn in Hi. cbn.
    destruct (i =? 0); [cbn; lia |]. destruct (i =? 1); cbn; lia. }
  assert (H3 : forall i j, 0 <= i -> i < j -> j < SBTREE_GET_COUNT pg ->
      fst (pg_recs pg i) < fst (pg_recs pg j)).
  { intros i j Hi Hij Hj. cbn in Hj. cbn.
    destruct (Z.eqb_spec i 0); destruct (Z.eqb_spec j 0); destruct (Z.eqb_spec i 1);
      destruct (Z.eqb_spec j 1); cbn; lia. }
  assert (H4 : 0 <= 7 < 2 ^ 32) by lia.
  split; [split; [exact H1 |]; split; [exact H2 |]; split; [exact H3 | exact H4] |].
  exact (sbtreeSearchNode_leaf test_cfg pg 7 H1 H2 H3 H4).
Defined.

(** The boundary of a sorted run of separators. *)
Lemma separator_boundary (f : Z -> Z) (k n : Z) :
  0 <= n -> (forall i, 0 <= i -> i + 1 < n -> f i < f (i + 1)) ->
  exists j0, 0 <= j0 <= n /\ (forall i, 0 <= i < j0 -> f i <= k) /\
    (forall i, j0 <= i < n -> k < f i).
Proof.
  intros Hn. pattern n. apply natlike_ind; [| | exact Hn].
  - intros _. exists 0. split; [lia |]. split; intros i Hi; lia.
  - intros m Hm IH Hs.
    destruct IH as (j0 & Hj0 & Hlo & Hhi).
    { intros i Hi Hi'. apply Hs; lia. }
    destruct (Z.lt_ge_cases j0 m) as [Hlt | Hge].
    + exists j0. split; [lia |]. split; [exact Hlo |].
      intros i Hi. destruct (Z.eq_dec i m) as [-> | Hne]; [| apply Hhi; lia].
      assert (A := Hhi (m - 1) ltac:(lia)). assert (B := Hs (m - 1) ltac:(lia) ltac:(lia)).
      replace (m - 1 + 1) with m in B by lia. lia.
    + assert (Ej : j0 = m) by lia. subst j0.
      destruct (Z.le_gt_cases (f m) k) as [Hle | Hgt].
      * exists (Z.succ m). split; [lia |]. split; [| intros i Hi; lia].
        intros i Hi. destruct (Z.eq_dec i m) as [-> | Hne]; [exact Hle | apply Hlo; lia].
      * exists m. split; [lia |]. split; [exact Hlo |].
        intros i Hi. assert (i = m) by lia. subst i. exact Hgt.
Qed.

(** X3: On an interior node with increasing keys below 2^31, sbtreeSearchNode
    returns the child index j with every key before j at most the searched key and every key
    from j on above it. *)
Theorem sbtreeSearchNode_interior (c : config) (pg : page) (k : Z) :
  1 <= maxInteriorRecordsPerPage c ->
  SBTREE_IS_INTERIOR pg = true ->
  (forall i, 0 <= i < Z.min (SBTREE_GET_COUNT pg) (maxInteriorRecordsPerPage c) ->
     0 <= pg_keys pg i < 2 ^ 31) ->
  (forall i, 0 <= i -> i + 1 < Z.min (SBTREE_GET_COUNT pg) (maxInteriorRecordsPerPage c) ->
     pg_keys pg i < pg_keys pg (i + 1)) ->
  0 <= k < 2 ^ 31 ->
  let j := sbtreeSearchNode c pg k false in
  0 <= j <= Z.min (SBTREE_GET_COUNT pg) (maxInteriorRecordsPerPage c) /\
  (forall i, 0 <= i < j -> pg_keys pg i <= k) /\
  (forall i, j <= i < Z.min (SBTREE_GET_COUNT pg) (maxInteriorRecordsPerPage c) -> k < pg_keys pg i).
Proof.
  intros HmaxI Hint Hr Hs Hk j.
  assert (Hn := SBTREE_GET_COUNT_range pg).
  destruct (separator_boundary (pg_keys pg) k
              (Z.min (SBTREE_GET_COUNT pg) (maxInteriorRecordsPerPage c)) ltac:(lia) Hs)
    as (j0 & Hj0 & Hlo & Hhi).
  assert (Ej : j = j0).
  { apply (search_interior c HmaxI); try assumption.
    intros i Hi Hi'. apply Hs; lia. }
  rewrite Ej. auto.
Qed.

Lemma sbtreeSearchNode_interior_witness :
  let pg := mkPage 0 10002 (fun i => if i =? 0 then 10 else 20) (fun _ => 0)
              (fun _ => (0, 0)) in
  (1 <= maxInteriorRecordsPerPage test_cfg /\ SBTREE_IS_INTERIOR pg = true /\
   (forall i, 0 <= i < Z.min (SBTREE_GET_COUNT pg) (maxInteriorRecordsPerPage test_cfg) ->
      0 <= pg_keys pg i < 2 ^ 31) /\
   (forall i, 0 <= i -> i + 1 < Z.min (SBTREE_GET_COUNT pg) (maxInteriorRecordsPerPage test_cfg) ->
      pg_keys pg i < pg_keys pg (i + 1)) /\ 0 <= 15 < 2 ^ 31) /\
  (let j := sbtreeSearchNode test_cfg pg 15 false in
   0 <= j <= Z.min (SBTREE_GET_COUNT pg) (maxInteriorRecordsPerPage test_cfg) /\
   (forall i, 0 <= i < j -> pg_keys pg i <= 15) /\
   (forall i, j <= i < Z.min (SBTREE_GET_COUNT pg) (maxInteriorRecordsPerPage test_cfg) ->
      15 < pg_keys pg i)).
Proof.
  intros pg.
  assert (H0 : 1 <= maxInteriorRecordsPerPage test_cfg) by (vm_compute; discriminate).
  assert (H1 : SBTREE_IS_INTERIOR pg = true) by reflexivity.
  assert (Hm : Z.min (SBTREE_GET_COUNT pg) (maxInteriorRecordsPerPage test_cfg) = 2)
    by reflexivity.
  assert (H2 : forall i, 0 <= i < Z.min (SBTREE_GET_COUNT pg) (maxInteriorRecordsPerPage test_cfg) ->
      0 <= pg_keys pg i < 2 ^ 31).
  { intros i Hi. cbn. destruct (i =? 0); cbn; lia. }
  assert (H3 : forall i, 0 <= i -> i + 1 < Z.min (SBTREE_GET_COUNT pg) (maxInteriorRecordsPerPage test_cfg) ->
      pg_keys pg i < pg_keys pg (i + 1)).
  { rewrite Hm. intros i Hi Hi'. assert (i = 0) by lia. subst i. cbn. lia. }
  assert (H4 : 0 <= 15 < 2 ^ 31) by lia.
  split; [split; [exact H0 |]; split; [exact H1 |]; split; [exact H2 |];
          split; [exact H3 | exact H4] |].
  exact (sbtreeSearchNode_interior test_cfg pg 15 H0 H1 H2 H3 H4).
Defined.

(** ** The page layout fixed by [sbtreeInit] *)

Lemma sbtree_config_sizes (P N k d : Z) :
  1 <= k -> 0 <= d -> k + d < 256 -> 10 <= P < 2 ^ 16 ->
  recordSize (sbtree_config P N k d) = k + d /\
  maxRecordsPerPage (sbtree_config P N k d) = (P - 6) / (k + d) /\
  maxInteriorRecordsPerPage (sbtree_config P N k d) = (P - 10) / (k + 4).
Proof.
  intros Hk Hd Hkd HP. cbn. unfold u8, u16.
  rewrite (Z.mod_small (k + d)) by lia.
  assert (0 <= (P - 6) / (k + d) < 2 ^ 16).
  { split; [apply Z.div_pos; lia |]. apply Z.div_lt_upper_bound; nia. }
  assert (0 <= (P - 6 - 4) / (k + 4) < 2 ^ 16).
  { split; [apply Z.div_pos; lia |]. apply Z.div_lt_upper_bound; nia. }
  rewrite !Z.mod_small by lia. replace (P - 6 - 4) with (P - 10) by lia. auto.
Qed.



(** X6: On a leaf whose count is at most maxRecordsPerPage, the keys
    sbtreeGetMinKey and sbtreeGetMaxKey point to lie inside the record area of the page. *)
Theorem sbtreeGetKey_in_record_area (P N k d : Z) (buf : page) :
  1 <= k -> 0 <= d -> k + d < 256 -> 10 <= P < 2 ^ 16 ->
  1 <= maxRecordsPerPage (sbtree_config P N k d) ->
  SBTREE_GET_COUNT buf <= maxRecordsPerPage (sbtree_config P N k d) ->
  in_record_area (sbtree_config P N k d) (sbtreeGetMinKey (sbtree_config P N k d) buf) /\
  in_record_area (sbtree_config P N k d) (sbtreeGetMaxKey (sbtree_config P N k d) buf).
Proof.
  intros Hk Hd Hkd HP Hm Hc.
  destruct (sbtree_config_sizes P N k d Hk Hd Hkd HP) as (E1 & E2 & _).
  assert (Hn : 0 <= SBTREE_GET_COUNT buf < 10000)
    by (unfold SBTREE_GET_COUNT; apply Z.mod_pos_bound; lia).
  unfold in_record_area, sbtreeGetMinKey, sbtreeGetMaxKey. rewrite E1, E2 in *.
  cbn [headerSize keySize sbtree_config].
  assert (Es : s16 (SBTREE_GET_COUNT buf) = SBTREE_GET_COUNT buf).
  { unfold s16, signed. rewrite Z.mod_small by lia.
    destruct (Z.geb_spec (SBTREE_GET_COUNT buf) (2 ^ (16 - 1))); [lia | reflexivity]. }
  rewrite Es.
  split; [split; nia |].
  destruct (Z.eqb_spec (SBTREE_GET_COUNT buf) 0); split; nia.
Qed.

Lemma sbtreeGetKey_in_record_area_witness :
  (1 <= 4 /\ 0 <= 12 /\ 4 + 12 < 256 /\ 10 <= 512 < 2 ^ 16 /\
   1 <= maxRecordsPerPage (sbtree_config 512 4 4 12) /\
   SBTREE_GET_COUNT zero_page <= maxRecordsPerPage (sbtree_config 512 4 4 12)) /\
  (in_record_area (sbtree_config 512 4 4 12) (sbtreeGetMinKey (sbtree_config 512 4 4 12) zero_page) /\
   in_record_area (sbtree_config 512 4 4 12) (sbtreeGetMaxKey (sbtree_config 512 4 4 12) zero_page)).
Proof.
  assert (H1 : 1 <= maxRecordsPerPage (sbtree_config 512 4 4 12)) by (vm_compute; discriminate).
  assert (H2 : SBTREE_GET_COUNT zero_page <= maxRecordsPerPage (sbtree_config 512 4 4 12))
    by (vm_compute; discriminate).
  split; [split; [lia |]; split; [lia |]; split; [lia |]; split; [lia |];
          split; [exact H1 | exact H2] |].
  apply (sbtreeGetKey_in_record_area 512 4 4 12 zero_page); try lia; assumption.
Defined.

(** ** [dbbufferClearModified] *)

Section Clear.
Variable c : config.

Lemma clearModified_skip (fuel : nat) (s : sbtreeState) (p : Z) :
  forall i, 0 <= i -> i + Z.of_nat fuel <= 256 ->
  (forall j, i <= j < i + Z.of_nat fuel -> j < numPages c -> status (buffer s) j <> p) ->
  i + Z.of_nat fuel <= numPages c ->
  clearModified_loop c fuel i p s = None.
Proof.
  induction fuel as [| f IH]; intros i Hi Hf Hne Hn; [reflexivity |].
  cbn [clearModified_loop]. destruct (Z.ltb_spec i (numPages c)); [| lia].
  unfold bind, gets. rewrite (proj2 (Z.eqb_neq _ _) (Hne i ltac:(lia) ltac:(lia))).
  destruct f as [| f']; [reflexivity |].
  unfold u8. rewrite Z.mod_small by lia.
  apply IH; [lia | lia | | lia]. intros j Hj. apply Hne. lia.
Qed.

Lemma clearModified_find (fuel : nat) (s : sbtreeState) (p j : Z) :
  forall i, 0 <= i <= j -> j < numPages c -> j < 256 -> j - i < Z.of_nat fuel ->
  status (buffer s) j = p -> (forall q, i <= q < j -> status (buffer s) q <> p) ->
  clearModified_loop c fuel i p s =
    Some (tt, set_buffer s (set_modified (set_status (buffer s) (upd (status (buffer s)) j BUFFER_EMPTY_ID))
                              (upd (modified (buffer s)) j NOT_MODIFIED_VAL))).
Proof.
  induction fuel as [| f IH]; intros i Hi Hj Hj' Hf Hp Hne; [lia |].
  cbn [clearModified_loop]. destruct (Z.ltb_spec i (numPages c)); [| lia].
  unfold bind, gets. destruct (Z.eq_dec i j) as [-> | Hij].
  - rewrite Hp, Z.eqb_refl. reflexivity.
  - rewrite (proj2 (Z.eqb_neq _ _) (Hne i ltac:(lia))).
    unfold u8. rewrite Z.mod_small by lia.
    apply IH; try lia. intros q Hq. apply Hne. lia.
Qed.

Lemma clearModified_none (fuel : nat) (s : sbtreeState) (p : Z) :
  forall i, 0 <= i <= numPages c -> numPages c <= 255 -> numPages c - i < Z.of_nat fuel ->
  (forall j, i <= j < numPages c -> status (buffer s) j <> p) ->
  clearModified_loop c fuel i p s = Some (tt, s).
Proof.
  induction fuel as [| f IH]; intros i Hi Hn Hf Hne; [lia |].
  cbn [clearModified_loop]. destruct (Z.ltb_spec i (numPages c)); [| reflexivity].
  unfold bind, gets. rewrite (proj2 (Z.eqb_neq _ _) (Hne i ltac:(lia))).
  unfold u8. rewrite Z.mod_small by lia.
  apply IH; try lia. intros j Hj. apply Hne. lia.
Qed.

End Clear.

(** X7: dbbufferClearModified empties the first buffer slot that holds the page,
    marks it not modified, and changes nothing else. *)
Theorem dbbufferClearModified_first (c : config) (s : sbtreeState) (p j : Z) :
  0 <= j < numPages c -> j < 256 -> status (buffer s) j = p ->
  (forall q, 0 <= q < j -> status (buffer s) q <> p) ->
  dbbufferClearModified c p s =
    Some (tt, set_buffer s (set_modified (set_status (buffer s) (upd (status (buffer s)) j BUFFER_EMPTY_ID))
                              (upd (modified (buffer s)) j NOT_MODIFIED_VAL))).
Proof.
  intros Hj Hj' Hp Hne. unfold dbbufferClearModified.
  apply clearModified_find; try lia; assumption.
Qed.

Lemma dbbufferClearModified_first_witness :
  let s := set_buffer blank_state (set_status (buffer blank_state) (fun i => if i =? 2 then 7 else 0)) in
  (0 <= 2 < numPages test_cfg /\ 2 < 256 /\ status (buffer s) 2 = 7 /\
   (forall q, 0 <= q < 2 -> status (buffer s) q <> 7)) /\
  dbbufferClearModified test_cfg 7 s =
    Some (tt, set_buffer s (set_modified (set_status (buffer s) (upd (status (buffer s)) 2 BUFFER_EMPTY_ID))
                              (upd (modified (buffer s)) 2 NOT_MODIFIED_VAL))).
Proof.
  intros s.
  assert (H1 : 0 <= 2 < numPages test_cfg) by (cbn; lia).
  assert (H2 : status (buffer s) 2 = 7) by reflexivity.
  assert (H3 : forall q, 0 <= q < 2 -> status (buffer s) q <> 7).
  { intros q Hq. cbn. destruct (Z.eqb_spec q 2); [lia | discriminate]. }
  split; [split; [exact H1 |]; split; [lia |]; split; [exact H2 | exact H3] |].
  exact (dbbufferClearModified_first test_cfg s 7 2 H1 ltac:(lia) H2 H3).
Defined.

(** X8: When no slot holds the page, dbbufferClearModified changes nothing if
    numPages is at most 255, and does not return if numPages is at least 256 (the uint8_t
    counter wraps). *)
Theorem dbbufferClearModified_absent (c : config) (s : sbtreeState) (p : Z) :
  0 <= numPages c ->
  (forall j, 0 <= j < numPages c -> j < 256 -> status (buffer s) j <> p) ->
  (numPages c <= 255 -> dbbufferClearModified c p s = Some (tt, s)) /\
  (256 <= numPages c -> dbbufferClearModified c p s = None).
Proof.
  intros Hn0 Hne. unfold dbbufferClearModified. split.
  - intros Hn. apply clearModified_none; try lia. intros j Hj. apply Hne; lia.
  - intros Hn. apply clearModified_skip; try lia. intros j Hj Hj'. apply Hne; lia.
Qed.

Lemma dbbufferClearModified_absent_witness :
  (0 <= numPages (sbtree_config 512 256 4 12) /\
   (forall j, 0 <= j < numPages (sbtree_config 512 256 4 12) -> j < 256 ->
      status (buffer blank_state) j <> 7)) /\
  ((numPages (sbtree_config 512 256 4 12) <= 255 ->
      dbbufferClearModified (sbtree_config 512 256 4 12) 7 blank_state = Some (tt, blank_state)) /\
   (256 <= numPages (sbtree_config 512 256 4 12) ->
      dbbufferClearModified (sbtree_config 512 256 4 12) 7 blank_state = None)).
Proof.
  assert (H1 : 0 <= numPages (sbtree_config 512 256 4 12)) by (cbn; lia).
  assert (H2 : forall j, 0 <= j < numPages (sbtree_config 512 256 4 12) -> j < 256 ->
      status (buffer blank_state) j <> 7) by (intros j _ _; cbn; discriminate).
  split; [split; [exact H1 | exact H2] |].
  exact (dbbufferClearModified_absent _ _ _ H1 H2).
Defined.

Lemma find_slot_first (n : nat) (f : Z -> bool) :
  forall a i, a <= i < a + Z.of_nat n -> f i = true ->
  (forall j, a <= j < i -> f j = false) -> find_slot n a f = Some i.
Proof.
  induction n as [| n IH]; intros a i Hi Hf Hb; [lia |].
  cbn [find_slot]. destruct (Z.eq_dec a i) as [-> | Hne]; [rewrite Hf; reflexivity |].
  rewrite (Hb a ltac:(lia)). apply IH; [lia | exact Hf |]. intros j Hj; apply Hb; lia.
Qed.

Lemma find_slot_all_false (n : nat) (f : Z -> bool) :
  forall a, (forall j, a <= j < a + Z.of_nat n -> f j = false) -> find_slot n a f = None.
Proof.
  induction n as [| n IH]; intros a Hb; [reflexivity |].
  cbn [find_slot]. rewrite (Hb a ltac:(lia)). apply IH. intros j Hj; apply Hb; lia.
Qed.




(** X11: When a slot between 1 and numPages-1 holds the page, readPage returns the
    first such slot and only counts a buffer hit and records lastHit. *)
Theorem readPage_hit (c : config) (s : sbtreeState) (p i : Z) :
  1 <= i <= numPages c - 1 -> status (buffer s) i = p ->
  (forall j, 1 <= j < i -> status (buffer s) j <> p) ->
  readPage c p s = Some (i, set_buffer s (set_lastHit
    (set_bufferHits (buffer s) (u32 (bufferHits (buffer s) + 1))) (u16 p))).
Proof.
  intros Hi Hp Hb. unfold readPage, bind, gets.
  rewrite (find_slot_first _ _ 1 i); [| rewrite Z2Nat.id; lia | apply Z.eqb_eq; exact Hp |].
  - cbn. rewrite Hp. reflexivity.
  - intros j Hj. apply Z.eqb_neq. apply Hb. exact Hj.
Qed.

Lemma readPage_hit_witness :
  (1 <= 2 <= numPages test_cfg - 1 /\ status (buffer hit_state) 2 = 7 /\
   (forall j, 1 <= j < 2 -> status (buffer hit_state) j <> 7)) /\
  readPage test_cfg 7 hit_state = Some (2, set_buffer hit_state (set_lastHit
    (set_bufferHits (buffer hit_state) (u32 (bufferHits (buffer hit_state) + 1))) (u16 7))).
Proof.
  assert (H1 : 1 <= 2 <= numPages test_cfg - 1) by (cbn; lia).
  assert (H2 : status (buffer hit_state) 2 = 7) by reflexivity.
  assert (H3 : forall j, 1 <= j < 2 -> status (buffer hit_state) j <> 7).
  { intros j Hj. cbn. destruct (Z.eqb_spec j 2); [lia | discriminate]. }
  split; [split; [exact H1 | split; [exact H2 | exact H3]] |].
  exact (readPage_hit test_cfg hit_state 7 2 H1 H2 H3).
Defined.


Lemma init_state_buf_inv : buf_inv test_cfg init_state.
Proof.
  split; [intros j; cbn; unfold upd; destruct (j =? 0); reflexivity | cbn; lia].
Qed.

Lemma init_state_coherent : coherent test_cfg init_state.
Proof.
  split.
  - intros i Hi Hne. exfalso. apply Hne. cbn. unfold upd.
    rewrite (proj2 (Z.eqb_neq i 0)) by lia. reflexivity.
  - intros i j Hi _ _ _. cbn. unfold upd.
    rewrite (proj2 (Z.eqb_neq i 0)) by lia. reflexivity.
Qed.





(** X4: uint32Compare of two 32-bit values is 0 exactly when they are equal, and
    below 2^31 it returns the sign of their difference. *)
Theorem uint32Compare_spec (a b : Z) :
  0 <= a < 2 ^ 32 -> 0 <= b < 2 ^ 32 ->
  (uint32Compare a b = 0 <-> a = b) /\
  (a < 2 ^ 31 -> b < 2 ^ 31 -> uint32Compare a b = Z.sgn (a - b)).
Proof.
  intros Ha Hb. split.
  - split; [apply uint32Compare_zero; assumption | intros ->; apply uint32Compare_refl].
  - intros Ha' Hb'. rewrite uint32Compare_small by lia.
    destruct (Z.ltb_spec a b); [rewrite Z.sgn_neg by lia; reflexivity |].
    destruct (Z.ltb_spec b a); [rewrite Z.sgn_pos by lia; reflexivity |].
    replace (a - b) with 0 by lia. reflexivity.
Qed.

Lemma uint32Compare_spec_witness :
  (0 <= 5 < 2 ^ 32 /\ 0 <= 3 < 2 ^ 32) /\
  (uint32Compare 5 3 = 0 <-> 5 = 3) /\ (5 < 2 ^ 31 -> 3 < 2 ^ 31 -> uint32Compare 5 3 = Z.sgn (5 - 3)).
Proof.
  split; [split; lia |]. apply uint32Compare_spec; lia.
Defined.

(** X17: On the tree sbtreeInit creates, a range iteration returns no record. *)
Theorem range_query_empty_tree (c : config) (s0 : sbtreeState) (a b : Z) (n : nat) :
  2 <= numPages c <= 65535 ->
  exists s1 s2, sbtreeInit s0 = Some (tt, s1) /\ range_query c a b (S n) s1 = Some ([], s2).
Proof.
  intros Hn.
  let r := eval lazy in (sbtreeInit s0) in
  match r with Some (_, ?t) => exists t end.
  match goal with |- exists s2, ?e = Some (tt, ?t) /\ _ => remember t as s1 eqn:Hs1 end.
  assert (Hlv : levels s1 = 1) by (subst s1; reflexivity).
  assert (Hap : activePath s1 0 = 0) by (subst s1; reflexivity).
  assert (Hst : forall j, j <> 0 -> status (buffer s1) j = BUFFER_EMPTY_ID)
    by (intros j Hj; subst s1; destruct j; [contradiction | reflexivity | reflexivity]).
  assert (Hmd : modified (buffer s1) 1 = NOT_MODIFIED_VAL) by (subst s1; reflexivity).
  assert (Hrd : storage_read (store (buffer s1)) 0 = Some (set_pg_id (SBTREE_SET_ROOT zero_page) 0))
    by (subst s1; reflexivity).
  eexists. split; [subst s1; reflexivity |]. clear Hs1.
  assert (Hf : find_slot (Z.to_nat (numPages c - 1)) 1 (fun j => status (buffer s1) j =? 0) = None).
  { apply find_slot_all_false. intros j Hj. rewrite Z2Nat.id in Hj by lia.
    rewrite Hst by lia. reflexivity. }
  assert (Hc : choose_slot c s1 0 = Some (1, nextBufferPage (buffer s1))).
  { unfold choose_slot. rewrite Hap. destruct (numPages c =? 2); reflexivity. }
  set (R := set_pg_id (SBTREE_SET_ROOT zero_page) 0) in Hrd.
  assert (E : readPage c 0 s1 = Some (1, set_buffer s1 (set_numReads
        (set_slots (set_modified (set_status (set_nextBufferPage (buffer s1) (nextBufferPage (buffer s1)))
           (upd (status (buffer s1)) 1 0)) (upd (modified (buffer s1)) 1 NOT_MODIFIED_VAL))
           (upd (slots (buffer s1)) 1 R))
        (u32 (numReads (buffer s1) + 1))))).
  { unfold readPage, bind, gets. rewrite Hf, Hc. cbn -[writePage]. rewrite Hmd.
    cbn. rewrite Hrd. reflexivity. }
  unfold range_query. erewrite bind_ex.
  2:{ unfold sbtreeInitIterator, get_ap. rewrite !bind_gets. cbn [levels activePath].
      rewrite Hap, Hlv. change (Z.to_nat 1) with 1%nat. cbn [init_loop].
      unfold bind at 1. rewrite (bind_ex (readPage c 0) _ s1 _ _ E).
      unfold slot, bind, gets. cbn. unfold getChildPageId, set_buffer. cbn. rewrite Hlv. reflexivity. }
  reflexivity.
Qed.

Lemma range_query_empty_tree_witness :
  exists s1 s2, sbtreeInit blank_state = Some (tt, s1) /\
    range_query test_cfg 1 10 1 s1 = Some ([], s2).
Proof.
  apply (range_query_empty_tree test_cfg blank_state 1 10 0). cbn. lia.
Defined.

(** ** The statistics counters are never read *)

Lemma blind_ret {A} (x : A) : blind (ret x).
Proof. intros s t H. split; [reflexivity | exact H]. Qed.

Lemma blind_bind {A B} (m : M A) (k : A -> M B) :
  blind m -> (forall x, blind (k x)) -> blind (bind m k).
Proof.
  intros Hm Hk s t H. unfold bind. specialize (Hm s t H).
  destruct (m s) as [[x s1] |], (m t) as [[y t1] |]; cbn in Hm; try contradiction.
  - destruct Hm as [<- H1]. exact (Hk x s1 t1 H1).
  - exact I.
Qed.

Lemma blind_gets {A} (f : sbtreeState -> A) :
  (forall s, f (stats_cleared s) = f s) -> blind (gets f).
Proof.
  intros Hf s t H. split; [| exact H].
  rewrite <- (Hf s), <- (Hf t). unfold same_but_stats in H. rewrite H. reflexivity.
Qed.

Lemma blind_modify (f : sbtreeState -> sbtreeState) :
  (forall s, stats_cleared (f (stats_cleared s)) = stats_cleared (f s)) -> blind (modify f).
Proof.
  intros Hf s t H. split; [reflexivity |]. unfold same_but_stats in *.
  rewrite <- (Hf s), <- (Hf t), H. reflexivity.
Qed.

Lemma blind_diverge {A} : blind (@diverge A).
Proof. intros s t _. exact I. Qed.

Lemma blind_none {A} : blind (A := A) (fun _ => None).
Proof. intros s t _. exact I. Qed.

Lemma blind_self {B} (k : sbtreeState -> M B) :
  (forall s, k (stats_cleared s) = k s) -> (forall x, blind (k x)) ->
  blind (bind (gets (fun s => s)) k).
Proof.
  intros Hk Hb s t H. change (run_rel (k s s) (k t t)).
  rewrite <- (Hk s), <- (Hk t). unfold same_but_stats in H. rewrite H.
  apply Hb. exact H.
Qed.

Ltac blind_auto_with hook :=
  repeat (cbv zeta; try unfold_buffer_ops; first [hook | match goal with
  | |- blind (bind (gets (fun s => s)) _) => apply blind_self; [intros ?; reflexivity | intros ?]
  | |- blind (bind _ _) => apply blind_bind; [| intros ?]
  | |- blind (ret _) => apply blind_ret
  | |- blind (gets _) => apply blind_gets; intros ?; reflexivity
  | |- blind diverge => apply blind_diverge
  | |- blind (fun _ => None) => apply blind_none
  | |- blind (modify _) => apply blind_modify; intros ?; reflexivity
  | |- blind (if ?b then _ else _) => destruct b
  | |- blind (match ?x with _ => _ end) => destruct x
  end]).

Ltac blind_auto := blind_auto_with fail.

Lemma blind_writePage (i : Z) : blind (writePage i).
Proof. unfold writePage. blind_auto. Qed.

Ltac blind_wp := idtac; match goal with |- blind (writePage _) => apply blind_writePage end.

Section Blind.
Variable c : config.

Lemma blind_readPage (p : Z) : blind (readPage c p).
Proof. unfold readPage. blind_auto_with blind_wp. Qed.

Ltac blind_rp := idtac; match goal with
  | |- blind (writePage _) => apply blind_writePage
  | |- blind (readPage _ _) => apply blind_readPage
  end.

Lemma blind_updateIndex_loop (fuel : nat) :
  forall minkey key l prevPageNum pageNum,
  blind (updateIndex_loop c fuel minkey key l prevPageNum pageNum).
Proof.
  induction fuel as [| fuel IH]; intros minkey key l prevPageNum pageNum;
    cbn [updateIndex_loop]; blind_auto_with blind_rp; apply IH.
Qed.

Lemma blind_shift_activePath (n : nat) : forall l, blind (shift_activePath n l).
Proof. induction n as [| n IH]; intros l; cbn [shift_activePath]; blind_auto; apply IH. Qed.

Lemma blind_sbtreeUpdateIndex (minkey key pageNum : Z) :
  blind (sbtreeUpdateIndex c minkey key pageNum).
Proof.
  unfold sbtreeUpdateIndex. blind_auto_with blind_rp;
    first [apply blind_updateIndex_loop | apply blind_shift_activePath].
Qed.

Ltac blind_ui := idtac; match goal with
  | |- blind (writePage _) => apply blind_writePage
  | |- blind (readPage _ _) => apply blind_readPage
  | |- blind (sbtreeUpdateIndex _ _ _ _) => apply blind_sbtreeUpdateIndex
  end.

Lemma blind_sbtreePut (key data : Z) : blind (sbtreePut c key data).
Proof. unfold sbtreePut. blind_auto_with blind_ui. Qed.

Lemma blind_sbtreeFlush (oob : Z) : blind (sbtreeFlush c oob).
Proof. unfold sbtreeFlush. blind_auto_with blind_ui. Qed.

Lemma blind_get_loop (n : nat) : forall l nextId key, blind (get_loop c n l nextId key).
Proof. induction n as [| n IH]; intros l nextId key; cbn [get_loop]; blind_auto_with blind_rp; apply IH. Qed.

Lemma blind_sbtreeGet (key : Z) : blind (sbtreeGet c key).
Proof. unfold sbtreeGet. blind_auto_with blind_rp; apply blind_get_loop. Qed.

Lemma blind_init_loop (n : nat) : forall l nextId it, blind (init_loop c n l nextId it).
Proof. induction n as [| n IH]; intros l nextId it; cbn [init_loop]; blind_auto_with blind_rp; apply IH. Qed.

Lemma blind_sbtreeInitIterator (it : sbtreeIterator) : blind (sbtreeInitIterator c it).
Proof. unfold sbtreeInitIterator. blind_auto_with blind_rp; apply blind_init_loop. Qed.

Lemma blind_next_up (n : nat) : forall l it, blind (next_up c n l it).
Proof. induction n as [| n IH]; intros l it; cbn [next_up]; blind_auto_with blind_rp; apply IH. Qed.

Lemma blind_next_down (n : nat) : forall l i it, blind (next_down c n l i it).
Proof. induction n as [| n IH]; intros l i it; cbn [next_down]; blind_auto_with blind_rp; apply IH. Qed.

Lemma blind_next_loop (fuel : nat) : forall i it, blind (next_loop c fuel i it).
Proof.
  induction fuel as [| fuel IH]; intros i it; cbn [next_loop];
    blind_auto_with ltac:(idtac; match goal with
      | |- blind (next_up _ _ _ _) => apply blind_next_up
      | |- blind (next_down _ _ _ _ _) => apply blind_next_down
      end); apply IH.
Qed.

Lemma blind_sbtreeNext (fuel : nat) (it : sbtreeIterator) : blind (sbtreeNext c fuel it).
Proof. unfold sbtreeNext. destruct (currentBuffer it); [apply blind_next_loop | apply blind_ret]. Qed.

Lemma blind_sbtreeInit : blind sbtreeInit.
Proof. unfold sbtreeInit. blind_auto_with blind_wp. Qed.

Lemma blind_run_ops (ops : list op) : blind (run_ops c ops).
Proof.
  induction ops as [| [k d |] r IH]; cbn [run_ops];
    [apply blind_ret | apply blind_bind; [apply blind_sbtreePut | intros; exact IH]
    | apply blind_bind; [apply blind_sbtreeFlush | intros; exact IH]].
Qed.

End Blind.

(** X19: The statistics counters numReads, numWrites and bufferHits never influence
    sbtreeInit, sbtreePut, sbtreeGet, sbtreeFlush, sbtreeInitIterator or sbtreeNext: from states
    that differ only there the results are equal. *)
Theorem statistics_never_read (c : config) (s t : sbtreeState) :
  same_but_stats s t ->
  run_rel (sbtreeInit s) (sbtreeInit t) /\
  (forall key data, run_rel (sbtreePut c key data s) (sbtreePut c key data t)) /\
  (forall key, run_rel (sbtreeGet c key s) (sbtreeGet c key t)) /\
  (forall oob, run_rel (sbtreeFlush c oob s) (sbtreeFlush c oob t)) /\
  (forall it, run_rel (sbtreeInitIterator c it s) (sbtreeInitIterator c it t)) /\
  (forall fuel it, run_rel (sbtreeNext c fuel it s) (sbtreeNext c fuel it t)).
Proof.
  intros H. split; [exact (blind_sbtreeInit s t H) |].
  split; [intros; exact (blind_sbtreePut c _ _ s t H) |].
  split; [intros; exact (blind_sbtreeGet c _ s t H) |].
  split; [intros; exact (blind_sbtreeFlush c _ s t H) |].
  split; [intros; exact (blind_sbtreeInitIterator c _ s t H) |].
  intros; exact (blind_sbtreeNext c _ _ s t H).
Qed.

Lemma statistics_never_read_witness :
  same_but_stats init_state (stats_cleared init_state) /\
  run_rel (sbtreeInit init_state) (sbtreeInit (stats_cleared init_state)) /\
  (forall key data, run_rel (sbtreePut test_cfg key data init_state)
                            (sbtreePut test_cfg key data (stats_cleared init_state))) /\
  (forall key, run_rel (sbtreeGet test_cfg key init_state)
                       (sbtreeGet test_cfg key (stats_cleared init_state))) /\
  (forall oob, run_rel (sbtreeFlush test_cfg oob init_state)
                       (sbtreeFlush test_cfg oob (stats_cleared init_state))) /\
  (forall it, run_rel (sbtreeInitIterator test_cfg it init_state)
                      (sbtreeInitIterator test_cfg it (stats_cleared init_state))) /\
  (forall fuel it, run_rel (sbtreeNext test_cfg fuel it init_state)
                           (sbtreeNext test_cfg fuel it (stats_cleared init_state))).
Proof.
  assert (H : same_but_stats init_state (stats_cleared init_state)) by reflexivity.
  split; [exact H |]. exact (statistics_never_read test_cfg _ _ H).
Defined.

(** X20: dbbufferClearStats sets the three counters to 0 and changes nothing
    else, so later puts, flushes and gets return the same results as without it. *)
Theorem dbbufferClearStats_transparent (c : config) (s : sbtreeState) (ops : list op) (key : Z) :
  exists s', dbbufferClearStats s = Some (tt, s') /\
    numReads (buffer s') = 0 /\ numWrites (buffer s') = 0 /\ bufferHits (buffer s') = 0 /\
    same_but_stats s s' /\
    run_rel ((run_ops c ops ;;; sbtreeGet c key) s) ((run_ops c ops ;;; sbtreeGet c key) s').
Proof.
  eexists. split; [reflexivity |]. do 3 (split; [reflexivity |]).
  assert (H : same_but_stats s (stats_cleared s)) by reflexivity.
  split; [exact H |].
  apply (blind_bind _ _ (blind_run_ops c ops) (fun _ => blind_sbtreeGet c key)). exact H.
Qed.

(** ** Iteration in a reachable state *)

Section Iter.
Variable c : config.
Hypothesis Hnp : 2 <= numPages c <= 65535.

Lemma frame_init_loop (n : nat) : forall l nextId it, keeps c get_frame (init_loop c n l nextId it).
Proof. induction n as [|n IH]; intros l nextId it; cbn [init_loop]; keeps_auto; try apply IH. Qed.

Lemma frame_sbtreeInitIterator (it : sbtreeIterator) : keeps c get_frame (sbtreeInitIterator c it).
Proof. unfold sbtreeInitIterator. keeps_auto. apply frame_init_loop. Qed.

Lemma frame_next_up (n : nat) : forall l it, keeps c get_frame (next_up c n l it).
Proof. induction n as [|n IH]; intros l it; cbn [next_up]; keeps_auto; try apply IH. Qed.

Lemma frame_next_down (n : nat) : forall l i it, keeps c get_frame (next_down c n l i it).
Proof. induction n as [|n IH]; intros l i it; cbn [next_down]; keeps_auto; try apply IH. Qed.

Lemma frame_next_loop (fuel : nat) : forall i it, keeps c get_frame (next_loop c fuel i it).
Proof.
  induction fuel as [|fuel IH]; intros i it; cbn [next_loop]; keeps_auto;
    first [apply IH | apply frame_next_up | apply frame_next_down].
Qed.

Lemma frame_sbtreeNext (fuel : nat) (it : sbtreeIterator) : keeps c get_frame (sbtreeNext c fuel it).
Proof. unfold sbtreeNext. keeps_auto. apply frame_next_loop. Qed.

End Iter.

Lemma flush1_reachable : reachable test_cfg flush1_state.
Proof.
  apply (reach_flush test_cfg put1_state 0 0); [| vm_compute; reflexivity].
  apply (reach_put test_cfg init_state 1 10 0); [| vm_compute; reflexivity].
  apply (reach_init test_cfg blank_state). vm_compute. reflexivity.
Qed.

(** X18: On a reachable state, sbtreeInitIterator and sbtreeNext never change
    storage, the page counters, the write counter, the write buffer, the active path or the height. *)
Theorem iteration_writes_nothing (c : config) (s : sbtreeState) :
  2 <= numPages c <= 65535 -> reachable c s ->
  (forall it it' s', sbtreeInitIterator c it s = Some (it', s') -> get_frame s s') /\
  (forall fuel it r s', sbtreeNext c fuel it s = Some (r, s') -> get_frame s s').
Proof.
  intros Hn Hr. assert (Hi := reachable_buf_inv c Hn s Hr). split.
  - intros it it' s' H. exact (proj2 (frame_sbtreeInitIterator c Hn it s it' s' Hi H)).
  - intros fuel it r s' H. exact (proj2 (frame_sbtreeNext c Hn fuel it s r s' Hi H)).
Qed.

Lemma iteration_writes_nothing_witness :
  (2 <= numPages test_cfg <= 65535 /\ reachable test_cfg flush1_state) /\
  (forall it it' s', sbtreeInitIterator test_cfg it flush1_state = Some (it', s') ->
     get_frame flush1_state s') /\
  (forall fuel it r s', sbtreeNext test_cfg fuel it flush1_state = Some (r, s') ->
     get_frame flush1_state s').
Proof.
  assert (H1 : 2 <= numPages test_cfg <= 65535) by (cbn; lia).
  split; [split; [exact H1 | exact flush1_reachable] |].
  exact (iteration_writes_nothing test_cfg flush1_state H1 flush1_reachable).
Defined.

(** ** The write-back branch of [readPage] *)

Lemma u32_s32 (x : Z) : 0 <= x < 2 ^ 32 -> u32 (s32 x) = x.
Proof.
  intros Hx. unfold u32, s32, signed. rewrite (Z.mod_small x) by lia.
  destruct (Z.geb_spec x (2 ^ (32 - 1))).
  - replace (x - 2 ^ 32) with (x + (-1) * 2 ^ 32) by lia.
    rewrite Z.mod_add by lia. apply Z.mod_small; lia.
  - apply Z.mod_small; lia.
Qed.



(** ** The height changes by at most one level per call *)

Lemma stays_bind {A B} (m : M A) (k : A -> M B) :
  stays m -> (forall x, stays (k x)) -> stays (bind m k).
Proof.
  intros Hm Hk s y s' H. unfold bind in H. destruct (m s) as [[x s1] |] eqn:E; [| discriminate].
  rewrite (Hk x s1 y s' H). exact (Hm s x s1 E).
Qed.

Lemma stays_ret {A} (x : A) : stays (ret x).
Proof. intros s y s' H. injection H as _ <-. reflexivity. Qed.

Lemma stays_gets {A} (f : sbtreeState -> A) : stays (gets f).
Proof. intros s y s' H. injection H as _ <-. reflexivity. Qed.

Lemma stays_modify (f : sbtreeState -> sbtreeState) :
  (forall s, levels (f s) = levels s) -> stays (modify f).
Proof. intros Hf s y s' H. injection H as _ <-. apply Hf. Qed.

Lemma stays_none {A} : stays (A := A) (fun _ => None).
Proof. intros s y s' H. discriminate. Qed.

Lemma grows_stays {A} (m : M A) : stays m -> grows m.
Proof. intros Hm s x s' H. left. exact (Hm s x s' H). Qed.

Lemma grows_bind_l {A B} (m : M A) (k : A -> M B) :
  stays m -> (forall x, grows (k x)) -> grows (bind m k).
Proof.
  intros Hm Hk s y s' H. unfold bind in H. destruct (m s) as [[x s1] |] eqn:E; [| discriminate].
  rewrite <- (Hm s x s1 E). exact (Hk x s1 y s' H).
Qed.

Lemma grows_bind_r {A B} (m : M A) (k : A -> M B) :
  grows m -> (forall x, stays (k x)) -> grows (bind m k).
Proof.
  intros Hm Hk s y s' H. unfold bind in H. destruct (m s) as [[x s1] |] eqn:E; [| discriminate].
  rewrite (Hk x s1 y s' H). exact (Hm s x s1 E).
Qed.

Lemma grows_level_up : grows (modify (fun s => set_levels s (u8 (levels s + 1)))).
Proof. intros s y s' H. injection H as _ <-. right. reflexivity. Qed.

Ltac stays_auto :=
  repeat (cbv zeta; try unfold_buffer_ops; try unfold writePage, readPage; match goal with
  | |- stays (bind _ _) => apply stays_bind; [| intros ?]
  | |- stays (ret _) => apply stays_ret
  | |- stays (gets _) => apply stays_gets
  | |- stays diverge => apply stays_none
  | |- stays (fun _ => None) => apply stays_none
  | |- stays (modify _) => apply stays_modify; intros ?; reflexivity
  | |- stays (if ?b then _ else _) => destruct b
  | |- stays (match ?x with _ => _ end) => destruct x
  end).

Ltac grows_auto_with hook ghook :=
  repeat (cbv zeta; try unfold_buffer_ops; first
    [ apply grows_stays; solve [stays_auto; hook]
    | apply grows_level_up
    | ghook
    | match goal with
      | |- grows (bind _ _) =>
          first [ apply grows_bind_l; [solve [stays_auto; hook] | intros ?]
                | apply grows_bind_r; [| intros ?; solve [stays_auto; hook]] ]
      | |- grows (if ?b then _ else _) => destruct b
      | |- grows (match ?x with _ => _ end) => destruct x
      end ]).

Section Grow.
Variable c : config.

Lemma stays_updateIndex_loop (fuel : nat) :
  forall minkey key l prevPageNum pageNum, stays (updateIndex_loop c fuel minkey key l prevPageNum pageNum).
Proof.
  induction fuel as [| fuel IH]; intros minkey key l prevPageNum pageNum;
    cbn [updateIndex_loop]; stays_auto; apply IH.
Qed.

Lemma stays_shift_activePath (n : nat) : forall l, stays (shift_activePath n l).
Proof. induction n as [| n IH]; intros l; cbn [shift_activePath]; stays_auto; apply IH. Qed.

Lemma grows_sbtreeUpdateIndex (minkey key pageNum : Z) : grows (sbtreeUpdateIndex c minkey key pageNum).
Proof.
  unfold sbtreeUpdateIndex.
  grows_auto_with ltac:(first [apply stays_updateIndex_loop | apply stays_shift_activePath]) ltac:(fail).
Qed.

End Grow.

(** X16: A call of sbtreePut or sbtreeFlush that returns leaves levels as it was or
    adds exactly one level. *)
Theorem put_flush_add_at_most_one_level (c : config) (s : sbtreeState) :
  (forall key data r s', sbtreePut c key data s = Some (r, s') ->
     levels s' = levels s \/ levels s' = u8 (levels s + 1)) /\
  (forall oob r s', sbtreeFlush c oob s = Some (r, s') ->
     levels s' = levels s \/ levels s' = u8 (levels s + 1)).
Proof.
  split.
  - intros key data. revert s. change (grows (sbtreePut c key data)). unfold sbtreePut.
    grows_auto_with ltac:(fail) ltac:(apply grows_sbtreeUpdateIndex).
  - intros oob. revert s. change (grows (sbtreeFlush c oob)). unfold sbtreeFlush.
    grows_auto_with ltac:(fail) ltac:(apply grows_sbtreeUpdateIndex).
Qed.
